(** * MinecraftServerMonitor: a shallow embedding and its verified properties

    The development follows [MinecraftServerMonitor.py]: the SQLite store
    behind [DBAccess], the keyboard reader [WindowsInput], the methods of
    [MCMonitor] and its scheduler loop [run].

    Conventions of the embedding:
    - Python [int] and SQLite INTEGER are [Z].  A [float] and an SQLite
      REAL are written as the rational they denote, and every operation on
      them rounds to 53 significant bits, to nearest, ties to even
      ([Float64.round]).  What the program computes from 64-bit counts stays
      within the exponent range of a double, so that overflow and underflow
      are left out.  [statistics.mean] and [statistics.stdev] are the ones
      of CPython 3.11 and later, which work on exact fractions and round
      once.
    - Keyboard input is the ASCII repertoire: [str.lower] maps [A-Z] to
      [a-z], and whitespace is what [str.isspace] accepts below code 128.
    - Every [print] is a constructor of [msg], appended to the output of the
      [World]; the answers of the outside world (the status of a Minecraft
      server, SQLite's clock, the file system under [plt.savefig]) are
      oracles indexed by an I/O counter. *)

From Stdlib Require Import ZArith QArith Qround Qpower List String Ascii Bool.
From Stdlib Require Import Lia Lqa DecimalString.
From Stdlib Require Qcanon.
Import ListNotations.

Local Open Scope string_scope.
Local Open Scope list_scope.
Local Open Scope Z_scope.

(* ====================================================================== *)
(** * Python strings *)
(* ====================================================================== *)

Module PyStr.

(** [c.isupper()] on ASCII. *)
Definition is_upper (c : ascii) : bool :=
  let n := nat_of_ascii c in ((65 <=? n) && (n <=? 90))%nat.

(** One character of [str.lower()]. *)
Definition lower_char (c : ascii) : ascii :=
  if is_upper c then ascii_of_nat (nat_of_ascii c + 32) else c.

(** [c.isspace()] on ASCII: TAB, LF, VT, FF, CR, FS, GS, RS, US, SPACE. *)
Definition is_space (c : ascii) : bool :=
  let n := nat_of_ascii c in
  (((9 <=? n) && (n <=? 13)) || ((28 <=? n) && (n <=? 32)))%nat.

Definition chars := list ascii.

(** [s.lower()] *)
Definition lower_chars (l : chars) : chars := map lower_char l.

Definition lower (s : string) : string :=
  string_of_list_ascii (lower_chars (list_ascii_of_string s)).

(** [s.lstrip()] *)
Fixpoint lstrip_chars (l : chars) : chars :=
  match l with
  | c :: r => if is_space c then lstrip_chars r else l
  | [] => []
  end.

(** [s.strip()] *)
Definition strip_chars (l : chars) : chars :=
  rev (lstrip_chars (rev (lstrip_chars l))).

Definition strip (s : string) : string :=
  string_of_list_ascii (strip_chars (list_ascii_of_string s)).

(** [s.split()] without arguments: the maximal runs of non-whitespace
    characters, in order; [cur] is the run being read, reversed. *)
Fixpoint split_chars (cur : chars) (l : chars) : list chars :=
  match l with
  | [] => match cur with [] => [] | _ => [rev cur] end
  | c :: r =>
      if is_space c
      then match cur with
           | [] => split_chars [] r
           | _ => rev cur :: split_chars [] r
           end
      else split_chars (c :: cur) r
  end.

Definition split (s : string) : list string :=
  map string_of_list_ascii (split_chars [] (list_ascii_of_string s)).

(** [s.startswith(p)] *)
Definition startswith (s p : string) : bool := String.prefix p s.

(** [p in s] for strings. *)
Fixpoint contains (p s : string) : bool :=
  String.prefix p s ||
  match s with
  | EmptyString => false
  | String _ r => contains p r
  end.

(** [sep.join(l)] *)
Definition join (sep : string) (l : list string) : string := String.concat sep l.

(** [c in l] for a list of strings. *)
Definition mem (x : string) (l : list string) : bool :=
  existsb (String.eqb x) l.

(** [str(n)] for an [int]. *)
Definition str_of_int (n : Z) : string := NilZero.string_of_int (Z.to_int n).

Definition is_digit (c : ascii) : bool :=
  let n := nat_of_ascii c in ((48 <=? n) && (n <=? 57))%nat.

Definition digit_val (c : ascii) : Z := Z.of_nat (nat_of_ascii c) - 48.

(** The digits of an [int] literal, most significant first, with the single
    underscores Python allows between two digits.  [prev_digit] tells whether
    the previous character was a digit. *)
Fixpoint int_digits (acc : Z) (prev_digit : bool) (l : chars) : option Z :=
  match l with
  | [] => if prev_digit then Some acc else None
  | c :: r =>
      if is_digit c then int_digits (10 * acc + digit_val c) true r
      else if Ascii.eqb c "_" then
             if prev_digit then int_digits acc false r else None
      else None
  end.

(** [int(s)] on a token without whitespace: an optional sign and decimal
    digits; [None] is [ValueError]. *)
Definition int_of_chars (l : chars) : option Z :=
  match l with
  | [] => None
  | c :: r =>
      if Ascii.eqb c "-" then option_map Z.opp (int_digits 0 false r)
      else if Ascii.eqb c "+" then int_digits 0 false r
      else int_digits 0 false l
  end.

Definition int (s : string) : option Z :=
  int_of_chars (strip_chars (list_ascii_of_string s)).

(** No character of [s] is an uppercase letter. *)
Definition no_upper (s : string) : bool :=
  forallb (fun c => negb (is_upper c)) (list_ascii_of_string s).

End PyStr.

(* ====================================================================== *)
(** * Python [float] and SQLite REAL *)
(* ====================================================================== *)

Module Float64.

Local Open Scope Q_scope.

(** The integer nearest to [q]; of two that are equally near, the even
    one. *)
Definition rne (q : Q) : Z :=
  let f := Qfloor q in
  match Qcompare (q - inject_Z f) (1 # 2) with
  | Lt => f
  | Gt => (f + 1)%Z
  | Eq => if Z.even f then f else (f + 1)%Z
  end.

(** The weight of the last of the 53 bits of [q > 0]: the [e] with
    [2^52 <= q / 2^e < 2^53]. *)
Definition exponent (q : Q) : Z :=
  let e := (Z.log2 (Qnum q) - Z.log2 (Zpos (Qden q)) - 53)%Z in
  if Qle_bool (2 ^ 53) (q / 2 ^ e) then (e + 1)%Z else e.

(** [q > 0] to 53 significant bits. *)
Definition round_pos (q : Q) : Q :=
  inject_Z (rne (q / 2 ^ exponent q)) * 2 ^ exponent q.

(** The float nearest to [q], as the rational it is; of two that are
    equally near, the one whose last bit is 0. *)
Definition round (q : Q) : Q :=
  let r := Qred q in
  match Qnum r with
  | Z0 => 0
  | Zpos _ => Qred (round_pos r)
  | Zneg _ => Qred (- round_pos (- r))
  end.

End Float64.

(* ====================================================================== *)
(** * [statistics.mean] and [statistics.stdev] *)
(* ====================================================================== *)

Module Statistics.

Import Float64.

Definition Qltb (x y : Q) : bool := negb (Qle_bool y x).

Definition sumZ (l : list Z) : Z := fold_right Z.add 0%Z l.

(** A Python number: an [int] or a [float]. *)
Inductive num :=
| Int (z : Z)
| Float (f : Q).

(** The number as it is. *)
Definition value (x : num) : Q :=
  match x with
  | Int z => inject_Z z
  | Float f => f
  end.

(** [float(x)] *)
Definition to_float (x : num) : Q :=
  match x with
  | Int z => round (inject_Z z)
  | Float f => f
  end.

(** [x + y], [x - y] and [x * y]: on two [int]s the operation is exact; with
    a [float] on either side both operands are converted and the result is
    rounded. *)
Definition add (x y : num) : num :=
  match x, y with
  | Int a, Int b => Int (a + b)
  | _, _ => Float (round (to_float x + to_float y))
  end.

Definition sub (x y : num) : num :=
  match x, y with
  | Int a, Int b => Int (a - b)
  | _, _ => Float (round (to_float x - to_float y))
  end.

Definition mul (x y : num) : num :=
  match x, y with
  | Int a, Int b => Int (a * b)
  | _, _ => Float (round (to_float x * to_float y))
  end.

(** [x < y] and [x == y]: Python compares an [int] with a [float] by their
    values, without converting. *)
Definition ltb (x y : num) : bool := Qltb (value x) (value y).

Definition eqb (x y : num) : bool := Qeq_bool (value x) (value y).

(** [mean(data)]: the exact quotient, as an [int] when it is whole and as
    the nearest [float] otherwise; [None] is [StatisticsError] (no data). *)
Definition mean (data : list Z) : option num :=
  match data with
  | [] => None
  | _ =>
      let total := sumZ data in
      let n := Z.of_nat (List.length data) in
      Some (if total mod n =? 0 then Int (total / n)
            else Float (round (inject_Z total / inject_Z n)))
  end.

(** [n.bit_length()] *)
Definition bit_length (n : Z) : Z :=
  if n =? 0 then 0 else Z.log2 (Z.abs n) + 1.

(** [_integer_sqrt_of_frac_rto(n, m)]: the square root of [n/m], rounded
    to an integer, to the odd one when it is not exact. *)
Definition _integer_sqrt_of_frac_rto (n m : Z) : Z :=
  let a := Z.sqrt (n / m) in
  Z.lor a (if a * a * m =? n then 0 else 1).

(** [_float_sqrt_of_frac(n, m)]: the square root of [n/m] as a [float]. *)
Definition _float_sqrt_of_frac (n m : Z) : Q :=
  let q := (bit_length n - bit_length m - 109) / 2 in
  if 0 <=? q
  then round (inject_Z (Z.shiftl (_integer_sqrt_of_frac_rto n (Z.shiftl m (2 * q))) q))
  else round (inject_Z (_integer_sqrt_of_frac_rto (Z.shiftl n (- 2 * q)) m) /
              inject_Z (Z.shiftl 1 (- q))).

(** [stdev(data)]: the sum of the squared deviations of the data from
    their mean is computed exactly, as [(n * sxx - sx * sx) / n]; divided by
    [n - 1] it is a fraction in lowest terms, of which the root is taken.
    [None] is [StatisticsError] (fewer than two data points). *)
Definition stdev (data : list Z) : option num :=
  match data with
  | [] | [_] => None
  | _ =>
      let n := Z.of_nat (List.length data) in
      let sx := sumZ data in
      let sxx := sumZ (map (fun x => x * x) data) in
      let p := n * sxx - sx * sx in
      let q := n * (n - 1) in
      let g := Z.gcd p q in
      Some (Float (_float_sqrt_of_frac (p / g) (q / g)))
  end.

End Statistics.

(* ====================================================================== *)
(** * The SQLite store behind [DBAccess] *)
(* ====================================================================== *)

Module DBAccess.

(** A row of [servers (id INTEGER PRIMARY KEY AUTOINCREMENT,
    name TEXT UNIQUE, ip TEXT UNIQUE)]. *)
Record server := mk_server {
  srv_id : Z;
  srv_name : string;
  srv_ip : string
}.

(** A row of [stats (id INTEGER PRIMARY KEY AUTOINCREMENT, server_id INTEGER,
    online INTEGER, timestamp DATETIME DEFAULT CURRENT_TIMESTAMP,
    FOREIGN KEY(server_id) REFERENCES servers(id) ON DELETE CASCADE)].
    [server_id] may be NULL; a timestamp is a number of seconds of Unix
    time. *)
Record stat := mk_stat {
  stat_id : Z;
  stat_server_id : option Z;
  stat_online : Z;
  stat_timestamp : Z
}.

(** The database file as one connection sees it: the two tables in rowid
    order, the AUTOINCREMENT counters of [sqlite_sequence], and the
    connection's [PRAGMA foreign_keys] setting. *)
Record database := mk_database {
  servers : list server;
  stats : list stat;
  seq_servers : Z;
  seq_stats : Z;
  foreign_keys : bool
}.

(** SQLite enforces foreign keys, and so runs [ON DELETE CASCADE] actions,
    only on a connection where [PRAGMA foreign_keys = ON] was executed; the
    setting of a new connection is OFF. *)
Definition sqlite_default_foreign_keys : bool := false.

(** [sqlite3.connect(CONFIG['db_name'])] followed by [_init_db]: the tables
    that the file holds (CREATE TABLE IF NOT EXISTS keeps them), on a new
    connection; the program executes no PRAGMA. *)
Definition connect (file_servers : list server) (file_stats : list stat)
    (file_seq_servers file_seq_stats : Z) : database :=
  {| servers := file_servers;
     stats := file_stats;
     seq_servers := file_seq_servers;
     seq_stats := file_seq_stats;
     foreign_keys := sqlite_default_foreign_keys |}.

(** The database of a file that did not exist. *)
Definition empty : database := connect [] [] 0 0.

Definition seconds_per_day : Z := 86400.

(** [strftime('%Y-%m-%d', timestamp)]: the calendar day. *)
Definition day_of (ts : Z) : Z := ts / seconds_per_day.

(** [strftime('%Y-%m-%d %H:%M', timestamp)]: the minute. *)
Definition minute_of (ts : Z) : Z := ts / 60.

(** The Unix time of julian day 0, noon of 24 November 4714 BC: SQLite has
    no date before it. *)
Definition julian_origin : Z := - 210866760000.

(** [datetime('now', f'-{days} days')].  For a negative [days] the modifier
    reads [--N days], which SQLite rejects; it also rejects 5373485 days
    and more, and a result before julian day 0: the value is then NULL
    ([None]). *)
Definition datetime_now_minus_days (now days : Z) : option Z :=
  if days <? 0 then None
  else if 5373485 <=? days then None
  else
    let t := now - days * seconds_per_day in
    if t <? julian_origin then None else Some t.

(** [timestamp > cutoff]; a comparison with NULL selects no row. *)
Definition after (cutoff : option Z) (r : stat) : bool :=
  match cutoff with
  | Some c => c <? stat_timestamp r
  | None => false
  end.

(** [timestamp < cutoff] *)
Definition before (cutoff : option Z) (r : stat) : bool :=
  match cutoff with
  | Some c => stat_timestamp r <? c
  | None => false
  end.

(** [INSERT INTO servers (name, ip) VALUES (?, ?)]; [None] is
    [sqlite3.IntegrityError], raised by either UNIQUE constraint. *)
Definition insert_server (name ip : string) (db : database) : option database :=
  if existsb (fun s => String.eqb (srv_name s) name || String.eqb (srv_ip s) ip)
       (servers db)
  then None
  else
    let id := seq_servers db + 1 in
    Some {| servers := servers db ++ [mk_server id name ip];
            stats := stats db;
            seq_servers := id;
            seq_stats := seq_stats db;
            foreign_keys := foreign_keys db |}.

(** A Python [int] is bound to a parameter of a statement only when it fits
    SQLite's INTEGER, a signed 64-bit number; for any other [int] the
    [sqlite3] module raises [OverflowError], with this text, before the
    statement runs. *)
Definition fits_integer (z : Z) : bool := (- 2 ^ 63 <=? z) && (z <? 2 ^ 63).

Definition overflow_error : string :=
  "Python int too large to convert to SQLite INTEGER".

(** [INSERT INTO stats (server_id, online) VALUES (?, ?)] at time [now]. *)
Definition insert_stat (server_id : option Z) (online now : Z) (db : database)
    : database :=
  let id := seq_stats db + 1 in
  {| servers := servers db;
     stats := stats db ++ [mk_stat id server_id online now];
     seq_servers := seq_servers db;
     seq_stats := id;
     foreign_keys := foreign_keys db |}.

(** [stat.server_id] references one of [gone]. *)
Definition references (gone : list server) (r : stat) : bool :=
  match stat_server_id r with
  | Some i => existsb (fun s => srv_id s =? i) gone
  | None => false
  end.

(** [DELETE FROM servers WHERE name = ?]: the database and [rowcount].  The
    cascade to [stats] runs only when the connection enforces foreign keys. *)
Definition delete_server (name : string) (db : database) : database * nat :=
  let gone := filter (fun s => String.eqb (srv_name s) name) (servers db) in
  let kept := filter (fun s => negb (String.eqb (srv_name s) name)) (servers db) in
  ({| servers := kept;
      stats := if foreign_keys db
               then filter (fun r => negb (references gone r)) (stats db)
               else stats db;
      seq_servers := seq_servers db;
      seq_stats := seq_stats db;
      foreign_keys := foreign_keys db |},
   List.length gone).

(** [DELETE FROM stats WHERE server_id = ?]: the database and [rowcount]. *)
Definition delete_stats_of (server_id : Z) (db : database) : database * nat :=
  let hit r := match stat_server_id r with
               | Some i => i =? server_id
               | None => false
               end in
  ({| servers := servers db;
      stats := filter (fun r => negb (hit r)) (stats db);
      seq_servers := seq_servers db;
      seq_stats := seq_stats db;
      foreign_keys := foreign_keys db |},
   List.length (filter hit (stats db))).

(** [DELETE FROM stats WHERE timestamp < datetime('now', '-30 days')]. *)
Definition delete_stats_before (now : Z) (db : database) : database * nat :=
  let old := before (datetime_now_minus_days now 30) in
  ({| servers := servers db;
      stats := filter (fun r => negb (old r)) (stats db);
      seq_servers := seq_servers db;
      seq_stats := seq_stats db;
      foreign_keys := foreign_keys db |},
   List.length (filter old (stats db))).

(** [SELECT name, ip FROM servers]: a scan in rowid order. *)
Definition select_servers (db : database) : list (string * string) :=
  map (fun s => (srv_name s, srv_ip s)) (servers db).

(** [SELECT id FROM servers WHERE name = ?] and [fetchone()]. *)
Definition select_id (name : string) (db : database) : option Z :=
  match filter (fun s => String.eqb (srv_name s) name) (servers db) with
  | s :: _ => Some (srv_id s)
  | [] => None
  end.

(** [FROM stats JOIN servers ON servers.id = stats.server_id
     WHERE servers.name = ?]: one row per matching pair. *)
Definition joined (name : string) (db : database) : list stat :=
  flat_map
    (fun r =>
       map (fun _ => r)
         (filter
            (fun s => String.eqb (srv_name s) name &&
                      match stat_server_id r with
                      | Some i => srv_id s =? i
                      | None => false
                      end)
            (servers db)))
    (stats db).

(** Insertion into a list ordered by [le]; rows that compare equal keep their
    order of arrival (SQL leaves the order of ties open). *)
Fixpoint insert_by (le : stat -> stat -> bool) (r : stat) (l : list stat)
    : list stat :=
  match l with
  | [] => [r]
  | x :: rest => if le x r then x :: insert_by le r rest else r :: l
  end.

Definition sort_by (le : stat -> stat -> bool) (l : list stat) : list stat :=
  fold_left (fun acc r => insert_by le r acc) l [].

(** [ORDER BY timestamp] *)
Definition order_by_timestamp : list stat -> list stat :=
  sort_by (fun x y => stat_timestamp x <=? stat_timestamp y).

(** [ORDER BY timestamp DESC] *)
Definition order_by_timestamp_desc : list stat -> list stat :=
  sort_by (fun x y => stat_timestamp y <=? stat_timestamp x).

(** The rows of the window of [generate_report] and [plot_trend]:
    [... WHERE servers.name = ? AND timestamp > datetime('now', ?)]. *)
Definition window (name : string) (now days : Z) (db : database) : list stat :=
  filter (after (datetime_now_minus_days now days)) (joined name db).

(** [MAX(online)]: NULL over no rows. *)
Definition sql_max (l : list Z) : option Z :=
  match l with
  | [] => None
  | x :: r => Some (fold_left Z.max r x)
  end.

(** The sum that [AVG] keeps, started at [s]: every value is converted to
    a double and added to the sum, in the order of the rows. *)
Definition running_sum (l : list Z) (s : Q) : Q :=
  fold_left (fun s v => Float64.round (s + Float64.round (inject_Z v))%Q) l s.

(** [AVG(online)]: NULL over no rows; the sum divided by the number of the
    rows, as a double. *)
Definition sql_avg (l : list Z) : option Q :=
  match l with
  | [] => None
  | _ =>
      Some (Float64.round
              (running_sum l 0 /
               Float64.round (inject_Z (Z.of_nat (List.length l))))%Q)
  end.

(** The distinct values of a list, in order of first appearance. *)
Fixpoint distinct (l : list Z) : list Z :=
  match l with
  | [] => []
  | x :: r => x :: filter (fun y => negb (y =? x)) (distinct r)
  end.

(** [COUNT(DISTINCT expr)] *)
Definition count_distinct (l : list Z) : nat := List.length (distinct l).

(** The row of the report query: [MAX(online)], [AVG(online)],
    [COUNT(DISTINCT strftime('%Y-%m-%d', timestamp))]. *)
Definition select_aggregate (name : string) (now days : Z) (db : database)
    : option Z * option Q * nat :=
  let rows := window name now days db in
  (sql_max (map stat_online rows),
   sql_avg (map stat_online rows),
   count_distinct (map (fun r => day_of (stat_timestamp r)) rows)).

(** The rows of the trend query: [(time, online)], [ORDER BY timestamp]. *)
Definition select_trend (name : string) (now days : Z) (db : database)
    : list (Z * Z) :=
  map (fun r => (minute_of (stat_timestamp r), stat_online r))
    (order_by_timestamp (window name now days db)).

(** The rows of the anomaly query: [online], [ORDER BY timestamp DESC
    LIMIT 6]. *)
Definition select_recent (name : string) (db : database) : list Z :=
  map stat_online (firstn 6 (order_by_timestamp_desc (joined name db))).

End DBAccess.

(* ====================================================================== *)
(** * The keyboard reader [WindowsInput] *)
(* ====================================================================== *)

Module WindowsInput.

Import PyStr.

(** What the reader thread writes to the terminal. *)
Inductive echo :=
| EchoChar (c : ascii)
| EchoErase
| EchoNewline.

(** [self.buffer] and [self.cmd_queue] (oldest command first). *)
Record t := mk {
  buffer : list ascii;
  cmd_queue : list string
}.

Definition init : t := {| buffer := []; cmd_queue := [] |}.

Definition CR : ascii := ascii_of_nat 13.
Definition BS : ascii := ascii_of_nat 8.

(** [''.join(self.buffer).strip().lower()] *)
Definition line_of (buf : list ascii) : string :=
  lower (strip (string_of_list_ascii buf)).

(** One round of [_input_loop] in which [msvcrt.kbhit()] held and
    [msvcrt.getwch()] returned [char]: the new state and the echo. *)
Definition on_key (char : ascii) (i : t) : t * list echo :=
  if Ascii.eqb char CR then
    let cmd := line_of (buffer i) in
    ({| buffer := [];
        cmd_queue := if String.eqb cmd "" then cmd_queue i
                     else cmd_queue i ++ [cmd] |},
     [EchoNewline])
  else if Ascii.eqb char BS then
    match buffer i with
    | [] => (i, [])
    | _ => ({| buffer := removelast (buffer i); cmd_queue := cmd_queue i |},
            [EchoErase])
    end
  else
    ({| buffer := buffer i ++ [char]; cmd_queue := cmd_queue i |},
     [EchoChar char]).

(** The reader thread over a sequence of keystrokes. *)
Fixpoint on_keys (keys : list ascii) (i : t) : t * list echo :=
  match keys with
  | [] => (i, [])
  | k :: rest =>
      let '(i1, e1) := on_key k i in
      let '(i2, e2) := on_keys rest i1 in
      (i2, e1 ++ e2)
  end.

(** [get_cmd]: the oldest command of the queue, taken off it; [None] when
    the queue is empty ([queue.Empty]). *)
Definition get_cmd (i : t) : option string * t :=
  match cmd_queue i with
  | [] => (None, i)
  | cmd :: rest => (Some cmd, {| buffer := buffer i; cmd_queue := rest |})
  end.

End WindowsInput.

(* ====================================================================== *)
(** * [MCMonitor] *)
(* ====================================================================== *)

Module MCMonitor.

Import PyStr DBAccess.

(** [JavaServer.lookup(ip, timeout=2).status()]: [status.players.online], or
    an exception with its [str(e)]. *)
Inductive status_result :=
| StatusOk (online : Z)
| StatusError (err : string).

(** [plt.savefig(filename)]: the file is written, or the call raises.  A
    [ValueError] is told apart from every other exception, of which
    [str(e)] is kept, because [_handle_trend] catches it. *)
Inductive savefig_result :=
| Saved
| SavefigValueError
| SavefigError (err : string).

(** The outside world, replayed: the answer of the Minecraft server at
    address [ip], the reading of SQLite's clock (seconds) and what becomes
    of writing a figure to the file [filename], each at a given value of
    the I/O counter of the [World]. *)
Record Env := mk_env {
  status_of : nat -> string -> status_result;
  sql_now : nat -> Z;
  savefig_of : nat -> string -> savefig_result
}.

(** An exception that leaves a method: a [ValueError], or any other
    [Exception] with its [str(e)]. *)
Inductive exn :=
| ValueError
| OtherError (err : string).

(** A value interpolated in a report line, or the text [N/A]. *)
Inductive shown (A : Type) :=
| NA
| Val (a : A).
Arguments NA {A}.
Arguments Val {A} a.

(** The anomaly detector's finding for one server. *)
Inductive verdict := Skip | Normal | Spike | Drop.

(** Everything the program prints, one constructor per [print] call. *)
Inductive msg :=
| Echo (e : WindowsInput.echo)
| CollectStart
| CollectOk (name : string) (online : Z)
| CollectFail (name err : string)
| ReportStart
| ReportTitle
| ReportServer (name ip : string)
| ReportPeak (peak : shown Z)
| ReportAvg (avg : shown Q)        (* a value is printed as [round(avg, 1)] *)
| ReportDays (days : nat)
| AnomalyStart
| AnomalySpike (name : string) (current : Z) (avg : Statistics.num)
                                  (* [avg] is printed as [round(avg, 1)] *)
| AnomalyDrop (name : string) (current : Z) (avg : Statistics.num)
| CleanDisabled
| CleanStart
| CleanDeleted (rows : nat)
| TrendNoData (name : string)
| TrendSaved (filename : string)
| AddOk (name ip : string)
| AddDuplicate
| AddTimeout
| AddFailed (err : string)
| RemoveOk (name : string)
| RemoveNotFound
| DeleteNoServer
| DeleteOk (rows : nat) (name : string)
| NowNoServers
| NowStart
| NowOk (name : string) (online : Z)
| NowTimeout (name : string)
| NowFailed (name err : string)
| Help
| ListNoServers
| ListTitle
| ListEntry (name ip : string)
| UsageAdd
| UsageRemove
| UsageDelete
| UsageTrend
| DaysNotInteger
| TrendUnknown (invalid : list string)
| ConfigTitle
| ConfigInterval (interval : Z)
| ConfigRetention (never_delete : bool)
| UnknownCommand
| ExecCommand (cmd : string)
| CommandError (err : string)
| Prompt
| Banner
| BannerStorage (db_name : string)
| BannerInterval (interval : Z)
| BannerHint
| Stopped.

(** A figure written by [plt.savefig]: the lines plotted, the legend labels
    and the file name. *)
Record artifact := mk_artifact {
  art_filename : string;
  art_lines : list (list (Z * Z));
  art_legend : list string
}.

(** [CONFIG] *)
Definition interval : Z := 300.
Definition db_name : string := "server_stats.db".

(** The state the methods of [MCMonitor] act on. *)
Record World := mk_world {
  db : database;                 (* self.db *)
  out : list msg;                (* the terminal *)
  files : list artifact;         (* figures saved in the working directory *)
  running : bool;                (* self.running *)
  never_delete_data : bool;      (* CONFIG['never_delete_data'] *)
  input_handler : WindowsInput.t;(* self.input_handler *)
  io : nat                       (* oracle readings made so far *)
}.

Definition print (m : msg) (w : World) : World :=
  mk_world (db w) (out w ++ [m]) (files w) (running w)
    (never_delete_data w) (input_handler w) (io w).

Definition set_db (d : database) (w : World) : World :=
  mk_world d (out w) (files w) (running w)
    (never_delete_data w) (input_handler w) (io w).

Definition save_file (a : artifact) (w : World) : World :=
  mk_world (db w) (out w) (files w ++ [a]) (running w)
    (never_delete_data w) (input_handler w) (io w).

Definition set_running (b : bool) (w : World) : World :=
  mk_world (db w) (out w) (files w) b
    (never_delete_data w) (input_handler w) (io w).

Definition set_input (i : WindowsInput.t) (w : World) : World :=
  mk_world (db w) (out w) (files w) (running w)
    (never_delete_data w) i (io w).

Definition next_io (w : World) : World :=
  mk_world (db w) (out w) (files w) (running w)
    (never_delete_data w) (input_handler w) (S (io w)).

(** [MCMonitor(never_delete)] on the database [d]. *)
Definition init (d : database) (never_delete : bool) : World :=
  mk_world d [] [] true never_delete WindowsInput.init 0.

(** One call of the status provider. *)
Definition ask_status (env : Env) (ip : string) (w : World)
    : status_result * World :=
  (status_of env (io w) ip, next_io w).

(** One reading of SQLite's clock. *)
Definition ask_now (env : Env) (w : World) : Z * World :=
  (sql_now env (io w), next_io w).

(** [load_servers]: the [(name, ip)] of every server. *)
Definition load_servers (w : World) : list (string * string) :=
  select_servers (db w).

(** [_get_server_id] *)
Definition _get_server_id (name : string) (w : World) : option Z :=
  select_id name (db w).

(** The body of the loop of [collect_data] for one server. *)
Definition collect_one (env : Env) (w : World) (server : string * string)
    : World :=
  let '(name, ip) := server in
  let '(status, w1) := ask_status env ip w in
  match status with
  | StatusOk online =>
      let server_id := _get_server_id name w1 in
      if fits_integer online then
        let '(now, w2) := ask_now env w1 in
        let w3 := set_db (insert_stat server_id online now (db w2)) w2 in
        print (CollectOk name online) w3
      else print (CollectFail name overflow_error) w1
  | StatusError err => print (CollectFail name err) w1
  end.

Definition collect_data (env : Env) (w : World) : World :=
  let servers := load_servers w in
  match servers with
  | [] => w
  | _ => fold_left (collect_one env) servers (print CollectStart w)
  end.

(** [data[0] or 'N/A'] *)
Definition peak_shown (peak : option Z) : shown Z :=
  match peak with
  | Some v => if v =? 0 then NA else Val v
  | None => NA
  end.

(** [round(data[1], 1) if data[1] else 'N/A'] *)
Definition avg_shown (avg : option Q) : shown Q :=
  match avg with
  | Some v => if Qeq_bool v 0 then NA else Val v
  | None => NA
  end.

(** The body of the loop of [generate_report] for one server. *)
Definition report_one (env : Env) (days : Z) (w : World)
    (server : string * string) : World :=
  let '(name, ip) := server in
  let '(now, w1) := ask_now env w in
  let '(peak, avg, ndays) := select_aggregate name now days (db w1) in
  print (ReportDays ndays)
    (print (ReportAvg (avg_shown avg))
       (print (ReportPeak (peak_shown peak))
          (print (ReportServer name ip) w1))).

Definition generate_report (env : Env) (days : Z) (w : World) : World :=
  let servers := load_servers w in
  fold_left (report_one env days) servers
    (print ReportTitle (print ReportStart w)).

(** The test of [detect_anomalies] on the rows [data] of one server, newest
    first; [None] is an exception of [statistics]. *)
Definition check_samples (data : list Z) : option verdict :=
  if (List.length data <? 3)%nat then Some Skip
  else
    match data with
    | [] => None
    | current :: baseline =>
        match Statistics.mean baseline,
              (if (2 <? List.length data)%nat
               then Statistics.stdev baseline
               else Some (Statistics.Int 0)) with
        | Some avg, Some std =>
            let threshold :=
              if Statistics.eqb std (Statistics.Int 0)
              then Statistics.mul avg (Statistics.Float (3 # 2))
              else Statistics.add avg
                     (Statistics.mul (Statistics.Int 2) std) in
            if Statistics.ltb threshold (Statistics.Int current)
            then Some Spike
            else if Statistics.ltb (Statistics.Int current)
                      (Statistics.sub avg
                         (Statistics.mul (Statistics.Int 2) std))
                 then Some Drop
                 else Some Normal
        | _, _ => None
        end
    end.

(** The body of the loop of [detect_anomalies] for one server. *)
Definition detect_one (w : World) (server : string * string) : World :=
  let '(name, _) := server in
  let data := select_recent name (db w) in
  match check_samples data, data, Statistics.mean (tl data) with
  | Some Spike, current :: _, Some avg => print (AnomalySpike name current avg) w
  | Some Drop, current :: _, Some avg => print (AnomalyDrop name current avg) w
  | _, _, _ => w
  end.

Definition detect_anomalies (w : World) : World :=
  let servers := load_servers w in
  fold_left detect_one servers (print AnomalyStart w).

Definition clean_old_data (env : Env) (w : World) : World :=
  if never_delete_data w then print CleanDisabled w
  else
    let w1 := print CleanStart w in
    let '(now, w2) := ask_now env w1 in
    let '(d, rowcount) := delete_stats_before now (db w2) in
    print (CleanDeleted rowcount) (set_db d w2).

(** The body of the loop of [plot_trend] for one name; [lines] are the lines
    plotted so far. *)
Definition plot_one (env : Env) (days : Z)
    (acc : World * list (list (Z * Z))) (name : string)
    : World * list (list (Z * Z)) :=
  let '(w, lines) := acc in
  let '(now, w1) := ask_now env w in
  let data := select_trend name now days (db w1) in
  match data with
  | [] => (print (TrendNoData name) w1, lines)
  | _ => (w1, lines ++ [data])
  end.

Definition trend_filename (server_names : list string) (days : Z) : string :=
  "trend_" ++ str_of_int days ++ "d_" ++ join "_" server_names ++ ".png".

(** One call of [plt.savefig]. *)
Definition ask_savefig (env : Env) (filename : string) (w : World)
    : savefig_result * World :=
  (savefig_of env (io w) filename, next_io w).

(** [plot_trend]: the world, and the exception of [plt.savefig] if it
    raised one; nothing is written or printed after it. *)
Definition plot_trend (env : Env) (server_names : list string) (days : Z)
    (w : World) : World * option exn :=
  let '(w1, lines) := fold_left (plot_one env days) server_names (w, []) in
  let filename := trend_filename server_names days in
  let '(saved, w2) := ask_savefig env filename w1 in
  match saved with
  | Saved =>
      (print (TrendSaved filename)
         (save_file (mk_artifact filename lines server_names) w2), None)
  | SavefigValueError => (w2, Some ValueError)
  | SavefigError err => (w2, Some (OtherError err))
  end.

Definition add_server (env : Env) (name ip : string) (w : World) : World :=
  let '(status, w1) := ask_status env ip w in
  match status with
  | StatusOk _ =>
      match insert_server name ip (db w1) with
      | Some d => print (AddOk name ip) (set_db d w1)
      | None => print AddDuplicate w1
      end
  | StatusError err =>
      if contains "timed out" err then print AddTimeout w1
      else print (AddFailed err) w1
  end.

Definition remove_server (name : string) (w : World) : World :=
  let '(d, rowcount) := delete_server name (db w) in
  let w1 := set_db d w in
  if (0 <? rowcount)%nat then print (RemoveOk name) w1
  else print RemoveNotFound w1.

(** [if not server_id] holds for [None] and for the id [0]. *)
Definition delete_server_data (name : string) (w : World) : World :=
  let server_id := _get_server_id name w in
  match server_id with
  | None => print DeleteNoServer w
  | Some i =>
      if i =? 0 then print DeleteNoServer w
      else
        let '(d, rowcount) := delete_stats_of i (db w) in
        print (DeleteOk rowcount name) (set_db d w)
  end.

(** The body of the loop of [real_time_query] for one server. *)
Definition query_one (env : Env) (w : World) (server : string * string)
    : World :=
  let '(name, ip) := server in
  let '(status, w1) := ask_status env ip w in
  match status with
  | StatusOk online => print (NowOk name online) w1
  | StatusError err =>
      if contains "timed out" err then print (NowTimeout name) w1
      else print (NowFailed name err) w1
  end.

Definition real_time_query (env : Env) (w : World) : World :=
  let servers := load_servers w in
  match servers with
  | [] => print NowNoServers w
  | _ => fold_left (query_one env) servers (print NowStart w)
  end.

Definition show_help (w : World) : World := print Help w.

Definition _list_servers (w : World) : World :=
  let servers := load_servers w in
  match servers with
  | [] => print ListNoServers w
  | _ =>
      fold_left (fun w s => print (ListEntry (fst s) (snd s)) w) servers
        (print ListTitle w)
  end.

Definition _show_config (w : World) : World :=
  print (ConfigRetention (never_delete_data w))
    (print (ConfigInterval interval) (print ConfigTitle w)).

Definition _handle_add (env : Env) (cmd : string) (w : World) : World :=
  match split cmd with
  | [_; name; ip] => add_server env name ip w
  | _ => print UsageAdd w
  end.

Definition _handle_remove (cmd : string) (w : World) : World :=
  match split cmd with
  | [_; name] => remove_server name w
  | _ => print UsageRemove w
  end.

Definition _handle_delete (cmd : string) (w : World) : World :=
  match split cmd with
  | [_; name] => delete_server_data name w
  | _ => print UsageDelete w
  end.

Definition _handle_report (env : Env) (cmd : string) (w : World) : World :=
  let days :=
    match split cmd with
    | _ :: d :: _ => int d
    | _ => Some 1
    end in
  match days with
  | Some n => generate_report env n w
  | None => print DaysNotInteger w
  end.

(** [_handle_trend]: the world, and [str(e)] of the exception that leaves
    it.  The [except ValueError] clause encloses the call of [plot_trend],
    so a [ValueError] of [plt.savefig] is reported as a days token that is
    no integer. *)
Definition _handle_trend (env : Env) (cmd : string) (w : World)
    : World * option string :=
  match split cmd with
  | _ :: d :: ((_ :: _) as servers) =>
      match int d with
      | Some days =>
          let valid_servers := map fst (load_servers w) in
          let invalid := filter (fun s => negb (mem s valid_servers)) servers in
          match invalid with
          | _ :: _ => (print (TrendUnknown invalid) w, None)
          | [] =>
              match plot_trend env servers days w with
              | (w1, None) => (w1, None)
              | (w1, Some ValueError) => (print DaysNotInteger w1, None)
              | (w1, Some (OtherError err)) => (w1, Some err)
              end
          end
      | None => (print DaysNotInteger w, None)
      end
  | _ => (print UsageTrend w, None)
  end.

(** [_execute_command]: the world, and [str(e)] of the exception that
    leaves it; [plt.savefig] is the one call that raises outside a [try]
    of the method it is made in. *)
Definition _execute_command (env : Env) (cmd : string) (w : World)
    : World * option string :=
  if String.eqb cmd "exit" then (set_running false w, None)
  else if String.eqb cmd "help" then (show_help w, None)
  else if String.eqb cmd "now" then (real_time_query env w, None)
  else if String.eqb cmd "list" then (_list_servers w, None)
  else if startswith cmd "add" then (_handle_add env cmd w, None)
  else if startswith cmd "remove" then (_handle_remove cmd w, None)
  else if startswith cmd "delete" then (_handle_delete cmd w, None)
  else if startswith cmd "report" then (_handle_report env cmd w, None)
  else if startswith cmd "trend" then _handle_trend env cmd w
  else if String.eqb cmd "config" then (_show_config w, None)
  else (print UnknownCommand w, None).

(** The [except Exception] clause of the loop of [_process_input]. *)
Definition caught (r : World * option string) : World :=
  match r with
  | (w, Some err) => print (CommandError err) w
  | (w, None) => w
  end.

(** The loop of [_process_input] over the queue [q] as [get_cmd] hands it
    out: the world and the commands left in the queue.  An empty command
    would end the loop like an empty queue. *)
Fixpoint drain (env : Env) (q : list string) (w : World)
    : World * list string :=
  match q with
  | [] => (w, [])
  | cmd :: rest =>
      if String.eqb cmd "" then (w, rest)
      else drain env rest
             (print Prompt
                (caught (_execute_command env cmd (print (ExecCommand cmd) w))))
  end.

Definition _process_input (env : Env) (w : World) : World :=
  let i := input_handler w in
  let '(w1, rest) := drain env (WindowsInput.cmd_queue i) w in
  set_input (WindowsInput.mk (WindowsInput.buffer i) rest) w1.

End MCMonitor.

(* ====================================================================== *)
(** * The scheduler loop [MCMonitor.run] *)
(* ====================================================================== *)

Module Scheduler.

Import PyStr DBAccess MCMonitor.

(** [datetime.now()] is a number of microseconds on the local time line. *)
Definition us_per_minute : Z := 60000000.
Definition us_per_hour : Z := 3600000000.
Definition us_per_day : Z := 86400000000.

(** [now.hour], [now.minute], [now.date()] and [(a - b).days]. *)
Definition hour (now : Z) : Z := (now / us_per_hour) mod 24.
Definition minute (now : Z) : Z := (now / us_per_minute) mod 60.
Definition date (now : Z) : Z := now / us_per_day.
Definition days_between (a b : Z) : Z := (a - b) / us_per_day.

(** What one pass of the loop body reads from outside: the keys the reader
    thread has received since the previous pass, [time.time()] (seconds) at
    the interval test and after the collection, and [datetime.now()]. *)
Record TickInput := mk_tick {
  keys : list ascii;
  time_at_check : Q;
  time_after_collect : Q;
  now : Z
}.

(** The scheduled actions of the loop body. *)
Inductive action := Poll | DailyReport | Cleanup | AnomalyCheck.

(** The local variables of [run] together with the monitor. *)
Record Loop := mk_loop {
  world : World;
  last_collect : Q;
  last_report : Z;
  last_clean : Z
}.

(** The reader thread's work between two passes. *)
Definition feed (ks : list ascii) (w : World) : World :=
  let '(i, echoes) := WindowsInput.on_keys ks (input_handler w) in
  set_input i (fold_left (fun w e => print (Echo e) w) echoes w).

(** The condition of the daily report. *)
Definition report_due (now : Z) : bool := (hour now =? 8) && (minute now <? 5).

(** One pass of the body of [while self.running], up to [time.sleep(0.1)]:
    the new state and the scheduled actions that ran, in order. *)
Definition tick (env : Env) (inp : TickInput) (s : Loop) : Loop * list action :=
  let w0 := feed (keys inp) (world s) in
  let w1 := _process_input env w0 in
  let '(w2, lc, a2) :=
    if Qle_bool (inject_Z interval) (time_at_check inp - last_collect s)
    then (collect_data env w1, time_after_collect inp, [Poll])
    else (w1, last_collect s, []) in
  let '(w3, lr, a3) :=
    if report_due (now inp)
    then (generate_report env 1 w2, now inp, [DailyReport])
    else (w2, last_report s, []) in
  let '(w4, lcl, a4) :=
    if 7 <=? days_between (now inp) (last_clean s)
    then (clean_old_data env w3, now inp, [Cleanup])
    else (w3, last_clean s, []) in
  let '(w5, a5) :=
    if minute (now inp) =? 0
    then (detect_anomalies w4, [AnomalyCheck])
    else (w4, []) in
  (mk_loop w5 lc lr lcl, a2 ++ a3 ++ a4 ++ a5).

(** [while self.running: ...] over the passes that [inputs] describes: the
    state reached, and for every pass made its input and the scheduled
    actions that ran in it.  A run is a finite prefix of passes; the
    interrupt from the keyboard is not part of it. *)
Fixpoint loop (env : Env) (inputs : list TickInput) (s : Loop)
    : Loop * list (TickInput * list action) :=
  match inputs with
  | [] => (s, [])
  | inp :: rest =>
      if running (world s) then
        let '(s1, acts) := tick env inp s in
        let '(s2, trace) := loop env rest s1 in
        (s2, (inp, acts) :: trace)
      else (s, [])
  end.

(** The prologue of [run]: the banner and the three loop variables. *)
Definition start (time0 : Q) (now0 : Z) (w : World) : Loop :=
  mk_loop
    (print Prompt
       (print BannerHint
          (print (BannerInterval interval)
             (print (BannerStorage db_name) (print Banner w)))))
    time0 now0 now0.

(** [run]; the [finally] clause prints once the loop has been left. *)
Definition run (env : Env) (time0 : Q) (now0 : Z) (inputs : list TickInput)
    (w : World) : Loop * list (TickInput * list action) :=
  let '(s, trace) := loop env inputs (start time0 now0 w) in
  if running (world s) then (s, trace)
  else (mk_loop (print Stopped (world s)) (last_collect s) (last_report s)
          (last_clean s), trace).

(** The number of passes of [trace] made on calendar day [d] in which the
    daily report ran. *)
Definition reports_on (d : Z) (trace : list (TickInput * list action)) : nat :=
  List.length
    (filter
       (fun e => (date (now (fst e)) =? d) &&
                 existsb (fun a => match a with DailyReport => true | _ => false end)
                   (snd e))
       trace).

End Scheduler.

(* ====================================================================== *)
(** * Notions used to state the properties *)
(* ====================================================================== *)

Module Statements.

Import PyStr DBAccess MCMonitor Scheduler.

(** [len(set(l)) == len(l)] for a list of strings. *)
Fixpoint distinct_strings (l : list string) : bool :=
  match l with
  | [] => true
  | x :: r => negb (mem x r) && distinct_strings r
  end.

(** The answer [a] is a count that the INSERT of [collect_data] stores. *)
Definition storable (a : status_result) : bool :=
  match a with
  | StatusOk online => fits_integer online
  | StatusError _ => false
  end.

(** The answers the status provider gives in one round of [collect_data]
    over [rows], started when the I/O counter is [n]: a poll that stores a
    sample reads the provider and then the clock, any other the provider
    alone. *)
Fixpoint round_answers (env : Env) (n : nat) (rows : list server)
    : list status_result :=
  match rows with
  | [] => []
  | s :: rest =>
      let a := status_of env n (srv_ip s) in
      a :: round_answers env (if storable a then S (S n) else S n) rest
  end.

(** What a poll leaves in [stats]: its [(server_id, online)]. *)
Definition sample_of (p : server * status_result) : list (option Z * Z) :=
  match snd p with
  | StatusOk online =>
      if fits_integer online then [(Some (srv_id (fst p)), online)] else []
  | StatusError _ => []
  end.

(** What a poll prints. *)
Definition report_of (p : server * status_result) : msg :=
  match snd p with
  | StatusOk online =>
      if fits_integer online then CollectOk (srv_name (fst p)) online
      else CollectFail (srv_name (fst p)) overflow_error
  | StatusError err => CollectFail (srv_name (fst p)) err
  end.

(** The [{"name": ..., "ip": ...}] that [load_servers] builds of a row. *)
Definition server_info (s : server) : string * string :=
  (srv_name s, srv_ip s).

(** The columns of a sample that the poll decides. *)
Definition sample_key (r : stat) : option Z * Z :=
  (stat_server_id r, stat_online r).

(** What becomes of the [plt.savefig] of [plot_trend] started in [w] for
    [names]: the loop before it reads the clock once for every name. *)
Definition savefig_at (env : Env) (names : list string) (days : Z) (w : World)
    : savefig_result :=
  savefig_of env (io w + List.length names) (trend_filename names days).

(** The names of a [trend] command that the store does not list. *)
Definition unknown_names (names : list string) (w : World) : list string :=
  filter (fun s => negb (mem s (map fst (load_servers w)))) names.

(** No character of [l] is an uppercase letter. *)
Definition lowercase (l : chars) : Prop :=
  Forall (fun c => is_upper c = false) l.

(** What the queue may hold: commands that are not empty and have no
    uppercase letter. *)
Definition well_formed_command (cmd : string) : Prop :=
  cmd <> "" /\ no_upper cmd = true.


(** The part of the world that only [exit] and the reader thread change. *)
Definition control (w : World) : bool * bool * WindowsInput.t :=
  (running w, never_delete_data w, input_handler w).

(** [w'] differs from [w] in the terminal and the I/O counter at most. *)
Definition only_printed (w w' : World) : Prop :=
  db w' = db w /\ files w' = files w /\ control w' = control w.

(** One turn of the loop of [_process_input], on the command [cmd]. *)
Definition turn (env : Env) (w : World) (cmd : string) : World :=
  print Prompt (caught (_execute_command env cmd (print (ExecCommand cmd) w))).

(** Neither the name nor the address of [s] has an uppercase letter. *)
Definition lowercase_server (s : server) : Prop :=
  no_upper (srv_name s) = true /\ no_upper (srv_ip s) = true.

(** From [w] to [w']: servers were registered under names and addresses
    without uppercase letters only, no server whose name has an uppercase
    letter was removed, and figures were saved for names without uppercase
    letters only. *)
Definition touched_lowercase_only (w w' : World) : Prop :=
  (forall s, In s (servers (db w')) ->
             In s (servers (db w)) \/ lowercase_server s) /\
  (forall s, In s (servers (db w)) -> no_upper (srv_name s) = false ->
             In s (servers (db w'))) /\
  (forall a, In a (files w') ->
             In a (files w) \/
             Forall (fun n => no_upper n = true) (art_legend a)).

(** The scheduled actions whose conditions hold in a pass. *)
Definition due (inp : TickInput) (s : Loop) : list action :=
  (if Qle_bool (inject_Z interval) (time_at_check inp - last_collect s)
   then [Poll] else []) ++
  (if report_due (now inp) then [DailyReport] else []) ++
  (if 7 <=? days_between (now inp) (last_clean s) then [Cleanup] else []) ++
  (if minute (now inp) =? 0 then [AnomalyCheck] else []).

(** The scheduled part of a pass, after [_process_input]. *)
Definition scheduled (env : Env) (inp : TickInput) (s : Loop) (w1 : World)
    : World :=
  let w2 := if Qle_bool (inject_Z interval) (time_at_check inp - last_collect s)
            then collect_data env w1 else w1 in
  let w3 := if report_due (now inp) then generate_report env 1 w2 else w2 in
  let w4 := if 7 <=? days_between (now inp) (last_clean s)
            then clean_old_data env w3 else w3 in
  if minute (now inp) =? 0 then detect_anomalies w4 else w4.

(** The message of [add_server] when the INSERT is refused or not reached. *)
Definition rejection (status : status_result) : msg :=
  match status with
  | StatusOk _ => AddDuplicate
  | StatusError err =>
      if contains "timed out" err then AddTimeout else AddFailed err
  end.

End Statements.

(* ====================================================================== *)
(** * Concrete stores and inputs *)
(* ====================================================================== *)

Module Examples.

Import PyStr DBAccess MCMonitor Scheduler.

(** A store with one server and two of its samples. *)
Definition orphan_db : database :=
  connect [mk_server 1 "lobby" "10.0.0.1"]
    [mk_stat 1 (Some 1) 12 1000; mk_stat 2 (Some 1) 15 1300] 1 2.

(** The monitor started on that store. *)
Definition orphan_world : World := init orphan_db false.

(** A status provider that refuses every connection, and one that answers
    with seven players; SQLite's clock starts at second 2000. *)
Definition env_down : Env :=
  mk_env (fun _ _ => StatusError "[WinError 10061] connection refused")
         (fun n => 2000 + Z.of_nat n) (fun _ _ => Saved).

Definition env_up : Env :=
  mk_env (fun _ _ => StatusOk 7) (fun n => 2000 + Z.of_nat n)
         (fun _ _ => Saved).

(** A store whose only sample, taken ten seconds ago, counts no player. *)
Definition idle_db : database :=
  connect [mk_server 1 "lobby" "10.0.0.1"] [mk_stat 1 (Some 1) 0 1990] 1 1.

(** 08:02:00.0 and 08:02:00.1 of day 3: two consecutive passes of the loop
    with nothing typed, ten seconds after the last collection. *)
Definition two_past_eight : Z :=
  3 * us_per_day + 8 * us_per_hour + 2 * us_per_minute.

Definition two_passes : list TickInput :=
  [mk_tick [] 1010 1010 two_past_eight;
   mk_tick [] (10101 # 10) (10101 # 10) (two_past_eight + 100000)].

(** A store whose server had ten players twice and has five now. *)
Definition steady_db : database :=
  connect [mk_server 1 "lobby" "10.0.0.1"]
    [mk_stat 1 (Some 1) 10 1000; mk_stat 2 (Some 1) 10 1300;
     mk_stat 3 (Some 1) 5 1600] 1 3.

(** A store whose server has no sample yet. *)
Definition fresh_db : database :=
  connect [mk_server 1 "lobby" "10.0.0.1"] [] 1 0.

(** A pass of the loop at 09:30 of day 3 before which [exit], Enter,
    [list] and Enter were typed. *)
Definition exit_pass : TickInput :=
  mk_tick (list_ascii_of_string "exit" ++ [WindowsInput.CR] ++
           list_ascii_of_string "list" ++ [WindowsInput.CR])
    1010 1010 (3 * us_per_day + 9 * us_per_hour + 30 * us_per_minute).

(** The loop as [run] enters it, at 09:29 of day 3. *)
Definition entered : Loop :=
  start 1000 (3 * us_per_day + 9 * us_per_hour + 29 * us_per_minute)
    (init idle_db false).

End Examples.

(* ====================================================================== *)
(** * The integrity of the store *)
(* ====================================================================== *)

Module Integrity.

Import PyStr DBAccess MCMonitor Statements.

(** [len(set(l)) == len(l)] for a list of integers. *)
Fixpoint distinct_ints (l : list Z) : bool :=
  match l with
  | [] => true
  | x :: r => negb (existsb (Z.eqb x) r) && distinct_ints r
  end.

(** An id that AUTOINCREMENT has handed out while the counter is [seq]. *)
Definition issued (seq i : Z) : bool := (1 <=? i) && (i <=? seq).

(** [server_id] is an id that was handed out to a server. *)
Definition refers_to_issued (seq : Z) (r : stat) : bool :=
  match stat_server_id r with
  | Some i => issued seq i
  | None => false
  end.

(** What holds of a file that only the program wrote: the two UNIQUE
    columns of [servers], the two primary keys, ids from 1 up to the
    counters of [sqlite_sequence], and samples taken for a server that was
    registered. *)
Definition consistent (d : database) : bool :=
  (0 <=? seq_servers d) && (0 <=? seq_stats d) &&
  distinct_strings (map srv_name (servers d)) &&
  distinct_strings (map srv_ip (servers d)) &&
  distinct_ints (map srv_id (servers d)) &&
  forallb (fun s => issued (seq_servers d) (srv_id s)) (servers d) &&
  distinct_ints (map stat_id (stats d)) &&
  forallb (fun r => issued (seq_stats d) (stat_id r)) (stats d) &&
  forallb (refers_to_issued (seq_servers d)) (stats d).

(** The samples taken for the server with id [i]:
    [SELECT * FROM stats WHERE server_id = ?]. *)
Definition samples_of (i : Z) (d : database) : list stat :=
  filter (fun r => match stat_server_id r with
                   | Some j => j =? i
                   | None => false
                   end) (stats d).

(** The same, as a proposition. *)
Definition Consistent (d : database) : Prop :=
  (0 <= seq_servers d /\ 0 <= seq_stats d) /\
  NoDup (map srv_name (servers d)) /\
  NoDup (map srv_ip (servers d)) /\
  NoDup (map srv_id (servers d)) /\
  Forall (fun s => 1 <= srv_id s <= seq_servers d) (servers d) /\
  NoDup (map stat_id (stats d)) /\
  Forall (fun r => 1 <= stat_id r <= seq_stats d) (stats d) /\
  Forall (fun r => exists i, stat_server_id r = Some i /\
                             1 <= i <= seq_servers d) (stats d).

End Integrity.

(* ====================================================================== *)
(** * What the terminal and the figures show *)
(* ====================================================================== *)

Module Display.

Import PyStr DBAccess MCMonitor Scheduler.

(** The line of [real_time_query] for one server. *)
Definition query_line (name : string) (status : status_result) : msg :=
  match status with
  | StatusOk online => NowOk name online
  | StatusError err =>
      if contains "timed out" err then NowTimeout name else NowFailed name err
  end.

(** The lines of [real_time_query] over [rows], started when the I/O
    counter is [n]: every server costs one reading of the provider. *)
Fixpoint query_lines (env : Env) (n : nat) (rows : list (string * string))
    : list msg :=
  match rows with
  | [] => []
  | (name, ip) :: rest =>
      query_line name (status_of env n ip) :: query_lines env (S n) rest
  end.

(** The block of [generate_report] for a server without a sample in the
    window. *)
Definition empty_block (server : string * string) : list msg :=
  [ReportServer (fst server) (snd server); ReportPeak NA; ReportAvg NA;
   ReportDays 0].

(** [plt.legend(legend_handles, server_names)]: the handles and the labels
    are paired in order, and what is left of the longer list is dropped. *)
Definition legend (a : artifact) : list (list (Z * Z) * string) :=
  combine (art_lines a) (art_legend a).

(** The rows that the queries of [plot_trend] return for [names], started
    when the I/O counter is [n]: every name costs one reading of the
    clock. *)
Fixpoint trend_rows (env : Env) (n : nat) (days : Z) (d : database)
    (names : list string) : list (list (Z * Z)) :=
  match names with
  | [] => []
  | name :: rest =>
      select_trend name (sql_now env n) days d ::
      trend_rows env (S n) days d rest
  end.

(** What [plot_trend] prints and writes after the figure is drawn, and
    the exception that leaves it, by what becomes of [plt.savefig]. *)
Definition saved_notice (saved : savefig_result) (filename : string)
    : list msg :=
  match saved with
  | Saved => [TrendSaved filename]
  | _ => []
  end.

Definition saved_figure (saved : savefig_result) (a : artifact)
    : list artifact :=
  match saved with
  | Saved => [a]
  | _ => []
  end.

Definition raised_by (saved : savefig_result) : option exn :=
  match saved with
  | Saved => None
  | SavefigValueError => Some ValueError
  | SavefigError err => Some (OtherError err)
  end.

(** [if not data] fails. *)
Definition has_data (rows : list (Z * Z)) : bool :=
  match rows with
  | [] => false
  | _ => true
  end.

(** The terminal of [w'] shows what the terminal of [w] shows, and then
    possibly more. *)
Definition printed_more (w w' : World) : Prop :=
  exists more, out w' = out w ++ more.

(** What [run] prints before it enters the loop. *)
Definition banner : list msg :=
  [Banner; BannerStorage db_name; BannerInterval interval; BannerHint; Prompt].

(** A key that is neither Enter nor Backspace. *)
Definition plain (c : ascii) : bool :=
  negb (Ascii.eqb c WindowsInput.CR) && negb (Ascii.eqb c WindowsInput.BS).

(** [sample] is older than thirty days at [now]. *)
Definition expired (now : Z) (r : stat) : bool :=
  before (datetime_now_minus_days now 30) r.

End Display.

(* ====================================================================== *)
(** * The loop of [_process_input], round by round *)
(* ====================================================================== *)

Module InputLoop.

Import PyStr DBAccess MCMonitor.

(** [while True: cmd = self.input_handler.get_cmd() ...] as it is written:
    every round takes a command off the queue of the handler, leaves the
    loop when there is none or when it is empty, and executes it
    otherwise.  [fuel] bounds the number of rounds; [None] tells that it
    did not suffice. *)
Fixpoint rounds (env : Env) (fuel : nat) (w : World) : option World :=
  match fuel with
  | O => None
  | S fuel' =>
      let '(cmd, i) := WindowsInput.get_cmd (input_handler w) in
      let w0 := set_input i w in
      match cmd with
      | None => Some w0
      | Some c =>
          if String.eqb c "" then Some w0
          else rounds env fuel'
                 (print Prompt
                    (caught (_execute_command env c (print (ExecCommand c) w0))))
      end
  end.

End InputLoop.

(* ====================================================================== *)
(** * More concrete stores and inputs *)
(* ====================================================================== *)

Module Cases.

Import PyStr DBAccess MCMonitor Scheduler Examples.

(** A store with two servers; only the second has samples. *)
Definition two_db : database :=
  connect [mk_server 1 "lobby" "10.0.0.1"; mk_server 2 "creative" "10.0.0.2"]
    [mk_stat 1 (Some 2) 3 1000; mk_stat 2 (Some 2) 4 1300] 2 2.

Definition two_world : World := init two_db false.

(** A store whose first sample is forty days older than the clock of
    [env_up], and whose second is recent. *)
Definition aged_db : database :=
  connect [mk_server 1 "lobby" "10.0.0.1"]
    [mk_stat 1 (Some 1) 12 (2000 - 40 * seconds_per_day);
     mk_stat 2 (Some 1) 15 1300] 1 2.

(** Three passes with nothing typed, at seconds 1300, 1400 and 1700 on the
    clock of [time.time()], at 09:30 of day 3. *)
Definition half_past_nine : Z :=
  3 * us_per_day + 9 * us_per_hour + 30 * us_per_minute.

Definition pass_at_1300 : TickInput := mk_tick [] 1300 1301 half_past_nine.
Definition pass_at_1400 : TickInput :=
  mk_tick [] 1400 1400 (half_past_nine + 100000).
Definition pass_at_1700 : TickInput :=
  mk_tick [] 1700 1702 (half_past_nine + 200000).

Definition three_passes : list TickInput :=
  [pass_at_1300; pass_at_1400; pass_at_1700].

(** Three passes with nothing typed, eight, nine and sixteen days after
    09:30 of day 3, ten seconds and more after the start. *)
Definition pass_on_day_8 : TickInput :=
  mk_tick [] 1010 1010 (half_past_nine + 8 * us_per_day).
Definition pass_on_day_9 : TickInput :=
  mk_tick [] 1020 1020 (half_past_nine + 9 * us_per_day).
Definition pass_on_day_16 : TickInput :=
  mk_tick [] 1030 1030 (half_past_nine + 16 * us_per_day).

Definition weekly_passes : list TickInput :=
  [pass_on_day_8; pass_on_day_9; pass_on_day_16].

(** A provider at which the address of the first server times out and every
    other address answers with seven players. *)
Definition env_mixed : Env :=
  mk_env (fun _ ip => if String.eqb ip "10.0.0.1"
                      then StatusError "timed out"
                      else StatusOk 7)
         (fun n => 2000 + Z.of_nat n) (fun _ _ => Saved).

(** A store whose server has a name with a slash, and one sample. *)
Definition slash_db : database :=
  connect [mk_server 1 "a/b" "10.0.0.9"] [mk_stat 1 (Some 1) 3 1900] 1 1.

(** A working directory without subdirectories: [plt.savefig] writes a
    file whose name has no slash, and raises [FileNotFoundError] for any
    other. *)
Definition no_directory : string := "[Errno 2] No such file or directory".

Definition env_no_directory : Env :=
  mk_env (fun _ _ => StatusOk 7) (fun n => 2000 + Z.of_nat n)
         (fun _ filename => if contains "/" filename
                            then SavefigError no_directory else Saved).

(** A provider whose answer is one more than the greatest 64-bit count. *)
Definition env_huge : Env :=
  mk_env (fun _ _ => StatusOk (2 ^ 63)) (fun n => 2000 + Z.of_nat n)
         (fun _ _ => Saved).

(** A pass, 400 seconds after the start, before which a server was added
    and another removed. *)
Definition busy_pass : TickInput :=
  mk_tick (list_ascii_of_string "add hub 10.0.0.5" ++ [WindowsInput.CR] ++
           list_ascii_of_string "remove lobby" ++ [WindowsInput.CR])
    1400 1401 (half_past_nine + 100000).

End Cases.

(* ====================================================================== *)
(** * Rounding to a float *)
(* ====================================================================== *)

Section Rounding.

Import Float64.

Local Open Scope Q_scope.

(** ** Rounding to an integer *)

Lemma inject_Z_succ (z : Z) : inject_Z (z + 1) == inject_Z z + 1.
Proof. now rewrite inject_Z_plus. Qed.

Lemma rne_cases (q : Q) :
  (q - inject_Z (Qfloor q) < 1 # 2 /\ rne q = Qfloor q) \/
  (1 # 2 < q - inject_Z (Qfloor q) /\ rne q = (Qfloor q + 1)%Z) \/
  (q - inject_Z (Qfloor q) == 1 # 2 /\
   rne q = if Z.even (Qfloor q) then Qfloor q else (Qfloor q + 1)%Z).
Proof.
  unfold rne.
  destruct (Qcompare (q - inject_Z (Qfloor q)) (1 # 2)) eqn:E.
  - right. right. split; [now apply Qeq_alt | reflexivity].
  - left. split; [now apply Qlt_alt | reflexivity].
  - right. left. split; [now apply Qgt_alt | reflexivity].
Qed.

Lemma rne_near (q : Q) :
  q - (1 # 2) <= inject_Z (rne q) /\ inject_Z (rne q) <= q + (1 # 2).
Proof.
  pose proof (Qfloor_le q) as Hl. pose proof (Qlt_floor q) as Hu.
  rewrite inject_Z_succ in Hu.
  destruct (rne_cases q) as [[H ->]|[[H ->]|[H ->]]].
  - split; lra.
  - rewrite inject_Z_succ. split; lra.
  - destruct (Z.even (Qfloor q)); rewrite ?inject_Z_succ; split; lra.
Qed.

Lemma rne_mono (x y : Q) : x <= y -> (rne x <= rne y)%Z.
Proof.
  intros Hxy.
  pose proof (Qfloor_resp_le x y Hxy) as Hf.
  pose proof (Qfloor_le x) as Hlx. pose proof (Qlt_floor x) as Hux.
  pose proof (Qfloor_le y) as Hly. pose proof (Qlt_floor y) as Huy.
  rewrite inject_Z_succ in Hux, Huy.
  destruct (Z.eq_dec (Qfloor x) (Qfloor y)) as [E|N].
  - destruct (rne_cases x) as [[Hx ->]|[[Hx ->]|[Hx ->]]];
      destruct (rne_cases y) as [[Hy ->]|[[Hy ->]|[Hy ->]]];
      rewrite <- ?E in *; try lia;
      try (exfalso; lra);
      destruct (Z.even (Qfloor x)); try lia; exfalso; lra.
  - assert (H : (Qfloor x + 1 <= Qfloor y)%Z) by lia.
    assert (Hrx : (rne x <= Qfloor x + 1)%Z).
    { destruct (rne_cases x) as [[_ ->]|[[_ ->]|[_ ->]]];
        [lia | lia | destruct (Z.even _); lia]. }
    assert (Hry : (Qfloor y <= rne y)%Z).
    { destruct (rne_cases y) as [[_ ->]|[[_ ->]|[_ ->]]];
        [lia | lia | destruct (Z.even _); lia]. }
    lia.
Qed.

Lemma rne_exact (q : Q) (z : Z) : q == inject_Z z -> rne q = z.
Proof.
  intros E.
  assert (Hf : Qfloor q = z) by (rewrite E; apply Qfloor_Z).
  destruct (rne_cases q) as [[H ->]|[[H ->]|[H ->]]]; rewrite Hf in *;
    [reflexivity | exfalso; lra | exfalso; lra].
Qed.

(** ** Powers of two *)

Lemma pow2_pos (e : Z) : 0 < 2 ^ e.
Proof. now apply Qpower_0_lt. Qed.

Lemma pow2_plus (a b : Z) : 2 ^ (a + b) == 2 ^ a * 2 ^ b.
Proof. apply Qpower_plus. discriminate. Qed.

Lemma pow2_succ (e : Z) : 2 ^ (e + 1) == 2 * 2 ^ e.
Proof. rewrite pow2_plus. change (2 ^ 1) with 2. apply Qmult_comm. Qed.

Lemma pow2_le (a b : Z) : (a <= b)%Z -> 2 ^ a <= 2 ^ b.
Proof. intros H. apply Qpower_le_compat_l; [exact H | discriminate]. Qed.

Lemma pow2_inject (n : Z) : (0 <= n)%Z -> inject_Z (2 ^ n) == 2 ^ n.
Proof. intros H. now rewrite Zpower_Qpower. Qed.

(** A positive integer between two powers of two. *)
Lemma log2_bounds (n : Z) :
  (0 < n)%Z ->
  2 ^ Z.log2 n <= inject_Z n /\ inject_Z n < 2 * 2 ^ Z.log2 n.
Proof.
  intros Hn. destruct (Z.log2_spec n Hn) as [Hl Hu].
  pose proof (Z.log2_nonneg n) as H0.
  rewrite <- pow2_succ, <- !pow2_inject by lia.
  rewrite <- Zle_Qle, <- Zlt_Qlt. replace (Z.log2 n + 1)%Z with (Z.succ (Z.log2 n)) by lia.
  now split.
Qed.

Lemma exponent_spec (q : Q) :
  0 < q ->
  2 ^ 52 * 2 ^ exponent q <= q /\ q < 2 ^ 53 * 2 ^ exponent q.
Proof.
  intros Hq. unfold exponent.
  set (n := Qnum q). set (d := Zpos (Qden q)).
  set (e := (Z.log2 n - Z.log2 d - 53)%Z).
  assert (Hn : (0 < n)%Z) by (destruct q as [a b]; unfold Qlt in Hq; simpl in *; lia).
  assert (Hd : (0 < d)%Z) by reflexivity.
  destruct (log2_bounds n Hn) as [Hnl Hnu].
  destruct (log2_bounds d Hd) as [Hdl Hdu].
  assert (Eq : q * inject_Z d == inject_Z n).
  { unfold n, d, Qeq. destruct q as [a b]. simpl. lia. }
  pose proof (pow2_pos (Z.log2 n)) as Pn. pose proof (pow2_pos (Z.log2 d)) as Pd.
  pose proof (pow2_pos e) as Pe.
  assert (Ee : 2 ^ Z.log2 n == 2 ^ 53 * 2 ^ e * 2 ^ Z.log2 d).
  { rewrite <- !pow2_plus. replace (53 + e + Z.log2 d)%Z with (Z.log2 n) by (unfold e; lia).
    reflexivity. }
  assert (Hid : 0 < inject_Z d) by (unfold Qlt; simpl; lia).
  (* [2^52 * 2^e < q < 2^54 * 2^e] *)
  assert (Hlo : 2 ^ 52 * 2 ^ e < q).
  { apply Qmult_lt_r with (inject_Z d); [exact Hid|]. rewrite Eq.
    apply Qlt_le_trans with (2 ^ 52 * 2 ^ e * (2 * 2 ^ Z.log2 d)).
    - apply Qmult_lt_l; [|exact Hdu].
      apply Qmult_lt_0_compat; [apply pow2_pos | exact Pe].
    - apply Qle_trans with (2 ^ Z.log2 n); [|exact Hnl].
      rewrite Ee. change (2 ^ 53) with (2 * 2 ^ 52).
      apply Qle_lteq. right. ring. }
  assert (Hhi : q < 2 * 2 ^ 53 * 2 ^ e).
  { apply Qmult_lt_r with (inject_Z d); [exact Hid|]. rewrite Eq.
    apply Qlt_le_trans with (2 * 2 ^ Z.log2 n); [exact Hnu|].
    rewrite Ee.
    setoid_replace (2 * (2 ^ 53 * 2 ^ e * 2 ^ Z.log2 d))
      with (2 * 2 ^ 53 * 2 ^ e * 2 ^ Z.log2 d) by ring.
    apply Qmult_le_l; [|exact Hdl].
    repeat apply Qmult_lt_0_compat; try apply pow2_pos; reflexivity. }
  destruct (Qle_bool (2 ^ 53) (q / 2 ^ e)) eqn:E.
  - apply Qle_bool_iff in E.
    assert (H53 : 2 ^ 53 * 2 ^ e <= q).
    { apply Qmult_le_r with (/ 2 ^ e); [now apply Qinv_lt_0_compat|].
      setoid_replace (2 ^ 53 * 2 ^ e * / 2 ^ e) with (2 ^ 53)
        by (field; apply Qpower_not_0; discriminate).
      exact E. }
    rewrite pow2_succ. change (2 ^ 53) with (2 * 2 ^ 52) in H53 |- *.
    split; [lra|]. change (2 * 2 ^ 52) with (2 ^ 53). lra.
  - assert (H53 : q < 2 ^ 53 * 2 ^ e).
    { apply Qnot_le_lt. intros H. 
      assert (E' : Qle_bool (2 ^ 53) (q / 2 ^ e) = true).
      { apply Qle_bool_iff. apply Qle_shift_div_l; assumption. }
      congruence. }
    split; [now apply Qlt_le_weak | exact H53].
Qed.

Lemma scaled_spec (q : Q) :
  0 < q -> 2 ^ 52 <= q / 2 ^ exponent q /\ q / 2 ^ exponent q < 2 ^ 53.
Proof.
  intros Hq. destruct (exponent_spec q Hq) as [Hl Hu].
  pose proof (pow2_pos (exponent q)) as P. split.
  - now apply Qle_shift_div_l.
  - now apply Qlt_shift_div_r.
Qed.

Lemma exponent_mono (x y : Q) :
  0 < x -> x <= y -> (exponent x <= exponent y)%Z.
Proof.
  intros Hx Hxy. assert (Hy : 0 < y) by lra.
  destruct (exponent_spec x Hx) as [Hlx _].
  destruct (exponent_spec y Hy) as [_ Huy].
  destruct (Z_le_gt_dec (exponent x) (exponent y)) as [H|H]; [exact H|].
  exfalso.
  pose proof (pow2_le (exponent y + 1) (exponent x) ltac:(lia)) as Hp.
  rewrite pow2_succ in Hp.
  change (2 ^ 53) with (2 * 2 ^ 52) in Huy.
  pose proof (pow2_pos (exponent y)) as Py.
  assert (H1 : 2 ^ 52 * (2 * 2 ^ exponent y) <= 2 ^ 52 * 2 ^ exponent x).
  { apply Qmult_le_l; [apply pow2_pos | exact Hp]. }
  lra.
Qed.

Lemma round_pos_bounds (q : Q) :
  0 < q ->
  2 ^ 52 * 2 ^ exponent q <= round_pos q /\
  round_pos q <= 2 ^ 53 * 2 ^ exponent q.
Proof.
  intros Hq. destruct (scaled_spec q Hq) as [Hl Hu]. unfold round_pos.
  pose proof (pow2_pos (exponent q)) as P.
  assert (H52 : (2 ^ 52 <= rne (q / 2 ^ exponent q))%Z).
  { rewrite <- (rne_exact (2 ^ 52) (2 ^ 52)%Z eq_refl). now apply rne_mono. }
  assert (H53 : (rne (q / 2 ^ exponent q) <= 2 ^ 53)%Z).
  { rewrite <- (rne_exact (2 ^ 53) (2 ^ 53)%Z eq_refl).
    apply rne_mono. now apply Qlt_le_weak. }
  split; (apply Qmult_le_r; [exact P|]).
  - rewrite <- (pow2_inject 52) by lia. now rewrite <- Zle_Qle.
  - rewrite <- (pow2_inject 53) by lia. now rewrite <- Zle_Qle.
Qed.

Lemma round_pos_pos (q : Q) : 0 < q -> 0 < round_pos q.
Proof.
  intros Hq. destruct (round_pos_bounds q Hq) as [H _].
  apply Qlt_le_trans with (2 ^ 52 * 2 ^ exponent q); [|exact H].
  apply Qmult_lt_0_compat; apply pow2_pos.
Qed.

Lemma round_pos_mono (x y : Q) :
  0 < x -> x <= y -> round_pos x <= round_pos y.
Proof.
  intros Hx Hxy. assert (Hy : 0 < y) by lra.
  pose proof (exponent_mono x y Hx Hxy) as He.
  destruct (Z.eq_dec (exponent x) (exponent y)) as [E|N].
  - unfold round_pos. rewrite E.
    apply Qmult_le_r; [apply pow2_pos|].
    rewrite <- Zle_Qle. apply rne_mono.
    apply Qmult_le_r; [apply Qinv_lt_0_compat, pow2_pos | exact Hxy].
  - destruct (round_pos_bounds x Hx) as [_ Hux].
    destruct (round_pos_bounds y Hy) as [Hly _].
    pose proof (pow2_le (exponent x + 1) (exponent y) ltac:(lia)) as Hp.
    rewrite pow2_succ in Hp.
    change (2 ^ 53) with (2 * 2 ^ 52) in Hux.
    assert (H1 : 2 ^ 52 * (2 * 2 ^ exponent x) <= 2 ^ 52 * 2 ^ exponent y).
    { apply Qmult_le_l; [apply pow2_pos | exact Hp]. }
    lra.
Qed.


(** ** [round] *)

Lemma round_comp (x y : Q) : x == y -> round x = round y.
Proof. intros E. unfold round. now rewrite (Qred_complete x y E). Qed.

Lemma Qnum_sign (q : Q) :
  match Qnum q with
  | Z0 => q == 0
  | Zpos _ => 0 < q
  | Zneg _ => q < 0
  end.
Proof. destruct q as [[|p|p] d]; unfold Qeq, Qlt; simpl; lia. Qed.

(** [round] by the sign of its argument. *)
Lemma round_cases (q : Q) :
  (q == 0 /\ round q = 0) \/
  (0 < q /\ round q == round_pos (Qred q)) \/
  (q < 0 /\ round q == - round_pos (- Qred q)).
Proof.
  unfold round. pose proof (Qnum_sign (Qred q)) as H.
  pose proof (Qred_correct q) as E.
  destruct (Qnum (Qred q)).
  - left. split; [now rewrite <- E | reflexivity].
  - right. left. split; [now rewrite <- E | apply Qred_correct].
  - right. right. split; [now rewrite <- E | apply Qred_correct].
Qed.

Lemma round_zero (q : Q) : q == 0 -> round q = 0.
Proof. intros E. now rewrite (round_comp q 0 E). Qed.

Lemma round_pos_of (q : Q) : 0 < q -> round q == round_pos (Qred q).
Proof.
  intros H. destruct (round_cases q) as [[E _]|[[_ E]|[E _]]];
    [exfalso; lra | exact E | exfalso; lra].
Qed.

Lemma round_neg_of (q : Q) : q < 0 -> round q == - round_pos (- Qred q).
Proof.
  intros H. destruct (round_cases q) as [[E _]|[[E _]|[_ E]]];
    [exfalso; lra | exfalso; lra | exact E].
Qed.

Lemma round_positive (q : Q) : 0 < q -> 0 < round q.
Proof.
  intros H. rewrite (round_pos_of q H). apply round_pos_pos.
  now rewrite Qred_correct.
Qed.

Lemma round_negative (q : Q) : q < 0 -> round q < 0.
Proof.
  intros H. rewrite (round_neg_of q H).
  assert (P : 0 < round_pos (- Qred q)).
  { apply round_pos_pos. rewrite Qred_correct. lra. }
  lra.
Qed.

(** Rounding keeps the order. *)
Lemma round_mono (x y : Q) : x <= y -> round x <= round y.
Proof.
  intros Hxy.
  destruct (round_cases x) as [[Hx Ex]|[[Hx Ex]|[Hx Ex]]];
    destruct (round_cases y) as [[Hy Ey]|[[Hy Ey]|[Hy Ey]]];
    try (exfalso; lra).
  - rewrite Ex, Ey. apply Qle_refl.
  - rewrite Ex. apply Qlt_le_weak. now apply round_positive.
  - rewrite Ex, Ey. apply round_pos_mono; rewrite ?Qred_correct; assumption.
  - rewrite Ey. apply Qlt_le_weak. now apply round_negative.
  - apply Qle_trans with 0; apply Qlt_le_weak;
      [now apply round_negative | now apply round_positive].
  - rewrite Ex, Ey. apply Qopp_le_compat.
    apply round_pos_mono; rewrite ?Qred_correct; lra.
Qed.

Lemma round_nonneg (q : Q) : 0 <= q -> 0 <= round q.
Proof. intros H. change 0 with (round 0). now apply round_mono. Qed.

(** An integer of 53 bits at most is a float. *)
Lemma round_pos_int (z : Z) :
  (0 < z < 2 ^ 53)%Z -> round_pos (inject_Z z) == inject_Z z.
Proof.
  intros Hz.
  assert (Hq : 0 < inject_Z z) by (unfold Qlt; simpl; lia).
  destruct (exponent_spec (inject_Z z) Hq) as [Hl Hu].
  set (e := exponent (inject_Z z)) in *.
  assert (He : (e <= 0)%Z).
  { destruct (Z_le_gt_dec e 0) as [H|H]; [exact H|]. exfalso.
    pose proof (pow2_le 1 e ltac:(lia)) as Hp. change (2 ^ 1) with 2 in Hp.
    assert (H53 : inject_Z z < 2 ^ 53).
    { rewrite <- (pow2_inject 53) by lia. rewrite <- Zlt_Qlt. lia. }
    assert (H1 : 2 ^ 52 * 2 <= 2 ^ 52 * 2 ^ e).
    { apply Qmult_le_l; [apply pow2_pos | exact Hp]. }
    change (2 ^ 53) with (2 ^ 52 * 2) in H53. lra. }
  unfold round_pos. fold e.
  assert (Es : inject_Z z / 2 ^ e == inject_Z (z * 2 ^ (- e))).
  { rewrite inject_Z_mult, pow2_inject by lia. rewrite Qpower_opp.
    field. apply Qpower_not_0. discriminate. }
  rewrite (rne_exact _ _ Es), inject_Z_mult, pow2_inject by lia.
  rewrite Qpower_opp. field. apply Qpower_not_0. discriminate.
Qed.

Lemma Qred_inject_Z (z : Z) : Qred (inject_Z z) = inject_Z z.
Proof. apply Qcanon.Qred_identity. simpl. apply Z.gcd_1_r. Qed.

(** A float is a fraction in lowest terms. *)
Lemma round_canonical (q : Q) : Qred (round q) = round q.
Proof.
  unfold round. destruct (Qnum (Qred q));
    [reflexivity | apply Qcanon.Qred_involutive | apply Qcanon.Qred_involutive].
Qed.

Lemma round_int (z : Z) :
  (0 <= z < 2 ^ 53)%Z -> round (inject_Z z) = inject_Z z.
Proof.
  intros Hz. destruct (Z.eq_dec z 0) as [->|N]; [reflexivity|].
  assert (Hq : 0 < inject_Z z) by (unfold Qlt; simpl; lia).
  transitivity (Qred (inject_Z z)); [|apply Qred_inject_Z].
  rewrite <- round_canonical. apply Qred_complete.
  rewrite (round_pos_of _ Hq), Qred_inject_Z.
  apply round_pos_int. lia.
Qed.

(** Rounding moves a positive number by half a unit of its last bit at
    most, which is [2^-53] of the number. *)
Lemma round_near (q : Q) :
  0 < q ->
  q - q * (1 # 2 ^ 53) <= round q /\ round q <= q + q * (1 # 2 ^ 53).
Proof.
  intros Hq. rewrite (round_pos_of q Hq).
  assert (Hr : 0 < Qred q) by now rewrite Qred_correct.
  pose proof (Qred_correct q) as Er.
  set (r := Qred q) in *. clearbody r.
  destruct (exponent_spec r Hr) as [Hl _].
  destruct (rne_near (r / 2 ^ exponent r)) as [Hn1 Hn2].
  unfold round_pos.
  set (P := 2 ^ exponent r) in *.
  set (R := inject_Z (rne (r / P))) in *.
  assert (HP : 0 < P) by apply pow2_pos.
  assert (Et : r / P * P == r) by (field; apply Qpower_not_0; discriminate).
  assert (H1 : (r / P - (1 # 2)) * P <= R * P) by now apply Qmult_le_r.
  assert (H2 : R * P <= (r / P + (1 # 2)) * P) by now apply Qmult_le_r.
  setoid_replace ((r / P - (1 # 2)) * P) with (r / P * P - (1 # 2) * P) in H1 by ring.
  setoid_replace ((r / P + (1 # 2)) * P) with (r / P * P + (1 # 2) * P) in H2 by ring.
  rewrite Et in H1, H2.
  change (2 ^ 52) with (4503599627370496 # 1) in Hl.
  change (1 # 2 ^ 53) with (1 # 9007199254740992).
  split; lra.
Qed.

End Rounding.

(* ====================================================================== *)
(** * The average of SQLite *)
(* ====================================================================== *)

Section Average.

Import Float64 Statistics DBAccess.

Local Open Scope Q_scope.

Lemma sumZ_nonneg (l : list Z) : Forall (fun x => 0 <= x)%Z l -> (0 <= sumZ l)%Z.
Proof. induction 1; simpl; lia. Qed.

Lemma sql_avg_eq (l : list Z) :
  l <> [] ->
  sql_avg l =
  Some (round (running_sum l 0 / round (inject_Z (Z.of_nat (List.length l))))).
Proof. destruct l; [congruence | reflexivity]. Qed.

Lemma inject_Z_nonneg (z : Z) : (0 <= z)%Z -> 0 <= inject_Z z.
Proof. intros H. unfold Qle. cbn [Qnum Qden inject_Z]. lia. Qed.

Lemma inject_Z_pos (z : Z) : (0 < z)%Z -> 0 < inject_Z z.
Proof. intros H. unfold Qlt. cbn [Qnum Qden inject_Z]. lia. Qed.

(** Over counts that are not negative the sum does not decrease, and a
    positive count makes it positive. *)
Lemma running_sum_nonneg (l : list Z) :
  Forall (fun x => 0 <= x)%Z l ->
  forall s, 0 <= s ->
    0 <= running_sum l s /\
    (0 < s \/ Exists (fun x => 0 < x)%Z l -> 0 < running_sum l s).
Proof.
  induction 1 as [|x l Hx _ IH]; intros s Hs.
  - simpl. split; [exact Hs|]. intros [H|H]; [exact H | inversion H].
  - cbn [running_sum fold_left]. fold (running_sum l (round (s + round (inject_Z x)))).
    assert (Hrx : 0 <= round (inject_Z x)) by (apply round_nonneg, inject_Z_nonneg, Hx).
    assert (H1 : 0 <= round (s + round (inject_Z x))) by (apply round_nonneg; lra).
    destruct (IH _ H1) as [Hn Hp]. split; [exact Hn|].
    intros Hpos. apply Hp.
    destruct (Qlt_le_dec 0 (round (s + round (inject_Z x)))) as [H|H];
      [now left|]. right.
    destruct Hpos as [Hs'|Hex].
    + exfalso. assert (0 < round (s + round (inject_Z x)))
        by (apply round_positive; lra). lra.
    + inversion Hex as [? ? Hx'|? ? Hl]; subst; [|exact Hl].
      exfalso. assert (0 < round (inject_Z x))
        by (apply round_positive, inject_Z_pos, Hx').
      assert (0 < round (s + round (inject_Z x)))
        by (apply round_positive; lra). lra.
Qed.

(** While it stays below [2^53] the sum is exact. *)
Lemma running_sum_exact (l : list Z) :
  Forall (fun x => 0 <= x)%Z l ->
  forall a, (0 <= a)%Z -> (a + sumZ l < 2 ^ 53)%Z ->
    running_sum l (inject_Z a) = inject_Z (a + sumZ l).
Proof.
  induction 1 as [|x l Hx Hl IH]; intros a Ha Hsum.
  - simpl. now rewrite Z.add_0_r.
  - cbn [running_sum fold_left sumZ fold_right] in *.
    fold (sumZ l) in *. fold (running_sum l (round (inject_Z a + round (inject_Z x)))).
    pose proof (sumZ_nonneg l Hl) as Hs.
    rewrite (round_int x) by lia.
    rewrite (round_comp (inject_Z a + inject_Z x) (inject_Z (a + x)))
      by (now rewrite inject_Z_plus).
    rewrite (round_int (a + x)) by lia.
    rewrite (IH (a + x)%Z) by lia. f_equal. lia.
Qed.

(** [AVG] over counts that are all zero is zero. *)
Lemma running_sum_zero (l : list Z) :
  Forall (fun x => x = 0%Z) l -> running_sum l 0 = 0.
Proof.
  induction 1 as [|x l -> _ IH]; [reflexivity|].
  cbn [running_sum fold_left]. exact IH.
Qed.

Lemma sql_avg_zero (l : list Z) :
  l <> [] -> Forall (fun x => x = 0%Z) l -> sql_avg l = Some 0.
Proof.
  intros Hne Hz. rewrite (sql_avg_eq l Hne), (running_sum_zero l Hz).
  now rewrite (round_zero (0 / _) (Qmult_0_l _)).
Qed.

(** [AVG] over counts that are not negative, one of which is positive: the
    average is positive; and when their sum and their number are below
    [2^53], it is the float nearest to the exact average, which it misses
    by [2^-53] of it at most. *)
Lemma sql_avg_positive (l : list Z) :
  Forall (fun x => 0 <= x)%Z l -> Exists (fun x => 0 < x)%Z l ->
  exists avg,
    sql_avg l = Some avg /\ 0 < avg /\
    let exact := inject_Z (sumZ l) / inject_Z (Z.of_nat (List.length l)) in
    ((sumZ l < 2 ^ 53)%Z -> (Z.of_nat (List.length l) < 2 ^ 53)%Z ->
     avg = round exact /\
     exact - exact * (1 # 2 ^ 53) <= avg <= exact + exact * (1 # 2 ^ 53)).
Proof.
  intros Hall Hex.
  assert (Hne : l <> []) by (intros ->; inversion Hex).
  assert (Hn : (0 < Z.of_nat (List.length l))%Z)
    by (destruct l; [congruence | simpl List.length; lia]).
  destruct (running_sum_nonneg l Hall 0 (Qle_refl 0)) as [_ Hp].
  specialize (Hp (or_intror Hex)).
  assert (Hrn : 0 < round (inject_Z (Z.of_nat (List.length l))))
    by (apply round_positive, inject_Z_pos, Hn).
  eexists. split; [apply (sql_avg_eq l Hne)|]. split.
  - apply round_positive. apply Qlt_shift_div_l; [exact Hrn|]. lra.
  - cbv zeta. intros Hs Hlen.
    pose proof (running_sum_exact l Hall 0%Z (Z.le_refl 0) Hs) as Er.
    change (inject_Z 0) with 0 in Er. rewrite Er, Z.add_0_l.
    rewrite (round_int (Z.of_nat (List.length l))) by lia.
    split; [reflexivity|].
    apply round_near. apply Qlt_shift_div_l; [now apply inject_Z_pos|].
    rewrite Qmult_0_l. apply inject_Z_pos.
    clear - Hall Hex. induction Hex as [x l Hx|x l Hex IH];
      inversion Hall as [|? ? H0 Hl]; subst; simpl.
    + pose proof (sumZ_nonneg l Hl). lia.
    + specialize (IH Hl). lia.
Qed.

End Average.

(* ====================================================================== *)
(** * The anomaly detector *)
(* ====================================================================== *)

Section AnomalyDetector.

Import Float64 Statistics MCMonitor.

Lemma Qltb_lt (x y : Q) : Qltb x y = true <-> (x < y)%Q.
Proof.
  unfold Qltb. rewrite negb_true_iff.
  split; intro H.
  - apply Qnot_le_lt. intro Hle. apply Qle_bool_iff in Hle. congruence.
  - destruct (Qle_bool y x) eqn:E; [|reflexivity].
    apply Qle_bool_iff in E. exfalso. exact (Qlt_not_le _ _ H E).
Qed.

Lemma mean_defined (data : list Z) :
  data <> [] -> exists m, mean data = Some m.
Proof. destruct data; [congruence|]. intros _. eexists. reflexivity. Qed.

(** [mean] of data that are not empty. *)
Lemma mean_eq (data : list Z) :
  data <> [] ->
  mean data =
  Some (if sumZ data mod Z.of_nat (List.length data) =? 0
        then Int (sumZ data / Z.of_nat (List.length data))
        else Float (round (inject_Z (sumZ data) /
                           inject_Z (Z.of_nat (List.length data))))).
Proof. destruct data; [congruence | reflexivity]. Qed.

(** The mean of counts that are not negative is not negative, and neither
    is the float it is converted to. *)
Lemma mean_nonneg (l : list Z) (m : num) :
  Forall (fun x => 0 <= x)%Z l -> mean l = Some m ->
  (0 <= value m)%Q /\ (0 <= to_float m)%Q.
Proof.
  intros Hl Hm.
  assert (Hne : l <> []) by (intros ->; discriminate).
  rewrite (mean_eq l Hne) in Hm.
  pose proof (sumZ_nonneg _ Hl) as Hs.
  assert (Hn : 0 < Z.of_nat (List.length l))
    by (destruct l; [congruence | simpl List.length; lia]).
  set (n := Z.of_nat (List.length l)) in *. clearbody n.
  set (t := sumZ l) in *. clearbody t.
  assert (Hq : (0 <= inject_Z t / inject_Z n)%Q).
  { apply Qle_shift_div_l; [unfold Qlt; cbn [Qnum Qden inject_Z]; lia|].
    rewrite Qmult_0_l. unfold Qle. cbn [Qnum Qden inject_Z]. lia. }
  assert (Hd : 0 <= t / n) by (apply Z.div_pos; lia).
  assert (Hi : (0 <= inject_Z (t / n))%Q).
  { unfold Qle. cbn [Qnum Qden inject_Z]. rewrite !Z.mul_1_r. exact Hd. }
  destruct (t mod n =? 0); injection Hm as <-; cbn [value to_float];
    split; try assumption; now apply round_nonneg.
Qed.

Lemma rto_nonneg (n m : Z) : 0 <= _integer_sqrt_of_frac_rto n m.
Proof.
  unfold _integer_sqrt_of_frac_rto. apply Z.lor_nonneg. split.
  - apply Z.sqrt_nonneg.
  - destruct (_ =? _); lia.
Qed.

Lemma float_sqrt_nonneg (n m : Z) : (0 <= _float_sqrt_of_frac n m)%Q.
Proof.
  unfold _float_sqrt_of_frac.
  destruct (0 <=? (bit_length n - bit_length m - 109) / 2) eqn:E;
    apply round_nonneg.
  - apply Z.leb_le in E. unfold Qle. simpl. rewrite Z.mul_1_r.
    apply Z.shiftl_nonneg, rto_nonneg.
  - apply Z.leb_gt in E.
    apply Qle_shift_div_l.
    + unfold Qlt. simpl. rewrite Z.mul_1_r.
      rewrite Z.shiftl_1_l. apply Z.pow_pos_nonneg; lia.
    + rewrite Qmult_0_l. unfold Qle. simpl. rewrite Z.mul_1_r. apply rto_nonneg.
Qed.

(** [stdev] of two data points or more. *)
Lemma stdev_eq (data : list Z) :
  (2 <= List.length data)%nat ->
  stdev data =
  let n := Z.of_nat (List.length data) in
  let p := n * sumZ (map (fun x => x * x) data) - sumZ data * sumZ data in
  let q := n * (n - 1) in
  Some (Float (_float_sqrt_of_frac (p / Z.gcd p q) (q / Z.gcd p q))).
Proof.
  destruct data as [|x [|y r]]; intros Hlen;
    [simpl in Hlen; lia | simpl in Hlen; lia | reflexivity].
Qed.

(** The standard deviation of two data points or more is a float that is
    not negative. *)
Lemma stdev_defined (data : list Z) :
  (2 <= List.length data)%nat ->
  exists s, stdev data = Some (Float s) /\ (0 <= s)%Q.
Proof.
  intros Hlen. rewrite (stdev_eq data Hlen). cbv zeta.
  eexists. split; [reflexivity|]. apply float_sqrt_nonneg.
Qed.

(** The root of zero is zero. *)
Lemma float_sqrt_zero (m : Z) : 0 < m -> _float_sqrt_of_frac 0 m = 0%Q.
Proof.
  intros Hm. unfold _float_sqrt_of_frac.
  assert (Hb : 0 < bit_length m).
  { unfold bit_length. replace (m =? 0) with false by (symmetry; apply Z.eqb_neq; lia).
    pose proof (Z.log2_nonneg (Z.abs m)). lia. }
  change (bit_length 0) with 0.
  assert (Hq : (0 - bit_length m - 109) / 2 < 0)
    by (apply Z.div_lt_upper_bound; lia).
  replace (0 <=? (0 - bit_length m - 109) / 2) with false
    by (symmetry; apply Z.leb_gt; exact Hq).
  apply round_zero.
  unfold _integer_sqrt_of_frac_rto. rewrite Z.shiftl_0_l, Z.div_0_l by lia.
  reflexivity.
Qed.

Lemma sumZ_repeat (c : Z) (n : nat) : sumZ (repeat c n) = Z.of_nat n * c.
Proof. induction n as [|n IH]; [reflexivity|]. cbn [repeat sumZ fold_right] in *. fold (sumZ (repeat c n)). lia. Qed.

(** The statistics of a baseline whose counts are all [c]. *)
Lemma mean_repeat (c : Z) (n : nat) :
  (0 < n)%nat -> mean (repeat c n) = Some (Int c).
Proof.
  intros Hn. rewrite mean_eq by (destruct n; [lia | discriminate]).
  rewrite repeat_length, sumZ_repeat.
  rewrite Z.mul_comm, Z.mod_mul, Z.div_mul by lia. reflexivity.
Qed.

Lemma stdev_repeat (c : Z) (n : nat) :
  (2 <= n)%nat -> stdev (repeat c n) = Some (Float 0).
Proof.
  intros Hn. rewrite stdev_eq by now rewrite repeat_length. cbv zeta.
  rewrite map_repeat, repeat_length, !sumZ_repeat.
  set (k := Z.of_nat n).
  assert (Hk : 2 <= k) by (unfold k; lia).
  replace (k * (k * (c * c)) - k * c * (k * c)) with 0 by ring.
  rewrite Z.gcd_0_l, Z.abs_eq, Z.div_0_l, Z.div_same by nia.
  now rewrite float_sqrt_zero.
Qed.

(** The decisions of [check_samples] once the statistics are known. *)
Lemma check_samples_eq (current : Z) (baseline : list Z) (avg std : num) :
  (2 <= List.length baseline)%nat ->
  mean baseline = Some avg -> stdev baseline = Some std ->
  check_samples (current :: baseline) =
  if ltb (if eqb std (Int 0) then mul avg (Float (3 # 2))
          else add avg (mul (Int 2) std)) (Int current)
  then Some Spike
  else if ltb (Int current) (sub avg (mul (Int 2) std)) then Some Drop
       else Some Normal.
Proof.
  intros Hlen Hm Hv. unfold check_samples.
  replace (List.length (current :: baseline) <? 3)%nat with false
    by (symmetry; apply Nat.ltb_ge; simpl; lia).
  replace (2 <? List.length (current :: baseline))%nat with true
    by (symmetry; apply Nat.ltb_lt; simpl; lia).
  rewrite Hm, Hv. reflexivity.
Qed.

(** The low threshold is not above the high one when no count of the
    baseline is negative. *)
Lemma low_below_high (avg : num) (s : Q) :
  (0 <= to_float avg)%Q -> (0 <= s)%Q ->
  (value (sub avg (mul (Int 2) (Float s))) <=
   value (if eqb (Float s) (Int 0) then mul avg (Float (3 # 2))
          else add avg (mul (Int 2) (Float s))))%Q.
Proof.
  intros Ha Hs.
  assert (H2 : (0 <= round (to_float (Int 2) * s))%Q).
  { apply round_nonneg. change (to_float (Int 2)) with 2%Q. lra. }
  destruct (eqb (Float s) (Int 0)) eqn:E.
  - unfold eqb in E. apply Qeq_bool_iff in E. cbn [value] in E.
    assert (Ez : round (to_float (Int 2) * s) = 0%Q)
      by (apply round_zero; rewrite E; ring).
    destruct avg as [a|f]; cbn [sub mul add value to_float] in *;
      rewrite Ez; apply round_mono; lra.
  - destruct avg as [a|f]; cbn [sub mul add value to_float] in *;
      apply round_mono; lra.
Qed.

(** C1, as amended.  For the newest count [current] and a baseline of at
    least two older counts, with [avg] the mean and [std] the standard
    deviation of the baseline as [statistics] returns them, and every
    product, sum, difference and comparison as Python evaluates it: a spike
    is flagged exactly when [current > avg * 1.5] if [std == 0], and exactly
    when [current > avg + 2 * std] otherwise; a drop is flagged exactly when
    no spike is and [current < avg - 2 * std], in either branch; for counts
    that are not negative that is exactly when [current < avg - 2 * std].
    When the counts of the baseline are all [c], the standard deviation is
    zero, and a drop is flagged exactly when [current < c]. *)
Theorem detect_anomalies_thresholds (current : Z) (baseline : list Z) :
  (2 <= List.length baseline)%nat ->
  exists avg std,
    mean baseline = Some avg /\ stdev baseline = Some std /\
    (check_samples (current :: baseline) = Some Spike <->
       (eqb std (Int 0) = true /\
        ltb (mul avg (Float (3 # 2))) (Int current) = true) \/
       (eqb std (Int 0) = false /\
        ltb (add avg (mul (Int 2) std)) (Int current) = true)) /\
    (check_samples (current :: baseline) = Some Drop <->
       check_samples (current :: baseline) <> Some Spike /\
       ltb (Int current) (sub avg (mul (Int 2) std)) = true) /\
    (Forall (fun x => 0 <= x) baseline ->
       (check_samples (current :: baseline) = Some Drop <->
        ltb (Int current) (sub avg (mul (Int 2) std)) = true)) /\
    (forall c, 0 <= c < 2 ^ 53 ->
       baseline = repeat c (List.length baseline) ->
       avg = Int c /\ std = Float 0 /\
       (check_samples (current :: baseline) = Some Drop <-> current < c)).
Proof.
  intros Hlen.
  destruct (mean_defined baseline) as [avg Hm];
    [intros ->; simpl in Hlen; lia|].
  destruct (stdev_defined baseline Hlen) as [s [Hv Hs]].
  exists avg, (Float s). split; [exact Hm|]. split; [exact Hv|].
  rewrite (check_samples_eq current baseline avg (Float s) Hlen Hm Hv).
  assert (Hnn : Forall (fun x => 0 <= x) baseline ->
                ltb (Int current) (sub avg (mul (Int 2) (Float s))) = true ->
                ltb (if eqb (Float s) (Int 0) then mul avg (Float (3 # 2))
                     else add avg (mul (Int 2) (Float s))) (Int current) = false).
  { intros Hall Hlow. destruct (mean_nonneg baseline avg Hall Hm) as [_ Ha].
    pose proof (low_below_high avg s Ha Hs) as Hle.
    unfold ltb in *. apply Qltb_lt in Hlow.
    destruct (Qltb _ (value (Int current))) eqn:E; [|reflexivity].
    apply Qltb_lt in E. exfalso. lra. }
  split; [|split; [|split]].
  - destruct (eqb (Float s) (Int 0));
      destruct (ltb _ (Int current)) eqn:E1;
      try destruct (ltb (Int current) _);
      split; intros H; try discriminate; try reflexivity;
      try (left; now split); try (right; now split);
      destruct H as [[? ?]|[? ?]]; congruence.
  - destruct (ltb _ (Int current));
      destruct (ltb (Int current) _);
      split; intros H; try discriminate; try reflexivity;
      try (split; [discriminate | reflexivity]);
      destruct H as [H1 H2]; try discriminate; now elim H1.
  - intros Hall. specialize (Hnn Hall).
    destruct (ltb (Int current) (sub avg (mul (Int 2) (Float s)))) eqn:El.
    + rewrite (Hnn eq_refl). now split.
    + destruct (ltb _ (Int current)); split; intros H; discriminate.
  - intros c Hc Hb.
    assert (Hm' : mean baseline = Some (Int c))
      by (rewrite Hb; apply mean_repeat; lia).
    assert (Hv' : stdev baseline = Some (Float 0))
      by (rewrite Hb; now apply stdev_repeat).
    assert (Ea : avg = Int c) by congruence.
    assert (Es : Float s = Float 0) by congruence.
    split; [exact Ea|]. split; [exact Es|].
    rewrite Es, Ea.
    assert (Hr : round (inject_Z c) = inject_Z c) by (apply round_int; lia).
    assert (Elow : sub (Int c) (mul (Int 2) (Float 0)) = Float (inject_Z c)).
    { cbn [sub mul to_float]. rewrite Hr.
      change (round (round (inject_Z 2) * 0)) with 0%Q.
      rewrite (round_comp (inject_Z c - 0) (inject_Z c)) by ring.
      now rewrite Hr. }
    rewrite Elow. change (eqb (Float 0) (Int 0)) with true. cbv iota.
    assert (Hhi : (inject_Z c <= value (mul (Int c) (Float (3 # 2))))%Q).
    { cbn [mul to_float value]. rewrite Hr. rewrite <- Hr at 1.
      apply round_mono. assert (0 <= inject_Z c)%Q
        by (unfold Qle; cbn [Qnum Qden inject_Z]; lia). lra. }
    unfold ltb at 2. cbn [value].
    destruct (Qltb (inject_Z current) (inject_Z c)) eqn:El.
    + apply Qltb_lt in El.
      replace (ltb (mul (Int c) (Float (3 # 2))) (Int current)) with false.
      * split; [intros _|reflexivity]. now rewrite <- Zlt_Qlt in El.
      * symmetry. unfold ltb. cbn [value].
        destruct (Qltb _ (inject_Z current)) eqn:E; [|reflexivity].
        apply Qltb_lt in E. exfalso. lra.
    + assert (Hn : ~ current < c).
      { intros H. rewrite Zlt_Qlt in H. apply Qltb_lt in H. congruence. }
      destruct (ltb (mul (Int c) (Float (3 # 2))) (Int current));
        split; intros H; try discriminate; contradiction.
Qed.

Lemma detect_anomalies_thresholds_at_5_10_10 :
  exists avg std,
    mean [10; 10] = Some avg /\ stdev [10; 10] = Some std /\
    (check_samples [5; 10; 10] = Some Spike <->
       (eqb std (Int 0) = true /\
        ltb (mul avg (Float (3 # 2))) (Int 5) = true) \/
       (eqb std (Int 0) = false /\
        ltb (add avg (mul (Int 2) std)) (Int 5) = true)) /\
    (check_samples [5; 10; 10] = Some Drop <->
       check_samples [5; 10; 10] <> Some Spike /\
       ltb (Int 5) (sub avg (mul (Int 2) std)) = true) /\
    (Forall (fun x => 0 <= x) [10; 10] ->
       (check_samples [5; 10; 10] = Some Drop <->
        ltb (Int 5) (sub avg (mul (Int 2) std)) = true)) /\
    (forall c, 0 <= c < 2 ^ 53 ->
       [10; 10] = repeat c (List.length [10; 10]) ->
       avg = Int c /\ std = Float 0 /\
       (check_samples [5; 10; 10] = Some Drop <-> 5 < c)).
Proof. apply (detect_anomalies_thresholds 5 [10; 10]). simpl. lia. Defined.

(** The query of [detect_anomalies] returns six rows at most. *)
Lemma select_recent_length (name : string) (db : DBAccess.database) :
  (List.length (DBAccess.select_recent name db) <= 6)%nat.
Proof.
  unfold DBAccess.select_recent. rewrite length_map. apply firstn_le_length.
Qed.

(** A verdict other than [Skip] is reached with a newest count and a mean. *)
Lemma check_samples_flagged (data : list Z) (v : verdict) :
  check_samples data = Some v -> v <> Skip ->
  exists c b avg, data = c :: b /\ mean b = Some avg.
Proof.
  unfold check_samples. intros E Hv.
  destruct (List.length data <? 3)%nat; [congruence|].
  destruct data as [|c b]; [discriminate|].
  destruct (mean b) as [avg|] eqn:Em; [|discriminate].
  exists c, b, avg. split; [reflexivity | exact Em].
Qed.

(** What [detect_anomalies] prints for a server follows the verdict. *)
Lemma detect_one_prints (w : World) (name ip : string) :
  let data := DBAccess.select_recent name (db w) in
  match check_samples data with
  | Some Spike =>
      exists avg, mean (tl data) = Some avg /\
        detect_one w (name, ip) = print (AnomalySpike name (hd 0%Z data) avg) w
  | Some Drop =>
      exists avg, mean (tl data) = Some avg /\
        detect_one w (name, ip) = print (AnomalyDrop name (hd 0%Z data) avg) w
  | _ => detect_one w (name, ip) = w
  end.
Proof.
  cbv zeta. unfold detect_one.
  destruct (check_samples (DBAccess.select_recent name (db w)))
    as [[| | |]|] eqn:E; try reflexivity.
  - destruct (check_samples_flagged _ _ E) as [c [b [avg [-> Hm]]]];
      [discriminate|].
    exists avg. simpl. now rewrite Hm.
  - destruct (check_samples_flagged _ _ E) as [c [b [avg [-> Hm]]]];
      [discriminate|].
    exists avg. simpl. now rewrite Hm.
Qed.

(** C1 as stated fails: with the baseline [10, 10] the standard deviation
    is 0, and the newest count 5 is flagged as a drop. *)
Lemma drop_flagged_on_constant_baseline :
  mean [10; 10] = Some (Int 10) /\
  stdev [10; 10] = Some (Float 0) /\
  eqb (Float 0) (Int 0) = true /\
  check_samples [5; 10; 10] = Some Drop /\
  out (detect_anomalies (init Examples.steady_db false)) =
    [AnomalyStart; AnomalyDrop "lobby" 5 (Int 10)].
Proof. repeat split. Qed.

(** The verdicts follow the doubles, not the exact values: over the
    baseline [0, 93222358] the exact [avg + 2 * std] lies below
    178447502, but the double nearest to it is 178447502, and the count is
    not flagged. *)
Lemma verdict_follows_the_doubles :
  check_samples [178447502; 0; 93222358] = Some Normal /\
  check_samples [178447503; 0; 93222358] = Some Spike.
Proof. split; vm_compute; reflexivity. Qed.

End AnomalyDetector.

(* ====================================================================== *)
(** * The store: removal, deletion and registration *)
(* ====================================================================== *)

Section Store.

Import PyStr Statistics DBAccess MCMonitor Statements Examples.

(** ** Lists *)

Lemma filter_all {A} (p : A -> bool) (l : list A) :
  (forall x, In x l -> p x = true) -> filter p l = l.
Proof.
  induction l as [|a l IH]; simpl; intros H; [reflexivity|].
  rewrite (H a) by now left. f_equal. apply IH. intros x Hx. apply H. now right.
Qed.

Lemma filter_none {A} (p : A -> bool) (l : list A) :
  (forall x, In x l -> p x = false) -> filter p l = [].
Proof.
  induction l as [|a l IH]; simpl; intros H; [reflexivity|].
  rewrite (H a) by now left. apply IH. intros x Hx. apply H. now right.
Qed.

Lemma flat_map_nil {A B} (f : A -> list B) (l : list A) :
  (forall x, In x l -> f x = []) -> flat_map f l = [].
Proof.
  induction l as [|a l IH]; simpl; intros H; [reflexivity|].
  rewrite (H a) by now left. simpl. apply IH. intros x Hx. apply H. now right.
Qed.

(** ** Membership of a name in the listing *)

Lemma mem_false_iff (x : string) (l : list string) :
  mem x l = false <-> ~ In x l.
Proof.
  unfold mem. split.
  - intros H Hin. assert (E : existsb (String.eqb x) l = true).
    { apply existsb_exists. exists x. split; [assumption|apply String.eqb_refl]. }
    congruence.
  - intros H. destruct (existsb (String.eqb x) l) eqn:E; [|reflexivity].
    apply existsb_exists in E. destruct E as [y [Hy E]].
    apply String.eqb_eq in E. subst y. contradiction.
Qed.

Lemma mem_true_iff (x : string) (l : list string) :
  mem x l = true <-> In x l.
Proof.
  unfold mem. rewrite existsb_exists. split.
  - intros [y [Hy E]]. apply String.eqb_eq in E. now subst.
  - intros H. exists x. split; [assumption|apply String.eqb_refl].
Qed.

Lemma names_of_servers (db : database) :
  map fst (select_servers db) = map srv_name (servers db).
Proof. unfold select_servers. rewrite map_map. reflexivity. Qed.

Lemma ips_of_servers (db : database) :
  map snd (select_servers db) = map srv_ip (servers db).
Proof. unfold select_servers. rewrite map_map. reflexivity. Qed.

Lemma not_listed_no_row (name : string) (db : database) :
  mem name (map fst (select_servers db)) = false ->
  forall s, In s (servers db) -> String.eqb (srv_name s) name = false.
Proof.
  rewrite mem_false_iff, names_of_servers. intros H s Hs.
  apply String.eqb_neq. intros E. apply H. rewrite <- E. now apply in_map.
Qed.

(** ** The store after a DELETE that matches nothing *)

Lemma references_nil (r : stat) : references [] r = false.
Proof. unfold references. destruct (stat_server_id r); reflexivity. Qed.

Lemma delete_server_absent (name : string) (db : database) :
  mem name (map fst (select_servers db)) = false ->
  delete_server name db = (db, 0%nat).
Proof.
  intros H. pose proof (not_listed_no_row name db H) as Hno.
  unfold delete_server.
  rewrite (filter_none (fun s => String.eqb (srv_name s) name)) by assumption.
  rewrite (filter_all (fun s => negb (String.eqb (srv_name s) name)))
    by (intros s Hs; now rewrite (Hno s Hs)).
  rewrite (filter_all (fun r => negb (references [] r)))
    by (intros r _; now rewrite references_nil).
  destruct db as [sv st q1 q2 fk]. simpl. now destruct fk.
Qed.

Lemma select_id_absent (name : string) (db : database) :
  mem name (map fst (select_servers db)) = false -> select_id name db = None.
Proof.
  intros H. unfold select_id.
  now rewrite (filter_none _ _ (not_listed_no_row name db H)).
Qed.

Lemma joined_absent (name : string) (db : database) :
  mem name (map fst (select_servers db)) = false -> joined name db = [].
Proof.
  intros H. unfold joined. apply flat_map_nil. intros r _.
  rewrite filter_none; [reflexivity|].
  intros s Hs. now rewrite (not_listed_no_row name db H s Hs).
Qed.

Lemma set_db_same (w : World) : set_db (db w) w = w.
Proof. now destruct w. Qed.

(** ** After [DELETE FROM servers WHERE name = ?] *)

Lemma delete_server_not_listed (name : string) (db : database) :
  mem name (map fst (select_servers (fst (delete_server name db)))) = false.
Proof.
  apply mem_false_iff. rewrite names_of_servers. simpl.
  intros Hin. apply in_map_iff in Hin. destruct Hin as [s [E Hs]].
  apply filter_In in Hs. destruct Hs as [_ Hs].
  rewrite E, String.eqb_refl in Hs. discriminate.
Qed.

Lemma db_remove_server (name : string) (w : World) :
  db (remove_server name w) = fst (delete_server name (db w)).
Proof.
  unfold remove_server. destruct (delete_server name (db w)) as [d n].
  now destruct (0 <? n)%nat.
Qed.

Lemma sort_by_nil le : sort_by le [] = [].
Proof. reflexivity. Qed.

(** The part of C2 that holds, and the part that fails: on a connection
    that does not enforce foreign keys, removing a server unlists it and
    empties every query joined on its name, but deletes no row of [stats]. *)
Lemma remove_server_keeps_samples (name : string) (w : World) :
  foreign_keys (db w) = false ->
  mem name (map fst (load_servers (remove_server name w))) = false /\
  (forall now days, select_trend name now days (db (remove_server name w)) = []) /\
  stats (db (remove_server name w)) = stats (db w).
Proof.
  intros Hfk. unfold load_servers. rewrite db_remove_server.
  pose proof (delete_server_not_listed name (db w)) as Hgone.
  split; [assumption|]. split.
  - intros now days. unfold select_trend, window.
    now rewrite (joined_absent _ _ Hgone).
  - simpl. now rewrite Hfk.
Qed.

(** With [PRAGMA foreign_keys = ON] the cascade would run: no row of
    [stats] would reference a removed server. *)
Lemma remove_server_cascades_when_enforced (name : string) (w : World) :
  foreign_keys (db w) = true ->
  forall r, In r (stats (db (remove_server name w))) ->
    In r (stats (db w)) /\
    references (filter (fun s => String.eqb (srv_name s) name) (servers (db w))) r
      = false.
Proof.
  intros Hfk r. rewrite db_remove_server. simpl. rewrite Hfk.
  rewrite filter_In. intros [Hin Hr]. split; [assumption|].
  now apply negb_true_iff.
Qed.

(** C2 at the store of [Examples.orphan_db], opened as the program opens
    it: [remove_server "lobby"] reports success and unlists the server, and
    both samples of the removed server stay in [stats], referencing an id
    that no server has. *)
Theorem remove_server_orphans_samples :
  let w := remove_server "lobby" orphan_world in
  out w = [RemoveOk "lobby"] /\
  load_servers w = [] /\
  servers (db w) = [] /\
  stats (db w) = [mk_stat 1 (Some 1) 12 1000; mk_stat 2 (Some 1) 15 1300].
Proof.
  cbv zeta. split; [reflexivity|]. split; [reflexivity|]. split; [reflexivity|].
  exact (proj2 (proj2 (remove_server_keeps_samples "lobby" orphan_world eq_refl))).
Qed.

(** C5, as amended.  On a name that no server has, [remove_server] prints
    the not-found message and [delete_server_data] prints that the server
    does not exist (no count); neither raises, and nothing but the terminal
    changes. *)
Theorem not_found_is_reported (name : string) (w : World) :
  mem name (map fst (load_servers w)) = false ->
  remove_server name w = print RemoveNotFound w /\
  delete_server_data name w = print DeleteNoServer w.
Proof.
  unfold load_servers. intros H. split.
  - unfold remove_server. rewrite (delete_server_absent _ _ H).
    simpl. now rewrite set_db_same.
  - unfold delete_server_data, _get_server_id.
    now rewrite (select_id_absent _ _ H).
Qed.

Lemma insert_server_duplicate (name ip : string) (db : database) :
  mem name (map fst (select_servers db)) = true \/
  mem ip (map snd (select_servers db)) = true ->
  insert_server name ip db = None.
Proof.
  rewrite !mem_true_iff, names_of_servers, ips_of_servers. intros H.
  unfold insert_server.
  replace (existsb _ (servers db)) with true; [reflexivity|].
  symmetry. apply existsb_exists.
  destruct H as [H|H]; apply in_map_iff in H; destruct H as [s [E Hs]];
    exists s; (split; [assumption|]); rewrite E, String.eqb_refl;
    [reflexivity | apply orb_true_r].
Qed.

(** C6, as amended.  An [add_server] whose name or address a server
    already has leaves the store and the saved files unchanged and prints
    one message: the duplicate error when the status check succeeded, the
    validation failure of that check otherwise. *)
Theorem add_server_duplicate_rejected (env : Env) (name ip : string) (w : World) :
  mem name (map fst (load_servers w)) = true \/
  mem ip (map snd (load_servers w)) = true ->
  db (add_server env name ip w) = db w /\
  files (add_server env name ip w) = files w /\
  out (add_server env name ip w) =
    out w ++ [rejection (status_of env (io w) ip)].
Proof.
  intros Hdup. unfold add_server, ask_status, rejection.
  destruct (status_of env (io w) ip) as [online|err].
  - change (db (next_io w)) with (db w).
    rewrite (insert_server_duplicate name ip (db w) Hdup).
    repeat split.
  - destruct (contains "timed out" err); repeat split.
Qed.

(** C6 as stated fails: the duplicate of a server that does not answer is
    rejected with the validation failure, not with the duplicate error. *)
Lemma add_server_unreachable_duplicate :
  out (add_server env_down "lobby" "10.0.0.1" orphan_world) =
    [AddFailed "[WinError 10061] connection refused"] /\
  out (add_server env_up "lobby" "10.0.0.1" orphan_world) = [AddDuplicate].
Proof. split; reflexivity. Qed.

Lemma out_report_one (env : Env) (days : Z) (w : World) (name ip : string) :
  out (report_one env days w (name, ip)) =
  out w ++
  (let '(peak, avg, ndays) :=
     select_aggregate name (sql_now env (io w)) days (db w) in
   [ReportServer name ip; ReportPeak (peak_shown peak);
    ReportAvg (avg_shown avg); ReportDays ndays]).
Proof.
  unfold report_one, ask_now. change (db (next_io w)) with (db w).
  destruct (select_aggregate name (sql_now env (io w)) days (db w))
    as [[peak avg] ndays].
  simpl. rewrite <- !app_assoc. reflexivity.
Qed.

(** No sample in the window: both values are absent and no day counts. *)
Lemma aggregate_of_empty_window (name : string) (now days : Z) (db : database) :
  window name now days db = [] ->
  select_aggregate name now days db = (None, None, 0%nat) /\
  peak_shown None = NA /\ avg_shown None = NA.
Proof. intros H. unfold select_aggregate. rewrite H. repeat split. Qed.

Lemma fold_max_zero (l : list Z) :
  Forall (fun x => x = 0) l -> fold_left Z.max l 0 = 0.
Proof. induction 1 as [|x l -> _ IH]; simpl; [reflexivity|exact IH]. Qed.

(** Samples whose counts are all zero: the window has data, yet both
    values are printed as [N/A]. *)
Lemma zero_counts_shown_absent (counts : list Z) :
  counts <> [] -> Forall (fun x => x = 0) counts ->
  peak_shown (sql_max counts) = NA /\ avg_shown (sql_avg counts) = NA.
Proof.
  intros Hne Hz. split.
  - destruct counts as [|x r]; [congruence|].
    inversion Hz as [|? ? Hx Hr]; subst.
    simpl. now rewrite (fold_max_zero r Hr).
  - now rewrite (sql_avg_zero counts Hne Hz).
Qed.

(** C4 at the store of [Examples.idle_db]: the window of one day holds a
    sample, whose count is zero, and the report prints both the peak and the
    average as [N/A], with one day of data. *)
Theorem report_shows_zero_as_absent :
  window "lobby" 2000 1 idle_db = [mk_stat 1 (Some 1) 0 1990] /\
  out (generate_report env_up 1 (init idle_db false)) =
    [ReportStart; ReportTitle; ReportServer "lobby" "10.0.0.1";
     ReportPeak NA; ReportAvg NA; ReportDays 1].
Proof.
  split; [reflexivity|].
  change (generate_report env_up 1 (init idle_db false))
    with (report_one env_up 1
            (print ReportTitle (print ReportStart (init idle_db false)))
            ("lobby", "10.0.0.1")).
  rewrite out_report_one.
  change (select_aggregate "lobby" _ 1 _)
    with (sql_max [0], sql_avg [0], 1%nat).
  destruct (zero_counts_shown_absent [0]) as [Hp Ha];
    [discriminate | repeat constructor |].
  cbv iota beta. rewrite Hp, Ha. reflexivity.
Qed.

Lemma not_found_is_reported_for_ghost :
  remove_server "ghost" orphan_world = print RemoveNotFound orphan_world /\
  delete_server_data "ghost" orphan_world = print DeleteNoServer orphan_world.
Proof. apply (not_found_is_reported "ghost" orphan_world). reflexivity. Defined.

(** C5 as stated fails: for a name that no server has, [delete_server_data]
    prints the error and no count; a count, zero included, is printed for
    a server that exists. *)
Lemma delete_of_unknown_server_prints_no_count :
  out (delete_server_data "ghost" (init fresh_db false)) = [DeleteNoServer] /\
  out (delete_server_data "lobby" (init fresh_db false)) = [DeleteOk 0 "lobby"] /\
  out (remove_server "ghost" (init fresh_db false)) = [RemoveNotFound].
Proof. repeat split. Qed.

Lemma add_server_duplicate_rejected_for_lobby :
  db (add_server env_down "lobby" "10.0.0.9" orphan_world) = db orphan_world /\
  files (add_server env_down "lobby" "10.0.0.9" orphan_world) = files orphan_world /\
  out (add_server env_down "lobby" "10.0.0.9" orphan_world) =
    out orphan_world ++ [rejection (status_of env_down (io orphan_world) "10.0.0.9")].
Proof.
  apply (add_server_duplicate_rejected env_down "lobby" "10.0.0.9" orphan_world).
  left. reflexivity.
Defined.

End Store.

(* ====================================================================== *)
(** * The poll round [collect_data] *)
(* ====================================================================== *)

Section Collect.

Import PyStr Statistics DBAccess MCMonitor Scheduler Statements Examples.

Local Open Scope Z_scope.

Lemma distinct_strings_NoDup (l : list string) :
  distinct_strings l = true <-> NoDup l.
Proof.
  induction l as [|x r IH]; simpl.
  - split; [constructor|reflexivity].
  - rewrite andb_true_iff, negb_true_iff, mem_false_iff, IH. split.
    + intros [H1 H2]. now constructor.
    + intros H. now inversion H.
Qed.

Lemma select_id_of_row (rows : list server) (s : server) (q1 q2 : Z)
    (st : list stat) (fk : bool) :
  NoDup (map srv_name rows) -> In s rows ->
  select_id (srv_name s) (mk_database rows st q1 q2 fk) = Some (srv_id s).
Proof.
  unfold select_id. simpl. induction rows as [|a r IH]; intros Hnd Hin.
  - contradiction.
  - inversion Hnd as [|? ? Hna Hr]; subst. simpl.
    destruct Hin as [->|Hin].
    + now rewrite String.eqb_refl.
    + destruct (String.eqb (srv_name a) (srv_name s)) eqn:E.
      * apply String.eqb_eq in E. exfalso. apply Hna. rewrite E.
        now apply in_map.
      * now apply IH.
Qed.

Lemma select_id_listed (db : database) (s : server) :
  NoDup (map srv_name (servers db)) -> In s (servers db) ->
  select_id (srv_name s) db = Some (srv_id s).
Proof. destruct db. apply select_id_of_row. Qed.

(** The servers named [name] are looked up in [servers] alone. *)
Lemma select_id_insert_stat (name : string) (sid : option Z) (online now : Z)
    (db : database) :
  select_id name (insert_stat sid online now db) = select_id name db.
Proof. reflexivity. Qed.

(** One pass of the loop of [collect_data]. *)
Lemma collect_one_step (env : Env) (w : World) (s : server) :
  select_id (srv_name s) (db w) = Some (srv_id s) ->
  let a := status_of env (io w) (srv_ip s) in
  let w' := collect_one env w (server_info s) in
  servers (db w') = servers (db w) /\
  files w' = files w /\
  io w' = (if storable a then S (S (io w)) else S (io w)) /\
  out w' = out w ++ [report_of (s, a)] /\
  exists rows, stats (db w') = stats (db w) ++ rows /\
               map sample_key rows = sample_of (s, a).
Proof.
  intros Hid. cbv zeta.
  unfold collect_one, server_info, ask_status, report_of, sample_of, storable.
  simpl snd. simpl fst.
  destruct (status_of env (io w) (srv_ip s)) as [online|err];
    [destruct (fits_integer online)|].
  - unfold _get_server_id, ask_now. change (db (next_io w)) with (db w).
    rewrite Hid. simpl. repeat split.
    eexists. split; reflexivity.
  - simpl. repeat split. exists []. now rewrite app_nil_r.
  - simpl. repeat split. exists []. now rewrite app_nil_r.
Qed.

Lemma collect_loop (env : Env) (rows : list server) :
  forall w,
    (forall s, In s rows -> select_id (srv_name s) (db w) = Some (srv_id s)) ->
    let polled := combine rows (round_answers env (io w) rows) in
    let w' := fold_left (collect_one env) (map server_info rows) w in
    servers (db w') = servers (db w) /\
    files w' = files w /\
    out w' = out w ++ map report_of polled /\
    exists new, stats (db w') = stats (db w) ++ new /\
                map sample_key new = flat_map sample_of polled.
Proof.
  induction rows as [|s rest IH]; intros w Hid; cbv zeta.
  - simpl. repeat split; [now rewrite app_nil_r|].
    exists []. now rewrite app_nil_r.
  - destruct (collect_one_step env w s (Hid s (or_introl eq_refl)))
      as [Hsv [Hf [Hio [Hout [new1 [Hst Hkey]]]]]].
    cbn [map fold_left round_answers combine flat_map].
    set (w1 := collect_one env w (server_info s)) in *.
    assert (Hid1 : forall s', In s' rest ->
                     select_id (srv_name s') (db w1) = Some (srv_id s')).
    { intros s' Hs'. rewrite <- (Hid s' (or_intror Hs')).
      unfold select_id. now rewrite Hsv. }
    destruct (IH w1 Hid1) as [Hsv' [Hf' [Hout' [new2 [Hst' Hkey']]]]].
    rewrite Hio in Hout', Hkey'.
    repeat split.
    + now rewrite Hsv'.
    + now rewrite Hf'.
    + rewrite Hout', Hout, <- app_assoc. reflexivity.
    + exists (new1 ++ new2). split.
      * now rewrite Hst', Hst, <- app_assoc.
      * now rewrite map_app, Hkey, Hkey'.
Qed.

(** C7, as amended.  In a store whose server names are distinct, a round of
    [collect_data] polls every server once, in listing order, whatever the
    provider answers: it appends to [stats] one sample per poll that
    returned a count SQLite can store, holding that server's id and the
    count, and none for a poll that failed or returned a count outside the
    64-bit range; it prints one line per server, the count or the failure;
    and it leaves [servers] as it was. *)
Theorem collect_data_polls_every_server (env : Env) (w : World) :
  distinct_strings (map fst (load_servers w)) = true ->
  let rows := servers (db w) in
  let polled := combine rows (round_answers env (io w) rows) in
  let w' := collect_data env w in
  List.length polled = List.length rows /\
  servers (db w') = rows /\
  out w' = out w ++ match rows with
                    | [] => []
                    | _ => CollectStart :: map report_of polled
                    end /\
  exists new, stats (db w') = stats (db w) ++ new /\
              map sample_key new = flat_map sample_of polled.
Proof.
  unfold load_servers. rewrite names_of_servers, distinct_strings_NoDup.
  intros Hnd. cbv zeta. split.
  - rewrite length_combine.
    assert (H : forall n l, List.length (round_answers env n l) = List.length l).
    { intros n l. revert n. induction l; intros n; simpl; [|rewrite IHl]; reflexivity. }
    rewrite H. apply Nat.min_id.
  - unfold collect_data, load_servers, select_servers.
    destruct (servers (db w)) as [|s rest] eqn:E.
    + simpl. split; [exact E|]. split; [now rewrite app_nil_r|].
      exists []. now rewrite app_nil_r.
    + change (map (fun s0 => (srv_name s0, srv_ip s0)) (s :: rest))
        with (map server_info (s :: rest)).
      assert (Hid : forall s', In s' (s :: rest) ->
                select_id (srv_name s') (db (print CollectStart w))
                = Some (srv_id s')).
      { intros s' Hs'. change (db (print CollectStart w)) with (db w).
        apply select_id_listed; now rewrite E. }
      destruct (collect_loop env (s :: rest) (print CollectStart w) Hid)
        as [Hsv [_ [Hout [new [Hst Hkey]]]]].
      change (io (print CollectStart w)) with (io w) in *.
      change (db (print CollectStart w)) with (db w) in *.
      cbn [map] in *. repeat split.
      * now rewrite Hsv.
      * rewrite Hout. simpl. rewrite <- app_assoc. reflexivity.
      * exists new. now split.
Qed.

Lemma collect_data_polls_every_server_mixed :
  let rows := servers (db Cases.two_world) in
  let polled :=
    combine rows (round_answers Cases.env_mixed (io Cases.two_world) rows) in
  let w' := collect_data Cases.env_mixed Cases.two_world in
  List.length polled = List.length rows /\
  servers (db w') = rows /\
  out w' = out Cases.two_world ++ match rows with
                                  | [] => []
                                  | _ => CollectStart :: map report_of polled
                                  end /\
  exists new, stats (db w') = stats (db Cases.two_world) ++ new /\
              map sample_key new = flat_map sample_of polled.
Proof.
  apply (collect_data_polls_every_server Cases.env_mixed Cases.two_world).
  reflexivity.
Defined.

(** C7 as stated fails: a poll that succeeds with a count one more than the
    greatest 64-bit integer leaves no sample.  The INSERT raises inside the
    [try], and the server is reported as failed. *)
Lemma unstorable_count_leaves_no_sample :
  status_of Cases.env_huge (io orphan_world) "10.0.0.1" = StatusOk (2 ^ 63) /\
  stats (db (collect_data Cases.env_huge orphan_world)) =
    stats (db orphan_world) /\
  out (collect_data Cases.env_huge orphan_world) =
    [CollectStart; CollectFail "lobby" overflow_error].
Proof. repeat split. Qed.

(** In the mixed round the first server fails and the second is sampled. *)
Lemma mixed_round_samples_the_second :
  out (collect_data Cases.env_mixed Cases.two_world) =
    [CollectStart; CollectFail "lobby" "timed out"; CollectOk "creative" 7] /\
  map sample_key (stats (db (collect_data Cases.env_mixed Cases.two_world))) =
    map sample_key (stats (db Cases.two_world)) ++ [(Some 2, 7)].
Proof. split; reflexivity. Qed.

(** Every pattern of answers is one the provider can give. *)
Lemma every_pattern_is_possible (rows : list server) (answers : list status_result) :
  List.length answers = List.length rows ->
  forall n, exists env, round_answers env n rows = answers.
Proof.
  revert answers. induction rows as [|s rest IH]; intros [|a answers] Hlen n;
    try discriminate Hlen.
  - exists env_up. reflexivity.
  - injection Hlen as Hlen.
    destruct (IH answers Hlen (if storable a then S (S n) else S n))
      as [env Henv].
    exists (mk_env (fun k ip => if (k =? n)%nat then a else status_of env k ip)
                   (sql_now env) (savefig_of env)).
    simpl. rewrite Nat.eqb_refl. f_equal.
    rewrite <- Henv. clear Henv.
    assert (Hext : forall l m, (n < m)%nat ->
              round_answers
                (mk_env (fun k ip => if (k =? n)%nat then a else status_of env k ip)
                        (sql_now env) (savefig_of env)) m l
              = round_answers env m l).
    { induction l as [|x l IHl]; intros m Hm; simpl; [reflexivity|].
      replace (m =? n)%nat with false by (symmetry; apply Nat.eqb_neq; lia).
      f_equal. destruct (storable (status_of env m (srv_ip x))); apply IHl; lia. }
    apply Hext. destruct (storable a); lia.
Qed.

End Collect.

(* ====================================================================== *)
(** * The [trend] command *)
(* ====================================================================== *)

Section Trend.

Import PyStr Statistics DBAccess MCMonitor Scheduler Statements Examples.

Local Open Scope Z_scope.

(** An invariant of the body of a [for] loop is one of the loop. *)
Lemma fold_left_invariant {A B} (f : A -> B -> A) (I : A -> Prop) :
  (forall a b, I a -> I (f a b)) ->
  forall l a, I a -> I (fold_left f l a).
Proof.
  intros Hf l. induction l as [|b l IH]; intros a Ha; simpl; [assumption|].
  apply IH, Hf, Ha.
Qed.

(** [plot_trend] reads the store; all it changes is the terminal, the
    working directory and the I/O counter. *)
Lemma plot_one_frame (env : Env) (days : Z) (acc : World * list (list (Z * Z)))
    (name : string) :
  db (fst (plot_one env days acc name)) = db (fst acc) /\
  files (fst (plot_one env days acc name)) = files (fst acc) /\
  running (fst (plot_one env days acc name)) = running (fst acc) /\
  io (fst (plot_one env days acc name)) = S (io (fst acc)).
Proof.
  destruct acc as [w lines]. unfold plot_one, ask_now.
  destruct (select_trend name (sql_now env (io w)) days (db (next_io w)));
    repeat split.
Qed.

(** The loop of [plot_trend] reads the clock once for every name. *)
Lemma plot_loop_frame (env : Env) (days : Z) (names : list string) :
  forall acc,
    let acc' := fold_left (plot_one env days) names acc in
    db (fst acc') = db (fst acc) /\
    files (fst acc') = files (fst acc) /\
    running (fst acc') = running (fst acc) /\
    io (fst acc') = (io (fst acc) + List.length names)%nat.
Proof.
  induction names as [|n names IH]; intros acc; cbv zeta.
  - simpl. repeat split. lia.
  - cbn [fold_left List.length].
    destruct (plot_one_frame env days acc n) as [Hd [Hf [Hr Hi]]].
    destruct (IH (plot_one env days acc n)) as [Hd' [Hf' [Hr' Hi']]].
    rewrite Hd', Hf', Hr', Hi', Hd, Hf, Hr, Hi. repeat split. lia.
Qed.

(** What [plot_trend] leaves: the figure when [plt.savefig] wrote it, and
    its exception otherwise. *)
Lemma plot_trend_saves_one_file (env : Env) (names : list string) (days : Z)
    (w : World) :
  let r := plot_trend env names days w in
  db (fst r) = db w /\
  running (fst r) = running w /\
  exists lines,
    match savefig_at env names days w with
    | Saved =>
        snd r = None /\
        files (fst r) =
        files w ++ [mk_artifact (trend_filename names days) lines names]
    | SavefigValueError => snd r = Some ValueError /\ files (fst r) = files w
    | SavefigError err => snd r = Some (OtherError err) /\ files (fst r) = files w
    end.
Proof.
  cbv zeta. unfold plot_trend, savefig_at, ask_savefig.
  destruct (plot_loop_frame env days names (w, [])) as [Hd [Hf [Hr Hi]]].
  destruct (fold_left (plot_one env days) names (w, [])) as [w1 lines].
  simpl in Hd, Hf, Hr, Hi. rewrite Hi.
  destruct (savefig_of env (io w + List.length names)
              (trend_filename names days));
    simpl; (split; [exact Hd|]); (split; [exact Hr|]); exists lines;
    (split; [reflexivity|]); now rewrite ?Hf.
Qed.

Lemma unknown_names_nil (names : list string) (w : World) :
  unknown_names names w = [] <->
  forall n, In n names -> mem n (map fst (load_servers w)) = true.
Proof.
  unfold unknown_names. split.
  - intros H n Hn.
    destruct (mem n (map fst (load_servers w))) eqn:E; [reflexivity|].
    assert (Hin : In n (filter (fun s => negb (mem s (map fst (load_servers w))))
                          names))
      by (apply filter_In; split; [assumption | now rewrite E]).
    rewrite H in Hin. contradiction.
  - intros H. apply filter_none. intros n Hn. now rewrite (H n Hn).
Qed.

(** C8, as amended.  A [trend] command with a days token and at least one
    name never changes the store.  If the days token is not an integer, it
    is rejected with that error, whatever the names.  If it is an integer
    and a name is unknown, the command is rejected with the list of the
    unknown names and no file is saved.  If all names are known, the figure
    is drawn and handed to [plt.savefig]: when that writes the file, one
    figure is saved for the names; when it raises, no file is saved, and
    the exception leaves the command, except a [ValueError], which is
    reported as a days token that is no integer.  A file is saved only
    when all names are known. *)
Theorem trend_is_all_or_nothing (env : Env) (cmd t d n : string)
    (rest : list string) (w : World) :
  split cmd = t :: d :: n :: rest ->
  let names := n :: rest in
  let r := _handle_trend env cmd w in
  let w' := fst r in
  db w' = db w /\
  (int d = None -> r = (print DaysNotInteger w, None)) /\
  (forall days, int d = Some days -> unknown_names names w <> [] ->
     r = (print (TrendUnknown (unknown_names names w)) w, None)) /\
  (forall days, int d = Some days -> unknown_names names w = [] ->
     match savefig_at env names days w with
     | Saved =>
         r = (fst (plot_trend env names days w), None) /\
         exists lines,
           files w' =
           files w ++ [mk_artifact (trend_filename names days) lines names]
     | SavefigValueError =>
         r = (print DaysNotInteger (fst (plot_trend env names days w)), None) /\
         files w' = files w
     | SavefigError err =>
         r = (fst (plot_trend env names days w), Some err) /\
         files w' = files w
     end) /\
  (files w' = files w \/
   forall x, In x names -> mem x (map fst (load_servers w)) = true).
Proof.
  intros Hsplit. cbv zeta.
  pose proof (unknown_names_nil (n :: rest) w) as Hall.
  unfold _handle_trend. rewrite Hsplit.
  fold (unknown_names (n :: rest) w).
  destruct (int d) as [days|].
  - destruct (unknown_names (n :: rest) w) as [|u us] eqn:E.
    + destruct (plot_trend_saves_one_file env (n :: rest) days w)
        as [Hd [_ [lines Hf]]].
      destruct (plot_trend env (n :: rest) days w) as [w1 raised] eqn:Ep.
      cbn [fst snd] in Hd, Hf.
      split; [|split; [discriminate|]].
      { destruct raised as [[|err]|]; exact Hd. }
      split; [intros ? _ Hne; now elim Hne|].
      split; [|right; now apply Hall].
      intros days' [= <-] _. rewrite Ep. cbn [fst].
      destruct (savefig_at env (n :: rest) days w) as [| |err];
        destruct Hf as [-> Hf]; (split; [reflexivity|]);
        [exists lines|..]; exact Hf.
    + split; [reflexivity|]. split; [discriminate|].
      split; [reflexivity|]. split; [discriminate|]. now left.
  - split; [reflexivity|]. split; [reflexivity|].
    split; [discriminate|]. split; [discriminate|]. now left.
Qed.

(** C8 as stated fails: with a days token that is no integer, an unknown
    name is not reported; the error is the one about the days. *)
Lemma trend_days_checked_first :
  out (fst (_handle_trend env_up "trend soon ghost" orphan_world)) =
    [DaysNotInteger] /\
  out (fst (_handle_trend env_up "trend 7 ghost" orphan_world)) =
    [TrendUnknown ["ghost"]].
Proof. split; reflexivity. Qed.

Lemma trend_is_all_or_nothing_for_ghost :
  let names := ["lobby"; "ghost"] in
  let r := _handle_trend env_up "trend 7 lobby ghost" orphan_world in
  let w' := fst r in
  db w' = db orphan_world /\
  (int "7" = None -> r = (print DaysNotInteger orphan_world, None)) /\
  (forall days, int "7" = Some days -> unknown_names names orphan_world <> [] ->
     r = (print (TrendUnknown (unknown_names names orphan_world)) orphan_world,
          None)) /\
  (forall days, int "7" = Some days -> unknown_names names orphan_world = [] ->
     match savefig_at env_up names days orphan_world with
     | Saved =>
         r = (fst (plot_trend env_up names days orphan_world), None) /\
         exists lines,
           files w' =
           files orphan_world ++
           [mk_artifact (trend_filename names days) lines names]
     | SavefigValueError =>
         r = (print DaysNotInteger
                (fst (plot_trend env_up names days orphan_world)), None) /\
         files w' = files orphan_world
     | SavefigError err =>
         r = (fst (plot_trend env_up names days orphan_world), Some err) /\
         files w' = files orphan_world
     end) /\
  (files w' = files orphan_world \/
   forall x, In x names -> mem x (map fst (load_servers orphan_world)) = true).
Proof.
  apply (trend_is_all_or_nothing env_up "trend 7 lobby ghost" "trend" "7"
           "lobby" ["ghost"] orphan_world).
  reflexivity.
Defined.

(** A name that is no file name: the directory [trend_7d_a] does not
    exist, [plt.savefig] raises, and the loop of [_process_input] reports
    the exception; no figure is saved and nothing says that one was. *)
Lemma trend_of_unwritable_name :
  let w := init Cases.slash_db false in
  savefig_at Cases.env_no_directory ["a/b"] 7 w = SavefigError Cases.no_directory /\
  _handle_trend Cases.env_no_directory "trend 7 a/b" w =
    (fst (plot_trend Cases.env_no_directory ["a/b"] 7 w), Some Cases.no_directory) /\
  out (turn Cases.env_no_directory w "trend 7 a/b") =
    [ExecCommand "trend 7 a/b"; CommandError Cases.no_directory; Prompt] /\
  files (turn Cases.env_no_directory w "trend 7 a/b") = [].
Proof. repeat split. Qed.

End Trend.

(* ====================================================================== *)
(** * Strings and the reader thread *)
(* ====================================================================== *)

Ltac by_cases_on_char c :=
  destruct c as [[] [] [] [] [] [] [] []]; reflexivity.

Section Reader.

Import PyStr Statistics DBAccess MCMonitor Scheduler Statements Examples WindowsInput.

Local Open Scope Z_scope.

(** ** Characters *)

Lemma lower_char_not_upper (c : ascii) : is_upper (lower_char c) = false.
Proof. by_cases_on_char c. Qed.


Lemma lower_char_idem (c : ascii) : lower_char (lower_char c) = lower_char c.
Proof. by_cases_on_char c. Qed.

(** ** Strings *)

Lemma no_upper_iff (s : string) :
  no_upper s = true <-> lowercase (list_ascii_of_string s).
Proof.
  unfold no_upper, lowercase. rewrite forallb_forall, Forall_forall.
  split; intros H c Hc; specialize (H c Hc).
  - now apply negb_true_iff.
  - now rewrite H.
Qed.

Lemma no_upper_of_chars (l : chars) :
  no_upper (string_of_list_ascii l) = true <-> lowercase l.
Proof. now rewrite no_upper_iff, list_ascii_of_string_of_list_ascii. Qed.

Lemma lower_chars_lowercase (l : chars) : lowercase (lower_chars l).
Proof.
  unfold lowercase, lower_chars. apply Forall_forall. intros c Hc.
  apply in_map_iff in Hc. destruct Hc as [c0 [<- _]].
  apply lower_char_not_upper.
Qed.

Lemma no_upper_lower (s : string) : no_upper (lower s) = true.
Proof. unfold lower. apply no_upper_of_chars, lower_chars_lowercase. Qed.



Lemma lower_idem (s : string) : lower (lower s) = lower s.
Proof.
  unfold lower. rewrite list_ascii_of_string_of_list_ascii.
  unfold lower_chars. rewrite map_map. f_equal.
  apply map_ext, lower_char_idem.
Qed.

(** Every token of a line without uppercase letters has none. *)
Lemma split_chars_lowercase (l cur : chars) :
  lowercase cur -> lowercase l -> Forall lowercase (split_chars cur l).
Proof.
  unfold lowercase. revert cur. induction l as [|c r IH]; intros cur Hcur Hl; simpl.
  - destruct cur; constructor; [|constructor].
    apply Forall_rev in Hcur. exact Hcur.
  - inversion Hl as [|? ? Hc Hr]; subst. destruct (is_space c).
    + destruct cur.
      * now apply IH.
      * constructor; [now apply Forall_rev | now apply IH].
    + apply IH; [now constructor | assumption].
Qed.

Lemma tokens_no_upper (cmd : string) :
  no_upper cmd = true -> Forall (fun t => no_upper t = true) (split cmd).
Proof.
  rewrite no_upper_iff. intros H. unfold split. apply Forall_forall.
  intros t Ht. apply in_map_iff in Ht. destruct Ht as [l [<- Hl]].
  apply no_upper_of_chars.
  pose proof (split_chars_lowercase (list_ascii_of_string cmd) []
                (Forall_nil _) H) as Hall.
  rewrite Forall_forall in Hall. now apply Hall.
Qed.

(** ** The reader thread *)

Lemma on_key_queue (char : ascii) (i : t) :
  cmd_queue (fst (on_key char i)) = cmd_queue i \/
  (char = CR /\ line_of (buffer i) <> "" /\
   cmd_queue (fst (on_key char i)) = cmd_queue i ++ [line_of (buffer i)]).
Proof.
  unfold on_key. destruct (Ascii.eqb char CR) eqn:Ecr.
  - apply Ascii.eqb_eq in Ecr. simpl.
    destruct (String.eqb (line_of (buffer i)) "") eqn:E; [now left|].
    right. apply String.eqb_neq in E. now repeat split.
  - destruct (Ascii.eqb char BS); [destruct (buffer i)|]; now left.
Qed.

Lemma on_key_well_formed (char : ascii) (i : t) :
  Forall well_formed_command (cmd_queue i) ->
  Forall well_formed_command (cmd_queue (fst (on_key char i))).
Proof.
  intros H. destruct (on_key_queue char i) as [->|[_ [Hne ->]]]; [assumption|].
  apply Forall_app. split; [assumption|]. constructor; [|constructor].
  split; [assumption|]. unfold line_of. apply no_upper_lower.
Qed.

Lemma on_keys_well_formed (keys : list ascii) :
  forall i, Forall well_formed_command (cmd_queue i) ->
            Forall well_formed_command (cmd_queue (fst (on_keys keys i))).
Proof.
  induction keys as [|k rest IH]; intros i H; simpl; [assumption|].
  pose proof (on_key_well_formed k i H) as H1.
  destruct (on_key k i) as [i1 e1]. specialize (IH i1 H1).
  destruct (on_keys rest i1) as [i2 e2]. exact IH.
Qed.

Local Open Scope Z_scope.

(** ** Stripping does not change the tokens *)








End Reader.

(* ====================================================================== *)
(** * What each method leaves unchanged *)
(* ====================================================================== *)

Ltac case_analysis :=
  repeat match goal with
         | |- context [match ?x with _ => _ end] => destruct x eqn:?
         end.

Section Frames.

Import PyStr Statistics DBAccess MCMonitor Scheduler Statements Examples.

Local Open Scope Z_scope.

Lemma only_printed_refl (w : World) : only_printed w w.
Proof. now repeat split. Qed.

Lemma only_printed_trans (w1 w2 w3 : World) :
  only_printed w1 w2 -> only_printed w2 w3 -> only_printed w1 w3.
Proof.
  intros [H1 [H2 H3]] [K1 [K2 K3]]. repeat split; congruence.
Qed.

Lemma only_printed_print (m : msg) (w : World) : only_printed w (print m w).
Proof. now repeat split. Qed.

(** The [except] clause of [_process_input] prints at most. *)
Lemma caught_only_prints (r : World * option string) :
  only_printed (fst r) (caught r).
Proof. destruct r as [w [err|]]; now repeat split. Qed.

Lemma only_printed_loop {B} (f : World -> B -> World) (l : list B) (w : World) :
  (forall w' b, only_printed w w' -> only_printed w (f w' b)) ->
  forall w0, only_printed w w0 -> only_printed w (fold_left f l w0).
Proof. intros Hf. apply fold_left_invariant. exact Hf. Qed.

Lemma query_one_only_prints (env : Env) (w : World) (server : string * string) :
  only_printed w (query_one env w server).
Proof.
  destruct server as [name ip]. unfold query_one, ask_status.
  case_analysis; now repeat split.
Qed.

Lemma real_time_query_only_prints (env : Env) (w : World) :
  only_printed w (real_time_query env w).
Proof.
  unfold real_time_query. destruct (load_servers w) as [|s l].
  - apply only_printed_print.
  - apply only_printed_loop; [|apply only_printed_print].
    intros w' b H. eapply only_printed_trans; [exact H|].
    apply query_one_only_prints.
Qed.

Lemma report_one_only_prints (env : Env) (days : Z) (w : World)
    (server : string * string) :
  only_printed w (report_one env days w server).
Proof.
  destruct server as [name ip]. unfold report_one, ask_now.
  case_analysis; now repeat split.
Qed.

Lemma generate_report_only_prints (env : Env) (days : Z) (w : World) :
  only_printed w (generate_report env days w).
Proof.
  unfold generate_report. apply only_printed_loop.
  - intros w' b H. eapply only_printed_trans; [exact H|].
    apply report_one_only_prints.
  - now repeat split.
Qed.

Lemma list_servers_only_prints (w : World) : only_printed w (_list_servers w).
Proof.
  unfold _list_servers. destruct (load_servers w) as [|s l].
  - apply only_printed_print.
  - apply only_printed_loop; [|apply only_printed_print].
    intros w' b H. eapply only_printed_trans; [exact H|].
    apply only_printed_print.
Qed.

Lemma show_config_only_prints (w : World) : only_printed w (_show_config w).
Proof. now repeat split. Qed.

Lemma detect_one_only_prints (w : World) (server : string * string) :
  only_printed w (detect_one w server).
Proof.
  destruct server as [name ip]. unfold detect_one.
  case_analysis; now repeat split.
Qed.

Lemma detect_anomalies_only_prints (w : World) :
  only_printed w (detect_anomalies w).
Proof.
  unfold detect_anomalies. apply only_printed_loop.
  - intros w' b H. eapply only_printed_trans; [exact H|].
    apply detect_one_only_prints.
  - apply only_printed_print.
Qed.

(** The methods that write to the store leave [control] alone. *)
Lemma control_add_server (env : Env) (name ip : string) (w : World) :
  control (add_server env name ip w) = control w /\
  files (add_server env name ip w) = files w.
Proof. unfold add_server, ask_status. case_analysis; now split. Qed.

Lemma control_remove_server (name : string) (w : World) :
  control (remove_server name w) = control w /\
  files (remove_server name w) = files w.
Proof. unfold remove_server. case_analysis; now split. Qed.

Lemma control_delete_server_data (name : string) (w : World) :
  control (delete_server_data name w) = control w /\
  files (delete_server_data name w) = files w /\
  servers (db (delete_server_data name w)) = servers (db w).
Proof.
  unfold delete_server_data, _get_server_id, delete_stats_of.
  case_analysis; repeat split;
    match goal with H : (_, _) = (_, _) |- _ => now inversion H end.
Qed.

Lemma control_collect_one (env : Env) (w : World) (server : string * string) :
  control (collect_one env w server) = control w.
Proof.
  destruct server as [name ip]. unfold collect_one, ask_status, ask_now.
  case_analysis; reflexivity.
Qed.

Lemma control_collect_data (env : Env) (w : World) :
  control (collect_data env w) = control w.
Proof.
  unfold collect_data. destruct (load_servers w) as [|s l]; [reflexivity|].
  apply (fold_left_invariant (collect_one env)
           (fun w' => control w' = control w)); [|reflexivity].
  intros w' b H. now rewrite control_collect_one.
Qed.

Lemma control_clean_old_data (env : Env) (w : World) :
  control (clean_old_data env w) = control w.
Proof. unfold clean_old_data, ask_now. case_analysis; reflexivity. Qed.

Lemma control_plot_trend (env : Env) (names : list string) (days : Z) (w : World) :
  control (fst (plot_trend env names days w)) = control w.
Proof.
  unfold plot_trend, ask_savefig.
  pose proof (fold_left_invariant (plot_one env days)
                (fun acc => control (fst acc) = control w)) as Hinv.
  assert (Hstep : forall acc name, control (fst acc) = control w ->
                    control (fst (plot_one env days acc name)) = control w).
  { intros [w' lines] name H. unfold plot_one, ask_now.
    case_analysis; exact H. }
  specialize (Hinv Hstep names (w, []) eq_refl).
  destruct (fold_left (plot_one env days) names (w, [])) as [w1 lines].
  destruct (savefig_of env (io w1) (trend_filename names days)); exact Hinv.
Qed.

End Frames.

(* ====================================================================== *)
(** * Commands typed in lowercase *)
(* ====================================================================== *)

Section Commands.

Import PyStr Statistics DBAccess MCMonitor Scheduler Statements Examples.

Local Open Scope Z_scope.

Lemma touched_same (w w' : World) :
  servers (db w') = servers (db w) -> files w' = files w ->
  touched_lowercase_only w w'.
Proof.
  intros Hs Hf. unfold touched_lowercase_only. rewrite Hs, Hf.
  repeat split; intros; auto.
Qed.

Lemma touched_refl (w : World) : touched_lowercase_only w w.
Proof. now apply touched_same. Qed.

Lemma touched_trans (w1 w2 w3 : World) :
  touched_lowercase_only w1 w2 -> touched_lowercase_only w2 w3 ->
  touched_lowercase_only w1 w3.
Proof.
  intros [A1 [A2 A3]] [B1 [B2 B3]]. repeat split.
  - intros s Hs. destruct (B1 s Hs) as [H|H]; [now apply A1 | now right].
  - intros s Hs Hup. apply B2; [now apply A2 | assumption].
  - intros a Ha. destruct (B3 a Ha) as [H|H]; [now apply A3 | now right].
Qed.

Lemma touched_only_printed (w w' : World) :
  only_printed w w' -> touched_lowercase_only w w'.
Proof. intros [Hd [Hf _]]. apply touched_same; [now rewrite Hd | assumption]. Qed.

Lemma touched_add_server (env : Env) (name ip : string) (w : World) :
  no_upper name = true -> no_upper ip = true ->
  touched_lowercase_only w (add_server env name ip w).
Proof.
  intros Hn Hi. unfold add_server, ask_status.
  destruct (status_of env (io w) ip) as [online|err].
  - change (db (next_io w)) with (db w). unfold insert_server.
    destruct (existsb _ (servers (db w))); [now apply touched_same|].
    repeat split; simpl.
    + intros s Hs. apply in_app_or in Hs. destruct Hs as [Hs|[<-|[]]];
        [now left | right; now split].
    + intros s Hs _. apply in_or_app. now left.
    + intros a Ha. now left.
  - destruct (contains "timed out" err); now apply touched_same.
Qed.

Lemma touched_remove_server (name : string) (w : World) :
  no_upper name = true -> touched_lowercase_only w (remove_server name w).
Proof.
  intros Hn. destruct (control_remove_server name w) as [_ Hf].
  unfold touched_lowercase_only. rewrite Hf, db_remove_server. simpl.
  repeat split.
  - intros s Hs. apply filter_In in Hs. now left.
  - intros s Hs Hup. apply filter_In. split; [assumption|].
    apply negb_true_iff, String.eqb_neq. intros E. congruence.
  - intros a Ha. now left.
Qed.

Lemma touched_delete_server_data (name : string) (w : World) :
  touched_lowercase_only w (delete_server_data name w).
Proof.
  destruct (control_delete_server_data name w) as [_ [Hf Hs]].
  now apply touched_same.
Qed.

Lemma touched_plot_trend (env : Env) (names : list string) (days : Z)
    (w : World) :
  Forall (fun n => no_upper n = true) names ->
  touched_lowercase_only w (fst (plot_trend env names days w)).
Proof.
  intros Hn.
  destruct (plot_trend_saves_one_file env names days w) as [Hd [_ [lines Hf]]].
  unfold touched_lowercase_only. rewrite Hd.
  destruct (savefig_at env names days w); destruct Hf as [_ Hf]; rewrite Hf;
    repeat split; auto.
  intros a Ha. apply in_app_or in Ha. destruct Ha as [Ha|[<-|[]]];
    [now left | now right].
Qed.

Section LowercaseCommand.

Variable env : Env.
Variable cmd : string.
Hypothesis cmd_lowercase : no_upper cmd = true.

Lemma tokens_lowercase : Forall (fun t => no_upper t = true) (split cmd).
Proof. exact (tokens_no_upper cmd cmd_lowercase). Qed.

Lemma touched_handle_add (w : World) :
  touched_lowercase_only w (_handle_add env cmd w).
Proof.
  unfold _handle_add. pose proof tokens_lowercase as H.
  destruct (split cmd) as [|t [|name [|ip [|x r]]]];
    try (apply touched_only_printed, only_printed_print).
  inversion H as [|? ? _ H1]; subst. inversion H1 as [|? ? Hn H2]; subst.
  inversion H2 as [|? ? Hi _]; subst. now apply touched_add_server.
Qed.

Lemma touched_handle_remove (w : World) :
  touched_lowercase_only w (_handle_remove cmd w).
Proof.
  unfold _handle_remove. pose proof tokens_lowercase as H.
  destruct (split cmd) as [|t [|name [|x r]]];
    try (apply touched_only_printed, only_printed_print).
  inversion H as [|? ? _ H1]; subst. inversion H1 as [|? ? Hn _]; subst.
  now apply touched_remove_server.
Qed.

Lemma touched_handle_delete (w : World) :
  touched_lowercase_only w (_handle_delete cmd w).
Proof.
  unfold _handle_delete.
  destruct (split cmd) as [|t [|name [|x r]]];
    try (apply touched_only_printed, only_printed_print).
  apply touched_delete_server_data.
Qed.

Lemma touched_handle_report (w : World) :
  touched_lowercase_only w (_handle_report env cmd w).
Proof.
  unfold _handle_report.
  destruct (match split cmd with _ :: d :: _ => int d | _ => Some 1 end).
  - apply touched_only_printed, generate_report_only_prints.
  - apply touched_only_printed, only_printed_print.
Qed.

Lemma touched_handle_trend (w : World) :
  touched_lowercase_only w (fst (_handle_trend env cmd w)).
Proof.
  unfold _handle_trend. pose proof tokens_lowercase as H.
  destruct (split cmd) as [|t [|d [|n r]]];
    try (apply touched_only_printed, only_printed_print).
  destruct (int d) as [days|];
    [|apply touched_only_printed, only_printed_print].
  destruct (filter _ (n :: r));
    [|apply touched_only_printed, only_printed_print].
  assert (Hp : touched_lowercase_only w (fst (plot_trend env (n :: r) days w))).
  { apply touched_plot_trend.
    inversion H as [|? ? _ H1]; subst. now inversion H1. }
  destruct (plot_trend env (n :: r) days w) as [w1 [[|err]|]];
    cbn [fst] in *; exact Hp.
Qed.

Lemma touched_execute_command (w : World) :
  touched_lowercase_only w (fst (_execute_command env cmd w)).
Proof.
  unfold _execute_command.
  repeat match goal with
         | |- context [if ?b then _ else _] => destruct b
         end; cbn [fst].
  - now apply touched_same.
  - apply touched_only_printed, only_printed_print.
  - apply touched_only_printed, real_time_query_only_prints.
  - apply touched_only_printed, list_servers_only_prints.
  - apply touched_handle_add.
  - apply touched_handle_remove.
  - apply touched_handle_delete.
  - apply touched_handle_report.
  - apply touched_handle_trend.
  - apply touched_only_printed, show_config_only_prints.
  - apply touched_only_printed, only_printed_print.
Qed.

Lemma touched_turn (w : World) : touched_lowercase_only w (turn env w cmd).
Proof.
  unfold turn.
  apply touched_trans with (print (ExecCommand cmd) w);
    [apply touched_only_printed, only_printed_print|].
  eapply touched_trans; [apply touched_execute_command|].
  eapply touched_trans; [apply touched_only_printed, caught_only_prints|].
  apply touched_only_printed, only_printed_print.
Qed.

End LowercaseCommand.

(** The loop of [_process_input] empties a queue without empty commands. *)
Lemma drain_all (env : Env) (q : list string) :
  Forall (fun c => c <> "") q ->
  forall w, drain env q w = (fold_left (turn env) q w, []).
Proof.
  induction 1 as [|c q Hc _ IH]; intros w; simpl; [reflexivity|].
  apply String.eqb_neq in Hc. rewrite Hc. apply IH.
Qed.

Lemma well_formed_nonempty (q : list string) :
  Forall well_formed_command q -> Forall (fun c => c <> "") q.
Proof. apply Forall_impl. now intros c [H _]. Qed.

Lemma touched_turns (env : Env) (q : list string) :
  Forall well_formed_command q ->
  forall w, touched_lowercase_only w (fold_left (turn env) q w).
Proof.
  induction 1 as [|c q [_ Hc] _ IH]; intros w; simpl; [apply touched_refl|].
  eapply touched_trans; [apply touched_turn; exact Hc | apply IH].
Qed.

Lemma process_input_eq (env : Env) (w : World) :
  Forall well_formed_command (WindowsInput.cmd_queue (input_handler w)) ->
  _process_input env w =
  set_input (WindowsInput.mk (WindowsInput.buffer (input_handler w)) [])
    (fold_left (turn env) (WindowsInput.cmd_queue (input_handler w)) w).
Proof.
  intros H. unfold _process_input.
  now rewrite (drain_all env _ (well_formed_nonempty _ H)).
Qed.

Lemma feed_frame (ks : list ascii) (w : World) :
  db (feed ks w) = db w /\ files (feed ks w) = files w /\
  running (feed ks w) = running w /\
  never_delete_data (feed ks w) = never_delete_data w /\
  input_handler (feed ks w) = fst (WindowsInput.on_keys ks (input_handler w)).
Proof.
  unfold feed. destruct (WindowsInput.on_keys ks (input_handler w)) as [i es].
  simpl.
  assert (H : forall es w0, db (fold_left (fun w e => print (Echo e) w) es w0) = db w0 /\
            files (fold_left (fun w e => print (Echo e) w) es w0) = files w0 /\
            running (fold_left (fun w e => print (Echo e) w) es w0) = running w0 /\
            never_delete_data (fold_left (fun w e => print (Echo e) w) es w0)
              = never_delete_data w0).
  { intros es0. induction es0 as [|e r IH]; intros w0; simpl; [now repeat split|].
    destruct (IH (print (Echo e) w0)) as [A [B [C D]]]. now repeat split. }
  destruct (H es w) as [A [B [C D]]]. now repeat split.
Qed.

End Commands.

(* ====================================================================== *)
(** * The scheduler loop *)
(* ====================================================================== *)

Section Loop.

Import PyStr Statistics DBAccess MCMonitor Scheduler Statements Examples.

Local Open Scope Z_scope.

Lemma tick_eq (env : Env) (inp : TickInput) (s : Loop) :
  world (fst (tick env inp s)) =
    scheduled env inp s (_process_input env (feed (keys inp) (world s))) /\
  snd (tick env inp s) = due inp s.
Proof.
  unfold tick, scheduled, due.
  destruct (Qle_bool _ _), (report_due _), (7 <=? _), (minute _ =? 0);
    split; reflexivity.
Qed.

Lemma control_only_printed (w w' : World) :
  only_printed w w' -> control w' = control w.
Proof. now intros [_ [_ H]]. Qed.

Lemma control_scheduled (env : Env) (inp : TickInput) (s : Loop) (w : World) :
  control (scheduled env inp s w) = control w.
Proof.
  unfold scheduled.
  destruct (Qle_bool _ _), (report_due _), (7 <=? _), (minute _ =? 0);
    rewrite ?(control_only_printed _ _ (detect_anomalies_only_prints _)),
            ?control_clean_old_data,
            ?(control_only_printed _ _ (generate_report_only_prints _ _ _)),
            ?control_collect_data; reflexivity.
Qed.

(** ** [running] under the commands *)

Lemma running_control (w w' : World) :
  control w' = control w -> running w' = running w.
Proof. unfold control. now intros [= H _ _]. Qed.

Lemma control_handle_add (env : Env) (cmd : string) (w : World) :
  control (_handle_add env cmd w) = control w.
Proof.
  unfold _handle_add. destruct (split cmd) as [|t [|name [|ip [|x r]]]];
    try reflexivity. apply control_add_server.
Qed.

Lemma control_handle_remove (cmd : string) (w : World) :
  control (_handle_remove cmd w) = control w.
Proof.
  unfold _handle_remove. destruct (split cmd) as [|t [|name [|x r]]];
    try reflexivity. apply control_remove_server.
Qed.

Lemma control_handle_delete (cmd : string) (w : World) :
  control (_handle_delete cmd w) = control w.
Proof.
  unfold _handle_delete. destruct (split cmd) as [|t [|name [|x r]]];
    try reflexivity. apply control_delete_server_data.
Qed.

Lemma control_handle_report (env : Env) (cmd : string) (w : World) :
  control (_handle_report env cmd w) = control w.
Proof.
  unfold _handle_report.
  destruct (match split cmd with _ :: d :: _ => int d | _ => Some 1 end);
    [|reflexivity].
  apply control_only_printed, generate_report_only_prints.
Qed.

Lemma control_handle_trend (env : Env) (cmd : string) (w : World) :
  control (fst (_handle_trend env cmd w)) = control w.
Proof.
  unfold _handle_trend. destruct (split cmd) as [|t [|d [|n r]]];
    try reflexivity.
  destruct (int d) as [days|]; [|reflexivity].
  destruct (filter _ (n :: r)); [|reflexivity].
  pose proof (control_plot_trend env (n :: r) days w) as H.
  now destruct (plot_trend env (n :: r) days w) as [w1 [[|err]|]].
Qed.

(** [exit] clears the flag; no other command touches it. *)
Lemma running_execute_command (env : Env) (cmd : string) (w : World) :
  running (fst (_execute_command env cmd w)) =
  if String.eqb cmd "exit" then false else running w.
Proof.
  unfold _execute_command. destruct (String.eqb cmd "exit"); [reflexivity|].
  apply running_control.
  repeat match goal with
         | |- context [if ?b then _ else _] => destruct b
         end; cbn [fst];
    first [ reflexivity
          | apply control_only_printed, real_time_query_only_prints
          | apply control_only_printed, list_servers_only_prints
          | apply control_handle_add | apply control_handle_remove
          | apply control_handle_delete | apply control_handle_report
          | apply control_handle_trend ].
Qed.

Lemma running_turn (env : Env) (w : World) (cmd : string) :
  running (turn env w cmd) =
  if String.eqb cmd "exit" then false else running w.
Proof.
  unfold turn.
  transitivity
    (running (fst (_execute_command env cmd (print (ExecCommand cmd) w))));
    [|apply (running_execute_command env cmd (print (ExecCommand cmd) w))].
  now destruct (_execute_command env cmd (print (ExecCommand cmd) w))
    as [w1 [err|]].
Qed.

Lemma running_turns (env : Env) (q : list string) :
  forall w, running (fold_left (turn env) q w) =
            running w && negb (mem "exit" q).
Proof.
  induction q as [|c q IH]; intros w.
  - simpl. now rewrite andb_true_r.
  - cbn [fold_left]. rewrite IH, running_turn.
    unfold mem. cbn [existsb]. rewrite (String.eqb_sym "exit" c).
    destruct (String.eqb c "exit"); [|reflexivity].
    cbn [orb negb]. now rewrite andb_false_r.
Qed.

(** C10.  In a pass of the loop whose queue holds [exit]: every command
    of the queue is executed, in order, those behind [exit] included; the
    scheduled actions whose conditions hold run after that; the flag is
    cleared when the pass ends, and the loop makes no further pass. *)
Theorem exit_finishes_the_pass (env : Env) (inp : TickInput)
    (rest : list TickInput) (s : Loop) (before after : list string) :
  running (world s) = true ->
  Forall well_formed_command (WindowsInput.cmd_queue (input_handler (world s))) ->
  let w0 := feed (keys inp) (world s) in
  WindowsInput.cmd_queue (input_handler w0) = before ++ "exit" :: after ->
  let w_exit := turn env (fold_left (turn env) before w0) "exit" in
  let w1 := set_input (WindowsInput.mk (WindowsInput.buffer (input_handler w0)) [])
              (fold_left (turn env) after w_exit) in
  running w_exit = false /\
  _process_input env w0 = w1 /\
  world (fst (tick env inp s)) = scheduled env inp s w1 /\
  snd (tick env inp s) = due inp s /\
  running (world (fst (tick env inp s))) = false /\
  loop env (inp :: rest) s = (fst (tick env inp s), [(inp, due inp s)]).
Proof.
  intros Hrun Hq. cbv zeta. intros Hexit.
  destruct (feed_frame (keys inp) (world s)) as [_ [_ [_ [_ Hin]]]].
  assert (Hq0 : Forall well_formed_command
                  (WindowsInput.cmd_queue (input_handler (feed (keys inp) (world s)))))
    by (rewrite Hin; now apply on_keys_well_formed).
  pose proof (process_input_eq env _ Hq0) as Hproc.
  rewrite Hexit, fold_left_app in Hproc. cbn [fold_left] in Hproc.
  destruct (tick_eq env inp s) as [Hw Hacts].
  assert (Hflag : running (turn env (fold_left (turn env) before
                                       (feed (keys inp) (world s))) "exit") = false)
    by (now rewrite running_turn).
  assert (Hstop : running (world (fst (tick env inp s))) = false).
  { rewrite Hw. rewrite (running_control _ _ (control_scheduled env inp s _)).
    rewrite Hproc. simpl. now rewrite running_turns, Hflag. }
  split; [exact Hflag|]. split; [exact Hproc|]. split; [now rewrite Hw, Hproc|].
  split; [exact Hacts|]. split; [exact Hstop|].
  simpl. rewrite Hrun.
  destruct (tick env inp s) as [s1 acts] eqn:Et. simpl in *.
  destruct rest as [|inp2 rest]; simpl; [now rewrite Hacts|].
  now rewrite Hstop, Hacts.
Qed.

Lemma exit_finishes_the_pass_then_list :
  running (world (fst (tick env_up exit_pass entered))) = false /\
  loop env_up [exit_pass; exit_pass] entered =
    (fst (tick env_up exit_pass entered), [(exit_pass, due exit_pass entered)]) /\
  filter (fun m => match m with ExecCommand _ => true | _ => false end)
    (out (world (fst (tick env_up exit_pass entered)))) =
    [ExecCommand "exit"; ExecCommand "list"].
Proof.
  destruct (exit_finishes_the_pass env_up exit_pass [exit_pass] entered
              [] ["list"] eq_refl (Forall_nil _) eq_refl)
    as [_ [_ [_ [_ [Hstop Hloop]]]]].
  split; [exact Hstop|]. split; [exact Hloop|]. reflexivity.
Defined.

(** The daily report runs in a pass exactly when the local time is in the
    window; whether it has run on that day is not asked. *)
Lemma daily_report_runs_iff (env : Env) (inp : TickInput) (s : Loop) :
  In DailyReport (snd (tick env inp s)) <->
  hour (now inp) = 8 /\ minute (now inp) < 5.
Proof.
  destruct (tick_eq env inp s) as [_ ->]. unfold due, report_due.
  rewrite <- Z.eqb_eq, <- Z.ltb_lt, <- andb_true_iff.
  destruct ((hour (now inp) =? 8) && (minute (now inp) <? 5)).
  - split; [reflexivity|]. intros _. apply in_or_app. right. now left.
  - split; [|discriminate]. intros H.
    repeat (apply in_app_or in H; destruct H as [H|H]);
      repeat match goal with
             | H : In _ (if ?b then _ else _) |- _ => destruct b
             | H : In _ [] |- _ => destruct H
             | H : In _ [_] |- _ => destruct H as [H|H]; try discriminate H
             end.
Qed.

Local Open Scope Z_scope.

(** The scheduled actions write to [stats] at most. *)
Lemma collect_one_keeps_servers (env : Env) (w : World) (server : string * string) :
  servers (db (collect_one env w server)) = servers (db w) /\
  files (collect_one env w server) = files w.
Proof.
  destruct server as [name ip]. unfold collect_one, ask_status, ask_now.
  case_analysis; now split.
Qed.

Lemma collect_data_keeps_servers (env : Env) (w : World) :
  servers (db (collect_data env w)) = servers (db w) /\
  files (collect_data env w) = files w.
Proof.
  unfold collect_data. destruct (load_servers w) as [|s l]; [now split|].
  apply (fold_left_invariant (collect_one env)
           (fun w' => servers (db w') = servers (db w) /\ files w' = files w));
    [|now split].
  intros w' b [Hs Hf]. destruct (collect_one_keeps_servers env w' b) as [Hs' Hf'].
  split; congruence.
Qed.

Lemma clean_old_data_keeps_servers (env : Env) (w : World) :
  servers (db (clean_old_data env w)) = servers (db w) /\
  files (clean_old_data env w) = files w.
Proof.
  unfold clean_old_data, ask_now, delete_stats_before.
  case_analysis; split; try reflexivity;
    match goal with H : (_, _) = (_, _) |- _ => now inversion H end.
Qed.

Lemma touched_scheduled (env : Env) (inp : TickInput) (s : Loop) (w : World) :
  touched_lowercase_only w (scheduled env inp s w).
Proof.
  unfold scheduled.
  set (w2 := if Qle_bool _ _ then collect_data env w else w).
  set (w3 := if report_due _ then generate_report env 1 w2 else w2).
  set (w4 := if 7 <=? _ then clean_old_data env w3 else w3).
  apply touched_trans with w4; [apply touched_trans with w3;
                                [apply touched_trans with w2|]|].
  - subst w2. destruct (Qle_bool _ _); [|apply touched_refl].
    apply touched_same; apply collect_data_keeps_servers.
  - subst w3. destruct (report_due _); [|apply touched_refl].
    apply touched_only_printed, generate_report_only_prints.
  - subst w4. destruct (7 <=? _); [|apply touched_refl].
    apply touched_same; apply clean_old_data_keeps_servers.
  - destruct (minute _ =? 0); [|apply touched_refl].
    apply touched_only_printed, detect_anomalies_only_prints.
Qed.

(** One pass: what the queue holds is well formed before, and the queue is
    empty after. *)
Lemma tick_touches_lowercase_only (env : Env) (inp : TickInput) (s : Loop) :
  Forall well_formed_command (WindowsInput.cmd_queue (input_handler (world s))) ->
  touched_lowercase_only (world s) (world (fst (tick env inp s))) /\
  WindowsInput.cmd_queue (input_handler (world (fst (tick env inp s)))) = [].
Proof.
  intros Hq.
  destruct (feed_frame (keys inp) (world s)) as [Hd [Hf [_ [_ Hin]]]].
  assert (Hq0 : Forall well_formed_command
                  (WindowsInput.cmd_queue (input_handler (feed (keys inp) (world s)))))
    by (rewrite Hin; now apply on_keys_well_formed).
  destruct (tick_eq env inp s) as [-> _].
  rewrite (process_input_eq env _ Hq0). split.
  - apply touched_trans with (feed (keys inp) (world s));
      [apply touched_same; [now rewrite Hd | assumption]|].
    eapply touched_trans; [|apply touched_scheduled].
    eapply touched_trans; [apply (touched_turns env _ Hq0)|].
    now apply touched_same.
  - pose proof (control_scheduled env inp s
                  (set_input
                     (WindowsInput.mk
                        (WindowsInput.buffer (input_handler (feed (keys inp) (world s)))) [])
                     (fold_left (turn env)
                        (WindowsInput.cmd_queue (input_handler (feed (keys inp) (world s))))
                        (feed (keys inp) (world s))))) as Hc.
    unfold control in Hc. injection Hc as _ _ ->. reflexivity.
Qed.



(** A pass before which nothing was typed, entered with an empty queue,
    leaves the flag and the queue as they were. *)
Lemma idle_pass_keeps_running (env : Env) (inp : TickInput) (s : Loop) :
  keys inp = [] ->
  WindowsInput.cmd_queue (input_handler (world s)) = [] ->
  running (world (fst (tick env inp s))) = running (world s) /\
  WindowsInput.cmd_queue (input_handler (world (fst (tick env inp s)))) = [].
Proof.
  intros Hk Hq.
  assert (Hwf : Forall well_formed_command
                  (WindowsInput.cmd_queue (input_handler (world s))))
    by (rewrite Hq; constructor).
  destruct (tick_touches_lowercase_only env inp s Hwf) as [_ Hempty].
  split; [|exact Hempty].
  destruct (tick_eq env inp s) as [-> _].
  rewrite (running_control _ _ (control_scheduled env inp s _)).
  destruct (feed_frame (keys inp) (world s)) as [_ [_ [_ [_ Hin]]]].
  unfold _process_input. rewrite Hin, Hk. cbn [WindowsInput.on_keys fst].
  rewrite Hq. reflexivity.
Qed.

(** While nothing is typed, the report runs in every pass made in the
    window: as many reports on a day as passes between 08:00 and 08:05. *)
Lemma report_runs_in_every_pass (env : Env) (d : Z) (inputs : list TickInput) :
  Forall (fun inp => keys inp = [] /\ report_due (now inp) = true /\
                     date (now inp) = d) inputs ->
  forall s, running (world s) = true ->
    WindowsInput.cmd_queue (input_handler (world s)) = [] ->
    reports_on d (snd (loop env inputs s)) = List.length inputs.
Proof.
  induction 1 as [|inp rest [Hk [Hdue Hd]] _ IH]; intros s Hrun Hq;
    [reflexivity|].
  cbn [loop]. rewrite Hrun.
  destruct (idle_pass_keeps_running env inp s Hk Hq) as [Hrun1 Hq1].
  destruct (tick_eq env inp s) as [_ Hacts].
  destruct (tick env inp s) as [s1 acts]. simpl in Hrun1, Hq1, Hacts.
  rewrite Hrun in Hrun1. specialize (IH s1 Hrun1 Hq1).
  destruct (loop env rest s1) as [s2 trace]. simpl in IH.
  unfold reports_on. cbn [snd fst filter].
  replace (date (now inp) =? d) with true by (symmetry; now apply Z.eqb_eq).
  replace (existsb _ acts) with true.
  - cbn [andb List.length]. f_equal. exact IH.
  - symmetry. apply existsb_exists. exists DailyReport. split; [|reflexivity].
    rewrite Hacts. unfold due. rewrite Hdue.
    apply in_or_app. right. now left.
Qed.

(** C3 at two consecutive passes, a tenth of a second apart, at 08:02 of
    the same day: the daily report runs in both. *)
Theorem daily_report_runs_twice :
  let r := run env_up 1000 (two_past_eight - us_per_hour) two_passes
             (init idle_db false) in
  map snd (snd r) = [[DailyReport]; [DailyReport]] /\
  map (fun e => date (now (fst e))) (snd r) = [3; 3] /\
  reports_on 3 (snd r) = 2%nat /\
  List.length (filter (fun m => match m with ReportStart => true | _ => false end)
                 (out (world (fst r)))) = 2%nat.
Proof.
  cbv zeta. split; [|split; [|split]].
  - vm_compute. reflexivity.
  - vm_compute. reflexivity.
  - vm_compute. reflexivity.
  - vm_compute. reflexivity.
Qed.

End Loop.

(* ====================================================================== *)
(** * The connection never enforces foreign keys *)
(* ====================================================================== *)

Section Pragma.

Import PyStr Statistics DBAccess MCMonitor Scheduler Statements Examples.

Lemma pragma_only_printed (w w' : World) : only_printed w w' -> foreign_keys (db w') = foreign_keys (db w).
Proof. intros [-> _]. reflexivity. Qed.

Lemma pragma_add_server (env : Env) (name ip : string) (w : World) :
  foreign_keys (db (add_server env name ip w)) = foreign_keys (db w).
Proof.
  unfold add_server, ask_status, insert_server.
  destruct (status_of env (io w) ip); [|now destruct (contains _ _)].
  change (db (next_io w)) with (db w).
  now destruct (existsb _ (servers (db w))).
Qed.

Lemma pragma_remove_server (name : string) (w : World) :
  foreign_keys (db (remove_server name w)) = foreign_keys (db w).
Proof. now rewrite db_remove_server. Qed.

Lemma pragma_delete_server_data (name : string) (w : World) :
  foreign_keys (db (delete_server_data name w)) = foreign_keys (db w).
Proof.
  unfold delete_server_data, _get_server_id, delete_stats_of.
  destruct (select_id name (db w)) as [i|]; [|reflexivity].
  now destruct (i =? 0).
Qed.

Lemma pragma_collect_data (env : Env) (w : World) :
  foreign_keys (db (collect_data env w)) = foreign_keys (db w).
Proof.
  unfold collect_data. destruct (load_servers w) as [|s l]; [reflexivity|].
  apply (fold_left_invariant (collect_one env) (fun w' => foreign_keys (db w') = foreign_keys (db w)));
    [|reflexivity].
  intros w' [name ip] H. unfold collect_one, ask_status, ask_now.
  destruct (status_of env (io w') ip) as [online|err]; [|exact H].
  now destruct (fits_integer online).
Qed.

Lemma pragma_clean_old_data (env : Env) (w : World) :
  foreign_keys (db (clean_old_data env w)) = foreign_keys (db w).
Proof. unfold clean_old_data. now destruct (never_delete_data w). Qed.

Lemma pragma_plot_trend (env : Env) (names : list string) (days : Z) (w : World) :
  foreign_keys (db (fst (plot_trend env names days w))) = foreign_keys (db w).
Proof. now destruct (plot_trend_saves_one_file env names days w) as [-> _]. Qed.

Lemma pragma_execute_command (env : Env) (cmd : string) (w : World) :
  foreign_keys (db (fst (_execute_command env cmd w))) = foreign_keys (db w).
Proof.
  unfold _execute_command.
  repeat match goal with
         | |- context [if ?b then _ else _] => destruct b
         end; cbn [fst]; try reflexivity.
  - apply pragma_only_printed, real_time_query_only_prints.
  - apply pragma_only_printed, list_servers_only_prints.
  - unfold _handle_add. destruct (split cmd) as [|t [|name [|ip [|x r]]]];
      try reflexivity. apply pragma_add_server.
  - unfold _handle_remove. destruct (split cmd) as [|t [|name [|x r]]];
      try reflexivity. apply pragma_remove_server.
  - unfold _handle_delete. destruct (split cmd) as [|t [|name [|x r]]];
      try reflexivity. apply pragma_delete_server_data.
  - unfold _handle_report.
    destruct (match split cmd with _ :: d :: _ => int d | _ => Some 1 end);
      [|reflexivity].
    apply pragma_only_printed, generate_report_only_prints.
  - unfold _handle_trend. destruct (split cmd) as [|t [|d [|n r]]];
      try reflexivity.
    destruct (int d) as [days|]; [|reflexivity].
    destruct (filter _ (n :: r)); [|reflexivity].
    pose proof (pragma_plot_trend env (n :: r) days w) as H.
    now destruct (plot_trend env (n :: r) days w) as [w1 [[|err]|]].
Qed.

Lemma pragma_drain (env : Env) (q : list string) :
  forall w, foreign_keys (db (fst (drain env q w))) = foreign_keys (db w).
Proof.
  induction q as [|c q IH]; intros w; simpl; [reflexivity|].
  destruct (String.eqb c ""); [reflexivity|].
  rewrite IH. simpl.
  rewrite (proj1 (caught_only_prints _)).
  apply (pragma_execute_command env c (print (ExecCommand c) w)).
Qed.

Lemma pragma_tick (env : Env) (inp : TickInput) (s : Loop) :
  foreign_keys (db (world (fst (tick env inp s)))) =
  foreign_keys (db (world s)).
Proof.
  destruct (tick_eq env inp s) as [-> _]. unfold scheduled, _process_input.
  pose proof (pragma_drain env
                (WindowsInput.cmd_queue (input_handler (feed (keys inp) (world s))))
                (feed (keys inp) (world s))) as Hd.
  destruct (drain env _ (feed (keys inp) (world s))) as [w1 rest].
  simpl in Hd. destruct (feed_frame (keys inp) (world s)) as [Hf _].
  rewrite Hf in Hd.
  repeat match goal with
         | |- context [if ?b then _ else _] => destruct b
         end;
    rewrite ?(pragma_only_printed _ _ (detect_anomalies_only_prints _)),
            ?pragma_clean_old_data,
            ?(pragma_only_printed _ _ (generate_report_only_prints _ _ _)),
            ?pragma_collect_data; exact Hd.
Qed.

Lemma pragma_loop (env : Env) (inputs : list TickInput) :
  forall s, foreign_keys (db (world (fst (loop env inputs s)))) =
            foreign_keys (db (world s)).
Proof.
  induction inputs as [|inp rest IH]; intros s; simpl; [reflexivity|].
  destruct (running (world s)); [|reflexivity].
  pose proof (pragma_tick env inp s) as Ht.
  destruct (tick env inp s) as [s1 acts]. specialize (IH s1).
  destruct (loop env rest s1) as [s2 trace]. simpl in *. congruence.
Qed.

(** Whatever the file holds and whatever happens in a run, the connection
    that [DBAccess] opened ignores [ON DELETE CASCADE]. *)
Lemma foreign_keys_stay_off (env : Env) (time0 : Q) (now0 : Z)
    (inputs : list TickInput) (never_delete : bool)
    (file_servers : list server) (file_stats : list stat) (q1 q2 : Z) :
  foreign_keys
    (db (world (fst (run env time0 now0 inputs
                       (init (connect file_servers file_stats q1 q2)
                          never_delete))))) = false.
Proof.
  unfold run.
  pose proof (pragma_loop env inputs
                (start time0 now0
                   (init (connect file_servers file_stats q1 q2) never_delete)))
    as H.
  destruct (loop env inputs _) as [s trace]. simpl in H.
  now destruct (running (world s)).
Qed.

End Pragma.

(* ====================================================================== *)
(** * The store stays consistent *)
(* ====================================================================== *)

Section StoreIntegrity.

Import PyStr Statistics DBAccess MCMonitor Scheduler Statements Examples.
Import Integrity Display Cases.

Local Open Scope Z_scope.

(** ** Lists without repetition *)

Lemma distinct_ints_NoDup (l : list Z) : distinct_ints l = true <-> NoDup l.
Proof.
  induction l as [|x r IH]; simpl.
  - split; [constructor|reflexivity].
  - rewrite andb_true_iff, negb_true_iff, IH. split.
    + intros [H1 H2]. constructor; [|assumption].
      intros Hin. assert (E : existsb (Z.eqb x) r = true)
        by (apply existsb_exists; exists x; split; [assumption|apply Z.eqb_refl]).
      congruence.
    + intros H. inversion H as [|? ? Hx Hr]; subst. split; [|assumption].
      destruct (existsb (Z.eqb x) r) eqn:E; [|reflexivity].
      apply existsb_exists in E. destruct E as [y [Hy E]].
      apply Z.eqb_eq in E. subst y. contradiction.
Qed.

Lemma NoDup_snoc {A} (l : list A) (x : A) :
  NoDup l -> ~ In x l -> NoDup (l ++ [x]).
Proof.
  induction 1 as [|a l Ha Hl IH]; intros Hx; simpl.
  - constructor; [intros []|constructor].
  - constructor.
    + intros Hin. apply in_app_or in Hin. destruct Hin as [Hin|[E|[]]].
      * contradiction.
      * apply Hx. now left.
    + apply IH. intros Hin. apply Hx. now right.
Qed.

(** A key that is unique among rows is unique among the rows selected. *)
Lemma unique_key_kept {Row Key} (key : Row -> Key) (keep : Row -> bool)
    (rows : list Row) :
  NoDup (map key rows) -> NoDup (map key (filter keep rows)).
Proof.
  intros Hnd. induction rows as [|r rows IH]; [constructor|].
  simpl in Hnd. inversion Hnd as [|? ? Hr Hrows]; subst. simpl.
  destruct (keep r); [|now apply IH]. simpl. constructor; [|now apply IH].
  intros Hin. apply Hr. apply in_map_iff in Hin. destruct Hin as [b [E Hb]].
  apply filter_In in Hb. apply in_map_iff. exists b. now split.
Qed.

Lemma Forall_kept {A} (P : A -> Prop) (p : A -> bool) (l : list A) :
  Forall P l -> Forall P (filter p l).
Proof.
  rewrite !Forall_forall. intros H x Hx. apply filter_In in Hx. now apply H.
Qed.

(** ** The checks of [consistent] *)

Lemma issued_iff (seq i : Z) : issued seq i = true <-> 1 <= i <= seq.
Proof. unfold issued. rewrite andb_true_iff, !Z.leb_le. reflexivity. Qed.

Lemma forallb_Forall {A} (p : A -> bool) (P : A -> Prop) (l : list A) :
  (forall x, p x = true <-> P x) -> forallb p l = true <-> Forall P l.
Proof.
  intros H. rewrite forallb_forall, Forall_forall.
  split; intros K x Hx; apply H, K, Hx.
Qed.

Lemma consistent_iff (d : database) : consistent d = true <-> Consistent d.
Proof.
  unfold consistent, Consistent.
  rewrite !andb_true_iff, !distinct_strings_NoDup, !distinct_ints_NoDup.
  rewrite !Z.leb_le.
  rewrite (forallb_Forall _ (fun s => 1 <= srv_id s <= seq_servers d));
    [|intros s; apply issued_iff].
  rewrite (forallb_Forall _ (fun r => 1 <= stat_id r <= seq_stats d));
    [|intros r; apply issued_iff].
  rewrite (forallb_Forall (refers_to_issued (seq_servers d))
             (fun r => exists i, stat_server_id r = Some i /\
                                 1 <= i <= seq_servers d)).
  - tauto.
  - intros r. unfold refers_to_issued. destruct (stat_server_id r) as [i|].
    + rewrite issued_iff. split.
      * intros H. now exists i.
      * intros [j [[= <-] H]]. exact H.
    + split; [discriminate|]. intros [j [E _]]. discriminate E.
Qed.

(** ** The statements that write *)

Lemma insert_server_fresh (name ip : string) (d d' : database) :
  insert_server name ip d = Some d' ->
  ~ In name (map srv_name (servers d)) /\ ~ In ip (map srv_ip (servers d)) /\
  d' = {| servers := servers d ++ [mk_server (seq_servers d + 1) name ip];
          stats := stats d;
          seq_servers := seq_servers d + 1;
          seq_stats := seq_stats d;
          foreign_keys := foreign_keys d |}.
Proof.
  unfold insert_server.
  destruct (existsb _ (servers d)) eqn:E; [discriminate|].
  intros [= <-].
  assert (H : forall s, In s (servers d) ->
                String.eqb (srv_name s) name = false /\
                String.eqb (srv_ip s) ip = false).
  { intros s Hs. destruct (String.eqb (srv_name s) name) eqn:E1;
      destruct (String.eqb (srv_ip s) ip) eqn:E2; try (now split);
      exfalso;
      (assert (Ht : existsb (fun s => String.eqb (srv_name s) name ||
                                      String.eqb (srv_ip s) ip) (servers d) = true)
         by (apply existsb_exists; exists s; split;
             [assumption | rewrite E1, E2; reflexivity]));
      congruence. }
  split; [|split; [|reflexivity]].
  - intros Hin. apply in_map_iff in Hin. destruct Hin as [s [Es Hs]].
    destruct (H s Hs) as [H1 _]. apply String.eqb_neq in H1. contradiction.
  - intros Hin. apply in_map_iff in Hin. destruct Hin as [s [Es Hs]].
    destruct (H s Hs) as [_ H2]. apply String.eqb_neq in H2. contradiction.
Qed.

Lemma insert_server_consistent (name ip : string) (d d' : database) :
  Consistent d -> insert_server name ip d = Some d' -> Consistent d'.
Proof.
  intros [[Q1 Q2] [Hn [Hi [Hd [Hr [Sd [Sr Sf]]]]]]] Hins.
  destruct (insert_server_fresh name ip d d' Hins) as [Fn [Fi ->]].
  unfold Consistent. simpl. rewrite !map_app. simpl.
  repeat split.
  - lia.
  - assumption.
  - now apply NoDup_snoc.
  - now apply NoDup_snoc.
  - apply NoDup_snoc; [assumption|]. intros Hin.
    apply in_map_iff in Hin. destruct Hin as [s [Es Hs]].
    rewrite Forall_forall in Hr. specialize (Hr s Hs). lia.
  - apply Forall_app. split.
    + eapply Forall_impl; [|exact Hr]. simpl. intros s H. lia.
    + constructor; [simpl; lia|constructor].
  - assumption.
  - assumption.
  - eapply Forall_impl; [|exact Sf]. simpl. intros r [i [E H]].
    exists i. split; [assumption|lia].
Qed.

Lemma insert_stat_consistent (i online now : Z) (d : database) :
  Consistent d -> 1 <= i <= seq_servers d ->
  Consistent (insert_stat (Some i) online now d).
Proof.
  intros [[Q1 Q2] [Hn [Hi [Hd [Hr [Sd [Sr Sf]]]]]]] Hissued.
  unfold Consistent, insert_stat. simpl. rewrite !map_app. simpl.
  repeat split; try assumption.
  - lia.
  - apply NoDup_snoc; [assumption|]. intros Hin.
    apply in_map_iff in Hin. destruct Hin as [r [Er Hin]].
    rewrite Forall_forall in Sr. specialize (Sr r Hin). lia.
  - apply Forall_app. split.
    + eapply Forall_impl; [|exact Sr]. simpl. intros r H. lia.
    + constructor; [simpl; lia|constructor].
  - apply Forall_app. split; [assumption|].
    constructor; [|constructor]. simpl. now exists i.
Qed.

Lemma delete_server_consistent (name : string) (d : database) :
  Consistent d -> Consistent (fst (delete_server name d)).
Proof.
  intros [[Q1 Q2] [Hn [Hi [Hd [Hr [Sd [Sr Sf]]]]]]].
  unfold Consistent, delete_server. simpl.
  repeat split; try assumption;
    try (now apply unique_key_kept); try (now apply Forall_kept);
    destruct (foreign_keys d); try assumption;
    try (now apply unique_key_kept); now apply Forall_kept.
Qed.

Lemma delete_stats_of_consistent (i : Z) (d : database) :
  Consistent d -> Consistent (fst (delete_stats_of i d)).
Proof.
  intros [[Q1 Q2] [Hn [Hi [Hd [Hr [Sd [Sr Sf]]]]]]].
  unfold Consistent, delete_stats_of. simpl.
  repeat split; try assumption;
    try (now apply unique_key_kept); now apply Forall_kept.
Qed.

Lemma delete_stats_before_consistent (now : Z) (d : database) :
  Consistent d -> Consistent (fst (delete_stats_before now d)).
Proof.
  intros [[Q1 Q2] [Hn [Hi [Hd [Hr [Sd [Sr Sf]]]]]]].
  unfold Consistent, delete_stats_before. simpl.
  repeat split; try assumption;
    try (now apply unique_key_kept); now apply Forall_kept.
Qed.

(** ** The methods that write *)

Lemma select_id_found (name : string) (d : database) (i : Z) :
  select_id name d = Some i ->
  exists s, In s (servers d) /\ srv_name s = name /\ srv_id s = i.
Proof.
  unfold select_id.
  destruct (filter _ (servers d)) as [|s l] eqn:E; [discriminate|].
  intros [= <-]. exists s.
  assert (Hs : In s (filter (fun s => String.eqb (srv_name s) name) (servers d)))
    by (rewrite E; now left).
  apply filter_In in Hs. destruct Hs as [Hs Hname].
  apply String.eqb_eq in Hname. now repeat split.
Qed.

Lemma select_id_listed_some (name : string) (d : database) :
  In name (map srv_name (servers d)) -> exists i, select_id name d = Some i.
Proof.
  intros Hin. apply in_map_iff in Hin. destruct Hin as [s [E Hs]].
  unfold select_id.
  destruct (filter _ (servers d)) as [|s' l] eqn:F; [|now eexists].
  assert (Hf : In s (filter (fun s => String.eqb (srv_name s) name) (servers d)))
    by (apply filter_In; split; [assumption | now apply String.eqb_eq]).
  rewrite F in Hf. contradiction.
Qed.

Lemma add_server_consistent (env : Env) (name ip : string) (w : World) :
  Consistent (db w) -> Consistent (db (add_server env name ip w)).
Proof.
  intros H. unfold add_server, ask_status.
  destruct (status_of env (io w) ip) as [online|err].
  - change (db (next_io w)) with (db w).
    destruct (insert_server name ip (db w)) as [d|] eqn:E; [|exact H].
    simpl. eapply insert_server_consistent; eassumption.
  - now destruct (contains "timed out" err).
Qed.

Lemma remove_server_consistent (name : string) (w : World) :
  Consistent (db w) -> Consistent (db (remove_server name w)).
Proof. intros H. rewrite db_remove_server. now apply delete_server_consistent. Qed.

Lemma delete_server_data_consistent (name : string) (w : World) :
  Consistent (db w) -> Consistent (db (delete_server_data name w)).
Proof.
  intros H. unfold delete_server_data, _get_server_id.
  destruct (select_id name (db w)) as [i|]; [|exact H].
  destruct (i =? 0); [exact H|].
  pose proof (delete_stats_of_consistent i (db w) H) as K.
  destruct (delete_stats_of i (db w)) as [d n]. exact K.
Qed.

Lemma clean_old_data_consistent (env : Env) (w : World) :
  Consistent (db w) -> Consistent (db (clean_old_data env w)).
Proof.
  intros H. unfold clean_old_data, ask_now.
  destruct (never_delete_data w); [exact H|].
  change (db (next_io (print CleanStart w))) with (db w).
  pose proof (delete_stats_before_consistent (sql_now env (io (print CleanStart w)))
                (db w) H) as K.
  destruct (delete_stats_before _ (db w)) as [d n]. exact K.
Qed.

(** A poll of a listed server stores a sample under that server's id. *)
Lemma collect_one_consistent (env : Env) (w : World) (server : string * string) :
  In (fst server) (map srv_name (servers (db w))) ->
  Consistent (db w) -> Consistent (db (collect_one env w server)).
Proof.
  destruct server as [name ip]. simpl. intros Hin H.
  unfold collect_one, ask_status, ask_now, _get_server_id.
  destruct (status_of env (io w) ip) as [online|err]; [|exact H].
  destruct (fits_integer online); [|exact H].
  change (db (next_io w)) with (db w).
  destruct (select_id_listed_some name (db w) Hin) as [i Ei]. rewrite Ei.
  simpl. apply insert_stat_consistent; [assumption|].
  destruct (select_id_found name (db w) i Ei) as [s [Hs [_ <-]]].
  destruct H as [_ [_ [_ [_ [Hr _]]]]]. rewrite Forall_forall in Hr.
  now apply Hr.
Qed.

Lemma collect_data_consistent (env : Env) (w : World) :
  Consistent (db w) -> Consistent (db (collect_data env w)).
Proof.
  intros H. unfold collect_data.
  destruct (load_servers w) as [|s0 l0] eqn:E; [exact H|]. rewrite <- E.
  assert (K : forall l w',
             servers (db w') = servers (db w) ->
             (forall x, In x l -> In (fst x) (map srv_name (servers (db w)))) ->
             Consistent (db w') ->
             Consistent (db (fold_left (collect_one env) l w'))).
  { induction l as [|x l IH]; intros w' Hs Hl Hc; simpl; [exact Hc|].
    apply IH.
    - now rewrite (proj1 (collect_one_keeps_servers env w' x)).
    - intros y Hy. apply Hl. now right.
    - apply collect_one_consistent; [|exact Hc]. rewrite Hs. apply Hl. now left. }
  apply K; [reflexivity| |exact H].
  intros x Hx. unfold load_servers, select_servers in Hx.
  apply in_map_iff in Hx. destruct Hx as [s [<- Hs]]. simpl. now apply in_map.
Qed.

(** ** A property of the store that every writing method keeps is kept by
    every run *)

Section Preserved.

Variable P : database -> Prop.

Hypothesis keeps_add : forall env name ip w,
  P (db w) -> P (db (add_server env name ip w)).
Hypothesis keeps_remove : forall name w,
  P (db w) -> P (db (remove_server name w)).
Hypothesis keeps_delete : forall name w,
  P (db w) -> P (db (delete_server_data name w)).
Hypothesis keeps_collect : forall env w,
  P (db w) -> P (db (collect_data env w)).
Hypothesis keeps_clean : forall env w,
  P (db w) -> P (db (clean_old_data env w)).

Lemma kept_only_printed (w w' : World) :
  only_printed w w' -> P (db w) -> P (db w').
Proof. intros [-> _]. exact (fun H => H). Qed.

Lemma kept_execute_command (env : Env) (cmd : string) (w : World) :
  P (db w) -> P (db (fst (_execute_command env cmd w))).
Proof.
  intros H. unfold _execute_command.
  repeat match goal with
         | |- context [if ?b then _ else _] => destruct b
         end; cbn [fst]; try exact H.
  - exact (kept_only_printed w _ (real_time_query_only_prints env w) H).
  - exact (kept_only_printed w _ (list_servers_only_prints w) H).
  - unfold _handle_add. destruct (split cmd) as [|t [|name [|ip [|x r]]]];
      try exact H. now apply keeps_add.
  - unfold _handle_remove. destruct (split cmd) as [|t [|name [|x r]]];
      try exact H. now apply keeps_remove.
  - unfold _handle_delete. destruct (split cmd) as [|t [|name [|x r]]];
      try exact H. now apply keeps_delete.
  - unfold _handle_report.
    destruct (match split cmd with _ :: d :: _ => int d | _ => Some 1 end);
      [|exact H].
    exact (kept_only_printed w _ (generate_report_only_prints env _ w) H).
  - unfold _handle_trend. destruct (split cmd) as [|t [|d [|n r]]];
      try exact H.
    destruct (int d) as [days|]; [|exact H].
    destruct (filter _ (n :: r)); [|exact H].
    pose proof (proj1 (plot_trend_saves_one_file env (n :: r) days w)) as Hd.
    destruct (plot_trend env (n :: r) days w) as [w1 [[|err]|]];
      cbn [fst] in *; simpl; now rewrite Hd.
Qed.

Lemma kept_drain (env : Env) (q : list string) :
  forall w, P (db w) -> P (db (fst (drain env q w))).
Proof.
  induction q as [|c q IH]; intros w H; simpl; [exact H|].
  destruct (String.eqb c ""); [exact H|].
  apply IH. simpl. rewrite (proj1 (caught_only_prints _)).
  apply (kept_execute_command env c (print (ExecCommand c) w)). exact H.
Qed.

Lemma kept_scheduled (env : Env) (inp : TickInput) (s : Loop) (w : World) :
  P (db w) -> P (db (scheduled env inp s w)).
Proof.
  intros H. unfold scheduled.
  set (w2 := if Qle_bool _ _ then collect_data env w else w).
  assert (H2 : P (db w2))
    by (subst w2; destruct (Qle_bool _ _); [now apply keeps_collect | exact H]).
  set (w3 := if report_due _ then generate_report env 1 w2 else w2).
  assert (H3 : P (db w3)).
  { subst w3. destruct (report_due _); [|exact H2].
    exact (kept_only_printed w2 _ (generate_report_only_prints env 1 w2) H2). }
  set (w4 := if 7 <=? _ then clean_old_data env w3 else w3).
  assert (H4 : P (db w4))
    by (subst w4; destruct (7 <=? _); [now apply keeps_clean | exact H3]).
  destruct (minute _ =? 0); [|exact H4].
  exact (kept_only_printed w4 _ (detect_anomalies_only_prints w4) H4).
Qed.

Lemma kept_tick (env : Env) (inp : TickInput) (s : Loop) :
  P (db (world s)) -> P (db (world (fst (tick env inp s)))).
Proof.
  intros H. destruct (tick_eq env inp s) as [-> _].
  apply kept_scheduled. unfold _process_input.
  pose proof (kept_drain env
                (WindowsInput.cmd_queue (input_handler (feed (keys inp) (world s))))
                (feed (keys inp) (world s))) as Hd.
  destruct (drain env _ (feed (keys inp) (world s))) as [w1 rest].
  simpl in *. apply Hd.
  now rewrite (proj1 (feed_frame (keys inp) (world s))).
Qed.

Lemma kept_loop (env : Env) (inputs : list TickInput) :
  forall s, P (db (world s)) -> P (db (world (fst (loop env inputs s)))).
Proof.
  induction inputs as [|inp rest IH]; intros s H; simpl; [exact H|].
  destruct (running (world s)); [|exact H].
  pose proof (kept_tick env inp s H) as Ht.
  destruct (tick env inp s) as [s1 acts]. specialize (IH s1 Ht).
  destruct (loop env rest s1) as [s2 trace]. exact IH.
Qed.

Lemma kept_run (env : Env) (time0 : Q) (now0 : Z) (inputs : list TickInput)
    (w : World) :
  P (db w) -> P (db (world (fst (run env time0 now0 inputs w)))).
Proof.
  intros H. unfold run.
  pose proof (kept_loop env inputs (start time0 now0 w) H) as K.
  destruct (loop env inputs (start time0 now0 w)) as [s trace].
  now destruct (running (world s)).
Qed.

End Preserved.

(** X1.  A store that is consistent when the monitor opens it is consistent
    after every run: whatever is typed and whatever the servers answer,
    names and addresses stay unique, no id is handed out twice, and every
    sample carries an id that was handed out to a server. *)
Theorem run_keeps_store_consistent (env : Env) (time0 : Q) (now0 : Z)
    (inputs : list TickInput) (store : database) (never_delete : bool) :
  consistent store = true ->
  consistent
    (db (world (fst (run env time0 now0 inputs (init store never_delete)))))
  = true.
Proof.
  rewrite !consistent_iff. intros H.
  apply (kept_run Consistent); [intros ..| exact H].
  - now apply add_server_consistent.
  - now apply remove_server_consistent.
  - now apply delete_server_data_consistent.
  - now apply collect_data_consistent.
  - now apply clean_old_data_consistent.
Qed.

Lemma run_keeps_store_consistent_busy_pass :
  consistent
    (db (world (fst (run env_up 1000 half_past_nine [busy_pass]
                       (init orphan_db false)))))
  = true.
Proof.
  apply (run_keeps_store_consistent env_up 1000 half_past_nine [busy_pass]
           orphan_db false).
  reflexivity.
Defined.

End StoreIntegrity.

(* ====================================================================== *)
(** * Registration, removal and the history of a server *)
(* ====================================================================== *)

Section History.

Import PyStr Statistics DBAccess MCMonitor Scheduler Statements Examples.
Import Integrity Display Cases.

Local Open Scope Z_scope.

(** ** Lists *)

Lemma flat_map_filter_skip {A B} (f : A -> list B) (p : A -> bool) (l : list A) :
  (forall x, In x l -> p x = false -> f x = []) ->
  flat_map f (filter p l) = flat_map f l.
Proof.
  induction l as [|a l IH]; intros H; simpl; [reflexivity|].
  destruct (p a) eqn:E; simpl.
  - f_equal. apply IH. intros x Hx. apply H. now right.
  - rewrite (H a (or_introl eq_refl) E). simpl.
    apply IH. intros x Hx. apply H. now right.
Qed.

Lemma flat_map_singletons {A} (p : A -> bool) (l : list A) :
  flat_map (fun x => if p x then [x] else []) l = filter p l.
Proof.
  induction l as [|a l IH]; simpl; [reflexivity|].
  rewrite IH. now destruct (p a).
Qed.

Lemma filter_filter_negb {A} (p : A -> bool) (l : list A) :
  filter p (filter (fun x => negb (p x)) l) = [].
Proof.
  apply filter_none. intros x Hx. apply filter_In in Hx.
  destruct Hx as [_ Hx]. now apply negb_true_iff.
Qed.

(** ** The join on a unique name *)

(** Among servers with distinct names, the rows named like [s] are [s]. *)
Lemma filter_unique_name (q : server -> bool) (l : list server) (s : server) :
  NoDup (map srv_name l) -> In s l ->
  filter (fun s' => String.eqb (srv_name s') (srv_name s) && q s') l =
  if q s then [s] else [].
Proof.
  induction l as [|a l IH]; intros Hnd Hin; [contradiction|].
  inversion Hnd as [|? ? Ha Hl]; subst. simpl.
  destruct Hin as [->|Hin].
  - rewrite String.eqb_refl. simpl.
    rewrite (filter_none (fun s' => String.eqb (srv_name s') (srv_name s) && q s')).
    + now destruct (q s).
    + intros x Hx. replace (String.eqb (srv_name x) (srv_name s)) with false;
        [reflexivity|].
      symmetry. apply String.eqb_neq. intros E. apply Ha. rewrite <- E.
      now apply in_map.
  - replace (String.eqb (srv_name a) (srv_name s)) with false.
    + simpl. now apply IH.
    + symmetry. apply String.eqb_neq. intros E. apply Ha. rewrite E.
      now apply in_map.
Qed.

(** In a store with distinct names, the join on the name of a server is
    the selection of its samples by id. *)
Lemma joined_by_id (d : database) (s : server) :
  NoDup (map srv_name (servers d)) -> In s (servers d) ->
  joined (srv_name s) d = samples_of (srv_id s) d.
Proof.
  intros Hnd Hin. unfold joined, samples_of.
  rewrite <- flat_map_singletons. apply flat_map_ext. intros r.
  rewrite (filter_unique_name
             (fun s' => match stat_server_id r with
                        | Some i => srv_id s' =? i
                        | None => false
                        end) (servers d) s Hnd Hin).
  destruct (stat_server_id r) as [j|]; [|reflexivity].
  rewrite (Z.eqb_sym (srv_id s) j). now destruct (j =? srv_id s).
Qed.

Lemma listed_row (name : string) (d : database) :
  mem name (map fst (select_servers d)) = true ->
  exists s, In s (servers d) /\ srv_name s = name.
Proof.
  rewrite mem_true_iff, names_of_servers. intros H.
  apply in_map_iff in H. destruct H as [s [E Hs]]. now exists s.
Qed.

(** ** [delete_server_data] on a server that exists *)

Lemma delete_stats_of_eq (i : Z) (d : database) :
  stats (fst (delete_stats_of i d)) =
    filter (fun r => negb match stat_server_id r with
                          | Some j => j =? i
                          | None => false
                          end) (stats d) /\
  servers (fst (delete_stats_of i d)) = servers d /\
  snd (delete_stats_of i d) = List.length (samples_of i d).
Proof. repeat split. Qed.

(** X2.  In a consistent store, [delete_server_data] on the name of a
    server that exists always reports a count, the number of samples of
    that server; afterwards no query joined on the name finds a sample; the
    table of servers and the samples of every other name are as before. *)
Theorem delete_server_data_of_listed (name : string) (w : World) :
  consistent (db w) = true ->
  mem name (map fst (load_servers w)) = true ->
  let w' := delete_server_data name w in
  out w' = out w ++ [DeleteOk (List.length (joined name (db w))) name] /\
  joined name (db w') = [] /\
  servers (db w') = servers (db w) /\
  forall other, other <> name -> joined other (db w') = joined other (db w).
Proof.
  rewrite consistent_iff. intros Hc Hin. cbv zeta.
  destruct (listed_row name (db w) Hin) as [s [Hs <-]].
  destruct Hc as [_ [Hn [_ [Hd [Hr _]]]]].
  pose proof (select_id_listed (db w) s Hn Hs) as Hid.
  assert (Hpos : (srv_id s =? 0) = false).
  { rewrite Forall_forall in Hr. specialize (Hr s Hs). apply Z.eqb_neq. lia. }
  unfold delete_server_data, _get_server_id. rewrite Hid, Hpos.
  destruct (delete_stats_of_eq (srv_id s) (db w)) as [Est [Esv Ecnt]].
  destruct (delete_stats_of (srv_id s) (db w)) as [d n]. simpl in Est, Esv, Ecnt.
  simpl. split; [|split; [|split]].
  - rewrite (joined_by_id (db w) s Hn Hs). now rewrite Ecnt.
  - rewrite (joined_by_id d s); [|now rewrite Esv|now rewrite Esv].
    unfold samples_of. rewrite Est. apply filter_filter_negb.
  - exact Esv.
  - intros other Hother. unfold joined. rewrite Esv, Est.
    apply flat_map_filter_skip. intros r _ Hr'.
    apply negb_false_iff in Hr'.
    destruct (stat_server_id r) as [j|]; [|discriminate].
    apply Z.eqb_eq in Hr'. subst j.
    rewrite filter_none; [reflexivity|]. intros s' Hs'.
    destruct (String.eqb (srv_name s') other) eqn:E1; [|reflexivity].
    destruct (srv_id s' =? srv_id s) eqn:E2; [|reflexivity].
    exfalso. apply String.eqb_eq in E1. apply Z.eqb_eq in E2.
    assert (s' = s).
    { clear - Hd Hs Hs' E2. induction (servers (db w)) as [|a l IH];
        [contradiction|].
      inversion Hd as [|? ? Ha Hl]; subst.
      destruct Hs as [->|Hs], Hs' as [->|Hs'].
      - reflexivity.
      - exfalso. apply Ha. rewrite <- E2. now apply in_map.
      - exfalso. apply Ha. rewrite E2. now apply in_map.
      - now apply IH. }
    subst s'. now apply Hother.
Qed.

Lemma delete_server_data_of_listed_creative :
  let w' := delete_server_data "creative" two_world in
  out w' = out two_world ++
           [DeleteOk (List.length (joined "creative" (db two_world))) "creative"] /\
  joined "creative" (db w') = [] /\
  servers (db w') = servers (db two_world) /\
  forall other, other <> "creative" ->
    joined other (db w') = joined other (db two_world).
Proof.
  apply (delete_server_data_of_listed "creative" two_world); reflexivity.
Defined.

(** ** After [remove_server] *)

(** X3.  Once a server is removed, [delete_server_data] on its name finds
    no server: it prints the error and deletes nothing, so that on a
    connection without foreign keys the samples of a removed server cannot
    be deleted by name any more. *)
Theorem removed_history_is_out_of_reach (name : string) (w : World) :
  let w1 := remove_server name w in
  delete_server_data name w1 = print DeleteNoServer w1 /\
  (foreign_keys (db w) = false ->
   stats (db (delete_server_data name w1)) = stats (db w)).
Proof.
  cbv zeta.
  assert (Hgone : mem name (map fst (select_servers (db (remove_server name w))))
                  = false)
    by (rewrite db_remove_server; apply delete_server_not_listed).
  assert (E : delete_server_data name (remove_server name w) =
              print DeleteNoServer (remove_server name w)).
  { unfold delete_server_data, _get_server_id.
    now rewrite (select_id_absent _ _ Hgone). }
  split; [exact E|]. intros Hfk. rewrite E. simpl.
  rewrite db_remove_server. simpl. now rewrite Hfk.
Qed.

(** ** Registration *)

Lemma insert_server_new (name ip : string) (d : database) :
  mem name (map fst (select_servers d)) = false ->
  mem ip (map snd (select_servers d)) = false ->
  insert_server name ip d =
  Some {| servers := servers d ++ [mk_server (seq_servers d + 1) name ip];
          stats := stats d;
          seq_servers := seq_servers d + 1;
          seq_stats := seq_stats d;
          foreign_keys := foreign_keys d |}.
Proof.
  rewrite !mem_false_iff, names_of_servers, ips_of_servers. intros Hn Hi.
  unfold insert_server.
  replace (existsb _ (servers d)) with false; [reflexivity|].
  symmetry. apply not_true_is_false. intros E.
  apply existsb_exists in E. destruct E as [s [Hs E]].
  apply orb_true_iff in E. destruct E as [E|E]; apply String.eqb_eq in E.
  - apply Hn. rewrite <- E. now apply in_map.
  - apply Hi. rewrite <- E. now apply in_map.
Qed.

Lemma filter_name_snoc (name ip : string) (i : Z) (l : list server) :
  ~ In name (map srv_name l) ->
  filter (fun s => String.eqb (srv_name s) name) (l ++ [mk_server i name ip])
    = [mk_server i name ip] /\
  filter (fun s => negb (String.eqb (srv_name s) name)) (l ++ [mk_server i name ip])
    = l.
Proof.
  intros Hn.
  assert (H : forall s, In s l -> String.eqb (srv_name s) name = false).
  { intros s Hs. apply String.eqb_neq. intros E. apply Hn. rewrite <- E.
    now apply in_map. }
  rewrite !filter_app. simpl. rewrite String.eqb_refl. simpl.
  rewrite (filter_none _ _ H).
  rewrite (filter_all (fun s => negb (String.eqb (srv_name s) name)) l)
    by (intros s Hs; now rewrite (H s Hs)).
  now rewrite app_nil_r.
Qed.

(** A registration that goes through. *)
Lemma add_server_eq (env : Env) (name ip : string) (online : Z) (w : World) :
  status_of env (io w) ip = StatusOk online ->
  mem name (map fst (load_servers w)) = false ->
  mem ip (map snd (load_servers w)) = false ->
  add_server env name ip w =
  print (AddOk name ip)
    (set_db
       {| servers := servers (db w) ++ [mk_server (seq_servers (db w) + 1) name ip];
          stats := stats (db w);
          seq_servers := seq_servers (db w) + 1;
          seq_stats := seq_stats (db w);
          foreign_keys := foreign_keys (db w) |}
       (next_io w)).
Proof.
  intros Hst Hn Hi. unfold load_servers in Hn, Hi.
  unfold add_server, ask_status. rewrite Hst.
  change (db (next_io w)) with (db w).
  now rewrite (insert_server_new name ip (db w) Hn Hi).
Qed.

(** X4.  An [add_server] whose address answers and whose name and address
    no server has registers the server: it is listed last, under the next
    id of the counter, no sample is stored for it, and a [remove_server] of
    the name gives back the table of servers as it was. *)
Theorem add_server_registers (env : Env) (name ip : string) (online : Z)
    (w : World) :
  status_of env (io w) ip = StatusOk online ->
  mem name (map fst (load_servers w)) = false ->
  mem ip (map snd (load_servers w)) = false ->
  let w' := add_server env name ip w in
  out w' = out w ++ [AddOk name ip] /\
  load_servers w' = load_servers w ++ [(name, ip)] /\
  _get_server_id name w' = Some (seq_servers (db w) + 1) /\
  stats (db w') = stats (db w) /\
  servers (db (remove_server name w')) = servers (db w) /\
  out (remove_server name w') = out w' ++ [RemoveOk name].
Proof.
  intros Hst Hn Hi. cbv zeta.
  rewrite (add_server_eq env name ip online w Hst Hn Hi).
  unfold load_servers in Hn.
  assert (Hn' : ~ In name (map srv_name (servers (db w))))
    by (rewrite <- names_of_servers; now apply mem_false_iff).
  destruct (filter_name_snoc name ip (seq_servers (db w) + 1) (servers (db w)) Hn')
    as [F1 F2].
  split; [reflexivity|]. split.
  { unfold load_servers, select_servers. simpl. now rewrite map_app. }
  split.
  { unfold _get_server_id, select_id. simpl. now rewrite F1. }
  split; [reflexivity|].
  unfold remove_server, delete_server. simpl. rewrite F1, F2. simpl.
  split; reflexivity.
Qed.

Lemma add_server_registers_hub :
  let w' := add_server env_up "hub" "10.0.0.5" orphan_world in
  out w' = out orphan_world ++ [AddOk "hub" "10.0.0.5"] /\
  load_servers w' = load_servers orphan_world ++ [("hub", "10.0.0.5")] /\
  _get_server_id "hub" w' = Some (seq_servers (db orphan_world) + 1) /\
  stats (db w') = stats (db orphan_world) /\
  servers (db (remove_server "hub" w')) = servers (db orphan_world) /\
  out (remove_server "hub" w') = out w' ++ [RemoveOk "hub"].
Proof.
  apply (add_server_registers env_up "hub" "10.0.0.5" 7 orphan_world);
    reflexivity.
Defined.

(** X5.  In a consistent store, a server removed and registered again under
    its name gets a new id, which no sample carries: every query joined on
    the name comes back empty, although on a connection without foreign
    keys the samples taken before the removal are all still in [stats]. *)
Theorem readded_server_has_no_history (env : Env) (name ip : string)
    (online : Z) (w : World) :
  consistent (db w) = true ->
  status_of env (io w) ip = StatusOk online ->
  mem ip (map snd (load_servers (remove_server name w))) = false ->
  let w2 := add_server env name ip (remove_server name w) in
  out w2 = out (remove_server name w) ++ [AddOk name ip] /\
  _get_server_id name w2 = Some (seq_servers (db w) + 1) /\
  joined name (db w2) = [] /\
  select_recent name (db w2) = [] /\
  (forall now days, select_aggregate name now days (db w2) = (None, None, 0%nat)) /\
  (foreign_keys (db w) = false -> stats (db w2) = stats (db w)).
Proof.
  rewrite consistent_iff. intros Hc Hst Hi. cbv zeta.
  set (w1 := remove_server name w) in *.
  assert (Hio : io w1 = io w).
  { subst w1. unfold remove_server.
    destruct (delete_server name (db w)) as [d n]. now destruct (0 <? n)%nat. }
  assert (Hdb : db w1 = fst (delete_server name (db w)))
    by (subst w1; apply db_remove_server).
  assert (Hgone : mem name (map fst (load_servers w1)) = false)
    by (unfold load_servers; rewrite Hdb; apply delete_server_not_listed).
  assert (Hseq : seq_servers (db w1) = seq_servers (db w))
    by (now rewrite Hdb).
  assert (Hst1 : status_of env (io w1) ip = StatusOk online) by now rewrite Hio.
  pose proof (add_server_eq env name ip online w1 Hst1 Hgone Hi) as Eadd.
  assert (Hn1 : ~ In name (map srv_name (servers (db w1))))
    by (rewrite <- names_of_servers; now apply mem_false_iff).
  destruct (filter_name_snoc name ip (seq_servers (db w1) + 1) (servers (db w1)) Hn1)
    as [F1 _].
  assert (Hout : out (add_server env name ip w1) = out w1 ++ [AddOk name ip])
    by (now rewrite Eadd).
  assert (Hid : _get_server_id name (add_server env name ip w1) =
                Some (seq_servers (db w) + 1)).
  { rewrite Eadd. unfold _get_server_id, select_id. simpl. rewrite F1. simpl.
    now rewrite Hseq. }
  assert (Hstats : stats (db (add_server env name ip w1)) = stats (db w1))
    by (now rewrite Eadd).
  assert (Hj : joined name (db (add_server env name ip w1)) = []).
  { unfold joined. apply flat_map_nil. intros r Hr.
    rewrite filter_none; [reflexivity|]. intros s Hs.
    destruct (String.eqb (srv_name s) name) eqn:E1; [|reflexivity]. simpl.
    apply String.eqb_eq in E1.
    assert (Hsid : srv_id s = seq_servers (db w) + 1).
    { pose proof (select_id_found name _ _ Hid) as [s' [Hs' [En Ei]]].
      assert (Hone : forall x, In x (servers (db (add_server env name ip w1))) ->
                       srv_name x = name -> srv_id x = seq_servers (db w) + 1).
      { intros x Hx Ex. unfold add_server, ask_status in Hx. rewrite Hst1 in Hx.
        change (db (next_io w1)) with (db w1) in Hx.
        unfold load_servers in Hgone, Hi.
        rewrite (insert_server_new name ip (db w1) Hgone Hi) in Hx. simpl in Hx.
        apply in_app_or in Hx. destruct Hx as [Hx|[<-|[]]].
        - exfalso. apply mem_false_iff in Hgone. apply Hgone.
          rewrite names_of_servers, <- Ex. now apply in_map.
        - simpl. now rewrite Hseq. }
      now apply Hone. }
    rewrite Hstats in Hr. rewrite Hdb in Hr. simpl in Hr.
    assert (Hr0 : In r (stats (db w)))
      by (destruct (foreign_keys (db w)); [apply filter_In in Hr|]; tauto).
    destruct Hc as [_ [_ [_ [_ [_ [_ [_ Hf]]]]]]].
    rewrite Forall_forall in Hf. destruct (Hf r Hr0) as [i [Ei Hle]].
    rewrite Ei. apply Z.eqb_neq. lia. }
  split; [exact Hout|]. split; [exact Hid|]. split; [exact Hj|].
  split; [unfold select_recent; now rewrite Hj|].
  split; [intros now days; unfold select_aggregate, window; now rewrite Hj|].
  intros Hfk. rewrite Hstats, Hdb. simpl. now rewrite Hfk.
Qed.

Lemma readded_server_has_no_history_lobby :
  let w2 := add_server env_up "lobby" "10.0.0.1" (remove_server "lobby" orphan_world) in
  out w2 = out (remove_server "lobby" orphan_world) ++ [AddOk "lobby" "10.0.0.1"] /\
  _get_server_id "lobby" w2 = Some (seq_servers (db orphan_world) + 1) /\
  joined "lobby" (db w2) = [] /\
  select_recent "lobby" (db w2) = [] /\
  (forall now days,
     select_aggregate "lobby" now days (db w2) = (None, None, 0%nat)) /\
  (foreign_keys (db orphan_world) = false ->
   stats (db w2) = stats (db orphan_world)).
Proof.
  apply (readded_server_has_no_history env_up "lobby" "10.0.0.1" 7 orphan_world);
    reflexivity.
Defined.

End History.

(* ====================================================================== *)
(** * Retention: what [clean_old_data] removes *)
(* ====================================================================== *)

Section Retention.

Import PyStr Statistics DBAccess MCMonitor Scheduler Statements Examples.
Import Integrity Display Cases.

Local Open Scope Z_scope.

Lemma filter_flat_map_skip {A B} (q : B -> bool) (f : A -> list B)
    (p : A -> bool) (l : list A) :
  (forall x, In x l -> p x = false -> filter q (f x) = []) ->
  filter q (flat_map f (filter p l)) = filter q (flat_map f l).
Proof.
  induction l as [|a l IH]; intros H; simpl; [reflexivity|].
  assert (IH' : filter q (flat_map f (filter p l)) = filter q (flat_map f l))
    by (apply IH; intros x Hx; apply H; now right).
  destruct (p a) eqn:E; simpl; rewrite !filter_app.
  - now rewrite IH'.
  - now rewrite (H a (or_introl eq_refl) E), IH'.
Qed.

Lemma length_filter_split {A} (p : A -> bool) (l : list A) :
  List.length l =
  (List.length (filter (fun x => negb (p x)) l) + List.length (filter p l))%nat.
Proof.
  induction l as [|a l IH]; simpl; [reflexivity|].
  destruct (p a); simpl; lia.
Qed.

(** What [clean_old_data] does to the store. *)
Lemma clean_old_data_eq (env : Env) (w : World) :
  never_delete_data w = false ->
  clean_old_data env w =
  print (CleanDeleted
           (List.length (filter (expired (sql_now env (io w))) (stats (db w)))))
    (set_db
       {| servers := servers (db w);
          stats := filter (fun r => negb (expired (sql_now env (io w)) r))
                     (stats (db w));
          seq_servers := seq_servers (db w);
          seq_stats := seq_stats (db w);
          foreign_keys := foreign_keys (db w) |}
       (next_io (print CleanStart w))).
Proof. intros H. unfold clean_old_data. rewrite H. reflexivity. Qed.

(** A sample that [clean_old_data] removes at [now] is outside every window
    of thirty days or fewer that is opened at [now] or later. *)
Lemma expired_outside_window (now now' days : Z) (r : stat) :
  days <= 30 -> now <= now' -> expired now r = true ->
  after (datetime_now_minus_days now' days) r = false.
Proof.
  unfold expired, before, after, datetime_now_minus_days, seconds_per_day.
  intros Hd Hn He. cbv zeta in *.
  destruct (30 <? 0); [discriminate|].
  destruct (5373485 <=? 30); [discriminate|].
  destruct (now - 30 * 86400 <? julian_origin); [discriminate|].
  apply Z.ltb_lt in He.
  destruct (days <? 0); [reflexivity|].
  destruct (5373485 <=? days); [reflexivity|].
  destruct (now' - days * 86400 <? julian_origin); [reflexivity|].
  apply Z.ltb_ge. lia.
Qed.

(** X6.  [clean_old_data] removes the samples older than thirty days on
    SQLite's clock and no other, and prints how many; so no report and no
    trend over thirty days or fewer, made then or later, is changed by it.
    With [never_delete_data] it prints the notice and does nothing else. *)
Theorem cleanup_spares_recent_windows (env : Env) (w : World) (name : string)
    (now' days : Z) :
  days <= 30 -> sql_now env (io w) <= now' ->
  let w' := clean_old_data env w in
  select_aggregate name now' days (db w') = select_aggregate name now' days (db w) /\
  select_trend name now' days (db w') = select_trend name now' days (db w) /\
  servers (db w') = servers (db w) /\
  (forall r, In r (stats (db w')) <->
             In r (stats (db w)) /\
             (never_delete_data w = true \/
              expired (sql_now env (io w)) r = false)) /\
  (never_delete_data w = true -> w' = print CleanDisabled w) /\
  (never_delete_data w = false ->
   exists deleted,
     out w' = out w ++ [CleanStart; CleanDeleted deleted] /\
     List.length (stats (db w)) = (List.length (stats (db w')) + deleted)%nat).
Proof.
  intros Hd Hn. cbv zeta.
  destruct (never_delete_data w) eqn:End.
  - unfold clean_old_data. rewrite End. simpl.
    split; [reflexivity|]. split; [reflexivity|]. split; [reflexivity|].
    split; [|split; [reflexivity|discriminate]].
    intros r. split.
    + intros H. split; [exact H | now left].
    + now intros [H _].
  - rewrite (clean_old_data_eq env w End). simpl.
    assert (Hw : window name now' days
                   {| servers := servers (db w);
                      stats := filter (fun r => negb (expired (sql_now env (io w)) r))
                                 (stats (db w));
                      seq_servers := seq_servers (db w);
                      seq_stats := seq_stats (db w);
                      foreign_keys := foreign_keys (db w) |}
                 = window name now' days (db w)).
    { unfold window, joined. simpl. apply filter_flat_map_skip.
      intros r _ He. apply negb_false_iff in He.
      apply filter_none. intros x Hx. apply in_map_iff in Hx.
      destruct Hx as [s [<- _]].
      now apply (expired_outside_window (sql_now env (io w))). }
    split; [unfold select_aggregate; now rewrite Hw|].
    split; [unfold select_trend; now rewrite Hw|].
    split; [reflexivity|]. split; [|split; [discriminate|]].
    + intros r. rewrite filter_In, negb_true_iff. split.
      * intros [H1 H2]. split; [exact H1 | now right].
      * intros [H1 [H2|H2]]; [discriminate | now split].
    + intros _. eexists. split.
      * rewrite <- app_assoc. reflexivity.
      * apply length_filter_split.
Qed.

Lemma cleanup_spares_recent_windows_of_aged_db :
  let w := init aged_db false in
  let w' := clean_old_data env_up w in
  select_aggregate "lobby" 2000 30 (db w') =
    select_aggregate "lobby" 2000 30 (db w) /\
  select_trend "lobby" 2000 30 (db w') = select_trend "lobby" 2000 30 (db w) /\
  servers (db w') = servers (db w) /\
  (forall r, In r (stats (db w')) <->
             In r (stats (db w)) /\
             (never_delete_data w = true \/
              expired (sql_now env_up (io w)) r = false)) /\
  (never_delete_data w = true -> w' = print CleanDisabled w) /\
  (never_delete_data w = false ->
   exists deleted,
     out w' = out w ++ [CleanStart; CleanDeleted deleted] /\
     List.length (stats (db w)) = (List.length (stats (db w')) + deleted)%nat).
Proof.
  apply (cleanup_spares_recent_windows env_up (init aged_db false) "lobby" 2000 30).
  - lia.
  - vm_compute. discriminate.
Defined.

(** ** The scheduler in never-delete mode *)

Lemma collect_one_appends (env : Env) (w : World) (server : string * string) :
  exists rows, stats (db (collect_one env w server)) = stats (db w) ++ rows.
Proof.
  destruct server as [name ip]. unfold collect_one, ask_status, ask_now.
  destruct (status_of env (io w) ip) as [online|err];
    [destruct (fits_integer online)|].
  - eexists. reflexivity.
  - exists []. simpl. now rewrite app_nil_r.
  - exists []. simpl. now rewrite app_nil_r.
Qed.

Lemma collect_data_appends (env : Env) (w : World) :
  exists rows, stats (db (collect_data env w)) = stats (db w) ++ rows.
Proof.
  unfold collect_data. destruct (load_servers w) as [|s l];
    [exists []; now rewrite app_nil_r|].
  apply (fold_left_invariant (collect_one env)
           (fun w' => exists rows, stats (db w') = stats (db w) ++ rows)).
  - intros w' b [rows H]. destruct (collect_one_appends env w' b) as [rows' H'].
    exists (rows ++ rows'). now rewrite H', H, app_assoc.
  - exists []. simpl. now rewrite app_nil_r.
Qed.

Lemma scheduled_appends (env : Env) (inp : TickInput) (s : Loop) (w : World) :
  never_delete_data w = true ->
  exists rows, stats (db (scheduled env inp s w)) = stats (db w) ++ rows.
Proof.
  intros Hnd. unfold scheduled.
  set (w2 := if Qle_bool _ _ then collect_data env w else w).
  assert (H2 : (exists rows, stats (db w2) = stats (db w) ++ rows) /\
               never_delete_data w2 = true).
  { subst w2. destruct (Qle_bool _ _).
    - split; [apply collect_data_appends|].
      pose proof (control_collect_data env w) as Hc. unfold control in Hc.
      injection Hc as _ Hc _. now rewrite Hc.
    - split; [exists []; now rewrite app_nil_r | exact Hnd]. }
  destruct H2 as [[rows H2] Hnd2].
  set (w3 := if report_due _ then generate_report env 1 w2 else w2).
  assert (H3 : db w3 = db w2 /\ never_delete_data w3 = true).
  { subst w3. destruct (report_due _); [|now split].
    destruct (generate_report_only_prints env 1 w2) as [Hd [_ Hc]].
    unfold control in Hc. injection Hc as _ Hc _. split; congruence. }
  destruct H3 as [H3 Hnd3].
  set (w4 := if 7 <=? _ then clean_old_data env w3 else w3).
  assert (H4 : db w4 = db w3).
  { subst w4. destruct (7 <=? _); [|reflexivity].
    unfold clean_old_data. now rewrite Hnd3. }
  exists rows.
  destruct (minute _ =? 0).
  - destruct (detect_anomalies_only_prints w4) as [Hd _]. congruence.
  - congruence.
Qed.

(** A pass before which nothing was typed, entered with an empty queue, is
    its scheduled part. *)
Lemma idle_tick (env : Env) (inp : TickInput) (s : Loop) :
  keys inp = [] ->
  WindowsInput.cmd_queue (input_handler (world s)) = [] ->
  world (fst (tick env inp s)) = scheduled env inp s (world s).
Proof.
  intros Hk Hq. destruct (tick_eq env inp s) as [-> _]. f_equal.
  unfold _process_input, feed. rewrite Hk. simpl.
  destruct (world s) as [d o f r nd i n]. simpl in *.
  destruct i as [b q]. simpl in *. subst q. reflexivity.
Qed.

Lemma idle_loop_appends (env : Env) (inputs : list TickInput) :
  Forall (fun inp => keys inp = []) inputs ->
  forall s,
    WindowsInput.cmd_queue (input_handler (world s)) = [] ->
    never_delete_data (world s) = true ->
    exists rows,
      stats (db (world (fst (loop env inputs s)))) = stats (db (world s)) ++ rows.
Proof.
  induction 1 as [|inp rest Hk _ IH]; intros s Hq Hnd; simpl.
  - exists []. now rewrite app_nil_r.
  - destruct (running (world s)); [|exists []; now rewrite app_nil_r].
    destruct (idle_pass_keeps_running env inp s Hk Hq) as [_ Hq1].
    pose proof (idle_tick env inp s Hk Hq) as Hw.
    destruct (scheduled_appends env inp s (world s) Hnd) as [rows Hrows].
    pose proof (control_scheduled env inp s (world s)) as Hc.
    rewrite <- Hw in Hrows, Hc.
    destruct (tick env inp s) as [s1 acts]. simpl in *.
    assert (Hnd1 : never_delete_data (world s1) = true)
      by (unfold control in Hc; injection Hc as _ Hc _; congruence).
    destruct (IH s1 Hq1 Hnd1) as [rows' Hrows'].
    destruct (loop env rest s1) as [s2 trace]. simpl in *.
    exists (rows ++ rows'). now rewrite Hrows', Hrows, app_assoc.
Qed.

(** X7.  A monitor started in never-delete mode at whose keyboard nothing is
    typed never loses a sample: after every run the samples that the file
    held are all there, in order, followed by the ones collected. *)
Theorem never_delete_keeps_every_sample (env : Env) (time0 : Q) (now0 : Z)
    (inputs : list TickInput) (store : database) :
  Forall (fun inp => keys inp = []) inputs ->
  exists rows,
    stats (db (world (fst (run env time0 now0 inputs (init store true))))) =
    stats store ++ rows.
Proof.
  intros Hk. unfold run.
  destruct (idle_loop_appends env inputs Hk (start time0 now0 (init store true))
              eq_refl eq_refl) as [rows H].
  destruct (loop env inputs (start time0 now0 (init store true))) as [s trace].
  simpl in H. exists rows. now destruct (running (world s)).
Qed.

Lemma never_delete_keeps_every_sample_for_a_week :
  exists rows,
    stats (db (world (fst (run env_up 1000 half_past_nine weekly_passes
                             (init aged_db true))))) =
    stats aged_db ++ rows.
Proof.
  apply (never_delete_keeps_every_sample env_up 1000 half_past_nine
           weekly_passes aged_db).
  repeat constructor.
Defined.

End Retention.

(* ====================================================================== *)
(** * The timing of the scheduled actions *)
(* ====================================================================== *)

Section Schedule.

Import PyStr Statistics DBAccess MCMonitor Scheduler Statements Examples.
Import Integrity Display Cases.

Local Open Scope Z_scope.

(** ** An action that fires on a test of a loop variable *)

Section Spacing.

Variable env : Env.
Variable T : Type.
Variable a : action.
Variable last : Loop -> T.
Variable fires : TickInput -> T -> bool.
Variable stamp : TickInput -> T.

Hypothesis runs_iff : forall inp s,
  In a (due inp s) <-> fires inp (last s) = true.
Hypothesis last_after : forall inp s,
  last (fst (tick env inp s)) = if fires inp (last s) then stamp inp else last s.

(** The first pass of a trace in which [a] runs passes the test against
    the value the variable had when the loop was entered. *)
Lemma first_firing (inputs : list TickInput) :
  forall s pre inp acts post,
    snd (loop env inputs s) = pre ++ (inp, acts) :: post ->
    Forall (fun e => ~ In a (snd e)) pre ->
    In a acts ->
    fires inp (last s) = true.
Proof.
  induction inputs as [|i rest IH]; intros s pre inp acts post Ht Hpre Ha.
  - simpl in Ht. now destruct pre.
  - simpl in Ht. destruct (running (world s)); [|now destruct pre].
    pose proof (last_after i s) as Hl.
    destruct (tick_eq env i s) as [_ Hacts].
    destruct (tick env i s) as [s1 acts1]. simpl in Hl, Hacts.
    specialize (IH s1).
    destruct (loop env rest s1) as [s2 trace]. simpl in Ht, IH.
    destruct pre as [|e pre].
    + simpl in Ht. injection Ht as <- <- _.
      apply runs_iff. now rewrite <- Hacts.
    + simpl in Ht. injection Ht as <- Ht.
      inversion Hpre as [|? ? He Hpre']; subst. simpl in He.
      assert (Hno : fires i (last s) = false).
      { destruct (fires i (last s)) eqn:E; [|reflexivity].
        exfalso. apply He. now apply runs_iff. }
      rewrite Hno in Hl. rewrite <- Hl.
      now apply (IH pre inp acts post).
Qed.

(** Between two passes in which [a] runs, with none in between, the second
    passes the test against the stamp of the first. *)
Lemma next_firing (inputs : list TickInput) :
  forall s pre i1 a1 mid i2 a2 post,
    snd (loop env inputs s) = pre ++ (i1, a1) :: mid ++ (i2, a2) :: post ->
    In a a1 ->
    Forall (fun e => ~ In a (snd e)) mid ->
    In a a2 ->
    fires i2 (stamp i1) = true.
Proof.
  induction inputs as [|i rest IH]; intros s pre i1 a1 mid i2 a2 post Ht H1 Hmid H2.
  - simpl in Ht. now destruct pre.
  - simpl in Ht. destruct (running (world s)); [|now destruct pre].
    pose proof (last_after i s) as Hl.
    destruct (tick_eq env i s) as [_ Hacts].
    pose proof (first_firing rest (fst (tick env i s))) as Hfirst.
    destruct (tick env i s) as [s1 acts1]. simpl in Hl, Hacts, Hfirst.
    specialize (IH s1).
    destruct (loop env rest s1) as [s2 trace]. simpl in Ht, IH, Hfirst.
    destruct pre as [|e pre].
    + simpl in Ht. injection Ht as <- <- Ht.
      assert (Hyes : fires i (last s) = true)
        by (apply runs_iff; now rewrite <- Hacts).
      rewrite Hyes in Hl. rewrite <- Hl.
      now apply (Hfirst mid i2 a2 post).
    + simpl in Ht. injection Ht as _ Ht.
      now apply (IH pre i1 a1 mid i2 a2 post).
Qed.

End Spacing.

(** ** The collection *)

Lemma poll_runs_iff (inp : TickInput) (s : Loop) :
  In Poll (due inp s) <->
  Qle_bool (inject_Z interval) (time_at_check inp - last_collect s) = true.
Proof.
  unfold due.
  destruct (Qle_bool _ _), (report_due _), (7 <=? _), (minute _ =? 0);
    simpl; intuition (try discriminate; try congruence).
Qed.

Lemma last_collect_after (env : Env) (inp : TickInput) (s : Loop) :
  last_collect (fst (tick env inp s)) =
  if Qle_bool (inject_Z interval) (time_at_check inp - last_collect s)
  then time_after_collect inp else last_collect s.
Proof.
  unfold tick.
  destruct (Qle_bool _ _), (report_due _), (7 <=? _), (minute _ =? 0);
    reflexivity.
Qed.

(** X8.  In every run, the first collection is made in a pass that began
    [interval] seconds or more after [run] was entered, and every later
    collection in a pass that began [interval] seconds or more after the
    clock reading taken when the previous collection ended. *)
Theorem polls_are_spaced (env : Env) (time0 : Q) (now0 : Z)
    (inputs : list TickInput) (w : World) :
  let trace := snd (run env time0 now0 inputs w) in
  (forall pre inp acts post,
     trace = pre ++ (inp, acts) :: post ->
     Forall (fun e => ~ In Poll (snd e)) pre ->
     In Poll acts ->
     (inject_Z interval <= time_at_check inp - time0)%Q) /\
  (forall pre i1 a1 mid i2 a2 post,
     trace = pre ++ (i1, a1) :: mid ++ (i2, a2) :: post ->
     In Poll a1 ->
     Forall (fun e => ~ In Poll (snd e)) mid ->
     In Poll a2 ->
     (inject_Z interval <= time_at_check i2 - time_after_collect i1)%Q).
Proof.
  cbv zeta.
  assert (Ht : snd (run env time0 now0 inputs w) =
               snd (loop env inputs (start time0 now0 w))).
  { unfold run. destruct (loop env inputs (start time0 now0 w)) as [s trace].
    now destruct (running (world s)). }
  rewrite Ht. split.
  - intros pre inp acts post E Hpre Ha. apply Qle_bool_iff.
    exact (first_firing env Q Poll last_collect
             (fun inp l => Qle_bool (inject_Z interval) (time_at_check inp - l))
             time_after_collect poll_runs_iff (last_collect_after env)
             inputs (start time0 now0 w) pre inp acts post E Hpre Ha).
  - intros pre i1 a1 mid i2 a2 post E H1 Hmid H2. apply Qle_bool_iff.
    exact (next_firing env Q Poll last_collect
             (fun inp l => Qle_bool (inject_Z interval) (time_at_check inp - l))
             time_after_collect poll_runs_iff (last_collect_after env)
             inputs (start time0 now0 w) pre i1 a1 mid i2 a2 post E H1 Hmid H2).
Qed.

Lemma polls_are_spaced_three_passes :
  map snd (snd (run env_up 1000 half_past_nine three_passes orphan_world)) =
    [[Poll]; []; [Poll]] /\
  (inject_Z interval <= time_at_check pass_at_1300 - 1000)%Q /\
  (inject_Z interval <=
   time_at_check pass_at_1700 - time_after_collect pass_at_1300)%Q.
Proof.
  destruct (polls_are_spaced env_up 1000 half_past_nine three_passes orphan_world)
    as [H1 H2].
  split; [reflexivity|]. split.
  - apply (H1 [] pass_at_1300 [Poll] [(pass_at_1400, []); (pass_at_1700, [Poll])]);
      [reflexivity | constructor | now left].
  - apply (H2 [] pass_at_1300 [Poll] [(pass_at_1400, [])] pass_at_1700 [Poll] []);
      [reflexivity | now left | | now left].
    constructor; [intros [] | constructor].
Defined.

(** ** The cleaning *)

Lemma cleanup_runs_iff (inp : TickInput) (s : Loop) :
  In Cleanup (due inp s) <->
  (7 <=? days_between (now inp) (last_clean s)) = true.
Proof.
  unfold due.
  destruct (Qle_bool _ _), (report_due _), (7 <=? _), (minute _ =? 0);
    simpl; intuition (try discriminate; try congruence).
Qed.

Lemma last_clean_after (env : Env) (inp : TickInput) (s : Loop) :
  last_clean (fst (tick env inp s)) =
  if 7 <=? days_between (now inp) (last_clean s)
  then now inp else last_clean s.
Proof.
  unfold tick.
  destruct (Qle_bool _ _), (report_due _), (7 <=? _), (minute _ =? 0);
    reflexivity.
Qed.

(** X9.  In every run, [clean_old_data] is first called in a pass made
    seven whole days or more after [run] was entered, and then again in a
    pass made seven whole days or more after the pass of the previous
    call: a monitor that is restarted within a week never cleans. *)
Theorem cleanups_are_a_week_apart (env : Env) (time0 : Q) (now0 : Z)
    (inputs : list TickInput) (w : World) :
  let trace := snd (run env time0 now0 inputs w) in
  (forall pre inp acts post,
     trace = pre ++ (inp, acts) :: post ->
     Forall (fun e => ~ In Cleanup (snd e)) pre ->
     In Cleanup acts ->
     7 * us_per_day <= now inp - now0) /\
  (forall pre i1 a1 mid i2 a2 post,
     trace = pre ++ (i1, a1) :: mid ++ (i2, a2) :: post ->
     In Cleanup a1 ->
     Forall (fun e => ~ In Cleanup (snd e)) mid ->
     In Cleanup a2 ->
     7 * us_per_day <= now i2 - now i1) /\
  (Forall (fun inp => now inp - now0 < 7 * us_per_day) inputs ->
   Forall (fun e => ~ In Cleanup (snd e)) trace).
Proof.
  cbv zeta.
  assert (Ht : snd (run env time0 now0 inputs w) =
               snd (loop env inputs (start time0 now0 w))).
  { unfold run. destruct (loop env inputs (start time0 now0 w)) as [s trace].
    now destruct (running (world s)). }
  rewrite Ht.
  assert (Hdays : forall x y, (7 <=? days_between x y) = true <->
                              7 * us_per_day <= x - y).
  { intros x y. unfold days_between, us_per_day. rewrite Z.leb_le. split.
    - intros H.
      pose proof (Z.mul_div_le (x - y) 86400000000 ltac:(lia)). lia.
    - intros H. apply Z.div_le_lower_bound; lia. }
  assert (Hfirst : forall pre inp acts post,
            snd (loop env inputs (start time0 now0 w)) = pre ++ (inp, acts) :: post ->
            Forall (fun e => ~ In Cleanup (snd e)) pre ->
            In Cleanup acts -> 7 * us_per_day <= now inp - now0).
  { intros pre inp acts post E Hpre Ha. apply Hdays.
    exact (first_firing env Z Cleanup last_clean
             (fun inp l => 7 <=? days_between (now inp) l)
             now cleanup_runs_iff (last_clean_after env)
             inputs (start time0 now0 w) pre inp acts post E Hpre Ha). }
  split; [exact Hfirst|]. split.
  - intros pre i1 a1 mid i2 a2 post E H1 Hmid H2. apply Hdays.
    exact (next_firing env Z Cleanup last_clean
             (fun inp l => 7 <=? days_between (now inp) l)
             now cleanup_runs_iff (last_clean_after env)
             inputs (start time0 now0 w) pre i1 a1 mid i2 a2 post E H1 Hmid H2).
  - intros Hsoon.
    assert (Hin : forall e, In e (snd (loop env inputs (start time0 now0 w))) ->
                            In (fst e) inputs).
    { generalize (start time0 now0 w). clear.
      induction inputs as [|i rest IH]; intros s e He; simpl in He;
        [contradiction|].
      destruct (running (world s)); [|contradiction].
      destruct (tick env i s) as [s1 acts]. specialize (IH s1).
      destruct (loop env rest s1) as [s2 trace]. simpl in He, IH.
      destruct He as [<-|He]; [now left | right; now apply IH]. }
    assert (Hall : forall n pre,
              List.length pre = n ->
              forall e post,
                snd (loop env inputs (start time0 now0 w)) = pre ++ e :: post ->
                Forall (fun e => ~ In Cleanup (snd e)) pre /\ ~ In Cleanup (snd e)).
    { induction n as [n IHn] using lt_wf_ind. intros pre Hlen e post E.
      assert (Hpre : Forall (fun e => ~ In Cleanup (snd e)) pre).
      { apply Forall_forall. intros x Hx.
        apply in_split in Hx. destruct Hx as [p1 [p2 ->]].
        rewrite <- app_assoc in E. simpl in E.
        refine (proj2 (IHn (List.length p1) _ p1 eq_refl x (p2 ++ e :: post) E)).
        rewrite <- Hlen, length_app. simpl. lia. }
      split; [exact Hpre|]. intros Ha.
      destruct e as [inp acts]. simpl in Ha.
      pose proof (Hfirst pre inp acts post E Hpre Ha) as Hle.
      assert (Hi : In inp inputs)
        by (apply (Hin (inp, acts)); rewrite E; apply in_or_app; right; now left).
      rewrite Forall_forall in Hsoon. specialize (Hsoon inp Hi). lia. }
    apply Forall_forall. intros e He.
    apply in_split in He. destruct He as [pre [post E]].
    exact (proj2 (Hall (List.length pre) pre eq_refl e post E)).
Qed.

Lemma cleanups_are_a_week_apart_weekly_passes :
  map snd (snd (run env_up 1000 half_past_nine weekly_passes orphan_world)) =
    [[Cleanup]; []; [Cleanup]] /\
  7 * us_per_day <= now pass_on_day_8 - half_past_nine /\
  7 * us_per_day <= now pass_on_day_16 - now pass_on_day_8.
Proof.
  destruct (cleanups_are_a_week_apart env_up 1000 half_past_nine weekly_passes
              orphan_world) as [H1 [H2 _]].
  split; [reflexivity|]. split.
  - apply (H1 [] pass_on_day_8 [Cleanup]
             [(pass_on_day_9, []); (pass_on_day_16, [Cleanup])]);
      [reflexivity | constructor | now left].
  - apply (H2 [] pass_on_day_8 [Cleanup] [(pass_on_day_9, [])]
             pass_on_day_16 [Cleanup] []);
      [reflexivity | now left | | now left].
    constructor; [intros [] | constructor].
Defined.

(** ** The anomaly check *)

Lemma trace_of_loop (env : Env) (inputs : list TickInput) :
  forall s e, In e (snd (loop env inputs s)) ->
              exists s', snd e = due (fst e) s'.
Proof.
  induction inputs as [|i rest IH]; intros s e He; simpl in He; [contradiction|].
  destruct (running (world s)); [|contradiction].
  destruct (tick_eq env i s) as [_ Hacts].
  destruct (tick env i s) as [s1 acts]. simpl in Hacts. specialize (IH s1).
  destruct (loop env rest s1) as [s2 trace]. simpl in He, IH.
  destruct He as [<-|He]; [now exists s | now apply IH].
Qed.

(** X10.  In every run, [detect_anomalies] runs in exactly those passes
    whose local time is in minute 0 of an hour: in every pass made during
    that minute, ten a second, and in no other. *)
Theorem anomaly_check_runs_in_minute_zero (env : Env) (time0 : Q) (now0 : Z)
    (inputs : list TickInput) (w : World) :
  Forall (fun e => In AnomalyCheck (snd e) <-> minute (now (fst e)) = 0)
    (snd (run env time0 now0 inputs w)).
Proof.
  assert (Ht : snd (run env time0 now0 inputs w) =
               snd (loop env inputs (start time0 now0 w))).
  { unfold run. destruct (loop env inputs (start time0 now0 w)) as [s trace].
    now destruct (running (world s)). }
  rewrite Ht. apply Forall_forall. intros e He.
  destruct (trace_of_loop env inputs _ e He) as [s' ->].
  rewrite <- Z.eqb_eq. unfold due.
  destruct (Qle_bool _ _), (report_due _), (7 <=? _), (minute _ =? 0);
    simpl; intuition (try discriminate; try congruence).
Qed.

End Schedule.

(* ====================================================================== *)
(** * The reader thread: lines, Backspace and the queue *)
(* ====================================================================== *)

Section Keyboard.

Import PyStr Statistics DBAccess MCMonitor Scheduler Statements Examples.
Import Integrity Display Cases WindowsInput.

Local Open Scope Z_scope.

Lemma on_keys_app (k1 k2 : list ascii) :
  forall i,
    on_keys (k1 ++ k2) i =
    (fst (on_keys k2 (fst (on_keys k1 i))),
     snd (on_keys k1 i) ++ snd (on_keys k2 (fst (on_keys k1 i)))).
Proof.
  induction k1 as [|k r IH]; intros i; simpl.
  - now destruct (on_keys k2 i).
  - destruct (on_key k i) as [i1 e1]. rewrite IH.
    destruct (on_keys r i1) as [i2 e2]. simpl.
    destruct (on_keys k2 i2) as [i3 e3]. simpl. now rewrite app_assoc.
Qed.

Lemma plain_iff (c : ascii) :
  plain c = true <-> Ascii.eqb c CR = false /\ Ascii.eqb c BS = false.
Proof.
  unfold plain. rewrite andb_true_iff, !negb_true_iff. reflexivity.
Qed.

(** Keys that are neither Enter nor Backspace go to the end of the buffer
    and are echoed. *)
Lemma on_keys_plain (typed : list ascii) :
  forallb plain typed = true ->
  forall i,
    on_keys typed i =
    ({| buffer := buffer i ++ typed; cmd_queue := cmd_queue i |},
     map EchoChar typed).
Proof.
  induction typed as [|c r IH]; intros H i; simpl.
  - rewrite app_nil_r. now destruct i.
  - simpl in H. apply andb_true_iff in H. destruct H as [Hc Hr].
    apply plain_iff in Hc. destruct Hc as [H1 H2].
    unfold on_key. rewrite H1, H2. rewrite (IH Hr). simpl.
    now rewrite <- app_assoc.
Qed.

(** Enter after such keys. *)
Lemma on_keys_line (typed : list ascii) (i : t) :
  forallb plain typed = true ->
  on_keys (typed ++ [CR]) i =
  ({| buffer := [];
      cmd_queue := if String.eqb (line_of (buffer i ++ typed)) ""
                   then cmd_queue i
                   else cmd_queue i ++ [line_of (buffer i ++ typed)] |},
   map EchoChar typed ++ [EchoNewline]).
Proof.
  intros H. rewrite on_keys_app, (on_keys_plain typed H). reflexivity.
Qed.

(** X12.  Lines typed at an empty buffer, each ended by Enter: the buffer
    is empty again, and the queue has grown, in the order typed, by the
    stripped and lowered form of every line that is not blank; [get_cmd]
    hands out the oldest command and takes it off the queue, and returns
    nothing when the queue is empty. *)
Theorem reader_enqueues_lines (lines : list (list ascii)) (i : t) :
  Forall (fun l => forallb plain l = true) lines ->
  buffer i = [] ->
  let i' := fst (on_keys (flat_map (fun l => l ++ [CR]) lines) i) in
  buffer i' = [] /\
  cmd_queue i' =
    cmd_queue i ++
    filter (fun c => negb (String.eqb c "")) (map line_of lines) /\
  (forall c q, cmd_queue i' = c :: q ->
     get_cmd i' = (Some c, {| buffer := []; cmd_queue := q |})) /\
  (cmd_queue i' = [] -> get_cmd i' = (None, i')).
Proof.
  intros Hl Hb. cbv zeta.
  assert (H : buffer (fst (on_keys (flat_map (fun l => l ++ [CR]) lines) i)) = [] /\
              cmd_queue (fst (on_keys (flat_map (fun l => l ++ [CR]) lines) i)) =
              cmd_queue i ++
              filter (fun c => negb (String.eqb c "")) (map line_of lines)).
  { revert i Hb. induction Hl as [|l rest Hp _ IH]; intros i Hb; simpl.
    - split; [exact Hb | now rewrite app_nil_r].
    - rewrite on_keys_app, (on_keys_line l i Hp). simpl. rewrite Hb. simpl.
      match goal with
      | |- context [on_keys _ ?j] => destruct (IH j eq_refl) as [IH1 IH2]
      end.
      split; [exact IH1|]. rewrite IH2. simpl.
      destruct (String.eqb (line_of l) ""); simpl; [reflexivity|].
      now rewrite <- app_assoc. }
  destruct H as [H1 H2]. split; [exact H1|]. split; [exact H2|].
  unfold get_cmd. rewrite H1. split.
  - intros c q E. now rewrite E.
  - intros E. now rewrite E.
Qed.

Lemma reader_enqueues_lines_typed :
  let lines := [list_ascii_of_string "  Add Hub 10.0.0.5 ";
                list_ascii_of_string "   ";
                list_ascii_of_string "LIST"] in
  let i' := fst (on_keys (flat_map (fun l => l ++ [CR]) lines) init) in
  buffer i' = [] /\
  cmd_queue i' =
    cmd_queue init ++
    filter (fun c => negb (String.eqb c "")) (map line_of lines) /\
  (forall c q, cmd_queue i' = c :: q ->
     get_cmd i' = (Some c, {| buffer := []; cmd_queue := q |})) /\
  (cmd_queue i' = [] -> get_cmd i' = (None, i')).
Proof.
  apply (reader_enqueues_lines
           [list_ascii_of_string "  Add Hub 10.0.0.5 ";
            list_ascii_of_string "   ";
            list_ascii_of_string "LIST"] init).
  - repeat constructor.
  - reflexivity.
Defined.

(** ** Backspace *)

Lemma BS_not_CR : Ascii.eqb BS CR = false.
Proof. reflexivity. Qed.

Lemma on_key_backspace (i : t) :
  on_key BS i =
  ({| buffer := removelast (buffer i); cmd_queue := cmd_queue i |},
   repeat EchoErase (Nat.min 1 (List.length (buffer i)))).
Proof.
  unfold on_key. rewrite BS_not_CR, Ascii.eqb_refl.
  destruct i as [[|c r] q]; reflexivity.
Qed.

Lemma on_keys_backspaces (n : nat) :
  forall i,
    on_keys (repeat BS n) i =
    ({| buffer := firstn (List.length (buffer i) - n) (buffer i);
        cmd_queue := cmd_queue i |},
     repeat EchoErase (Nat.min n (List.length (buffer i)))).
Proof.
  induction n as [|n IH]; intros i.
  - simpl. rewrite Nat.sub_0_r, firstn_all. now destruct i.
  - cbn [repeat on_keys]. rewrite on_key_backspace, IH. cbn [buffer cmd_queue].
    assert (Hlen : List.length (removelast (buffer i)) =
                   (List.length (buffer i) - 1)%nat).
    { rewrite removelast_firstn_len, length_firstn. lia. }
    rewrite Hlen. f_equal.
    + f_equal. rewrite removelast_firstn_len, firstn_firstn. f_equal. lia.
    + rewrite <- repeat_app. f_equal. lia.
Qed.

(** X13.  Backspace takes the last character off the buffer and is ignored
    once the buffer is empty: after [n] of them the buffer holds what was
    typed, less its last [n] characters, the queue is untouched, and as
    many characters were erased on the terminal as were in the buffer. *)
Theorem backspace_erases (typed : list ascii) (n : nat) (i : t) :
  forallb plain typed = true ->
  let line := buffer i ++ typed in
  on_keys (typed ++ repeat BS n) i =
  ({| buffer := firstn (List.length line - n) line; cmd_queue := cmd_queue i |},
   map EchoChar typed ++ repeat EchoErase (Nat.min n (List.length line))).
Proof.
  intros H. cbv zeta.
  rewrite on_keys_app, (on_keys_plain typed H), on_keys_backspaces.
  reflexivity.
Qed.

Lemma backspace_erases_a_typo :
  let line := buffer init ++ list_ascii_of_string "lisr" in
  on_keys (list_ascii_of_string "lisr" ++ repeat BS 6) init =
  ({| buffer := firstn (List.length line - 6) line; cmd_queue := cmd_queue init |},
   map EchoChar (list_ascii_of_string "lisr") ++
   repeat EchoErase (Nat.min 6 (List.length line))).
Proof.
  apply (backspace_erases (list_ascii_of_string "lisr") 6 init). reflexivity.
Defined.

End Keyboard.

(* ====================================================================== *)
(** * How commands are recognised, and what [now] and [report] print *)
(* ====================================================================== *)

Section Dispatch.

Import PyStr Statistics DBAccess MCMonitor Scheduler Statements Examples.
Import Integrity Display Cases.

Local Open Scope Z_scope.

(** ** Prefixes *)

Lemma prefix_head (a : ascii) (p s : string) :
  String.prefix (String a p) s = true ->
  exists r, s = String a r /\ String.prefix p r = true.
Proof.
  destruct s as [|b r]; simpl; [discriminate|].
  destruct (ascii_dec a b) as [<-|]; [|discriminate].
  intros H. now exists r.
Qed.

Lemma prefix_other_head (a b : ascii) (p r : string) :
  a <> b -> String.prefix (String a p) (String b r) = false.
Proof. intros H. simpl. now destruct (ascii_dec a b). Qed.

Lemma prefix_same_head (a : ascii) (p r : string) :
  String.prefix (String a p) (String a r) = String.prefix p r.
Proof. simpl. now destruct (ascii_dec a a). Qed.

(** X14.  [_execute_command] recognises [add], [remove], [delete],
    [report] and [trend] by the first letters of the line, not by its
    first word: a line that begins with one of them goes to that handler
    whatever follows the letters, and the handler never looks at the first
    word; so every line of three words that begins with [add] registers a
    server. *)
Theorem commands_are_matched_by_prefix (env : Env) (cmd : string) (w : World) :
  (startswith cmd "add" = true ->
   _execute_command env cmd w = (_handle_add env cmd w, None)) /\
  (startswith cmd "remove" = true ->
   _execute_command env cmd w = (_handle_remove cmd w, None)) /\
  (startswith cmd "delete" = true ->
   _execute_command env cmd w = (_handle_delete cmd w, None)) /\
  (startswith cmd "report" = true ->
   _execute_command env cmd w = (_handle_report env cmd w, None)) /\
  (startswith cmd "trend" = true ->
   _execute_command env cmd w = _handle_trend env cmd w) /\
  (forall word name ip,
     startswith cmd "add" = true -> split cmd = [word; name; ip] ->
     _execute_command env cmd w = (add_server env name ip w, None)).
Proof.
  assert (Hadd : startswith cmd "add" = true ->
                 _execute_command env cmd w = (_handle_add env cmd w, None)).
  { unfold startswith. intros H.
    destruct (prefix_head _ _ _ H) as [r [E _]].
    unfold _execute_command, startswith. rewrite H. now rewrite E. }
  split; [exact Hadd|]. split; [|split; [|split; [|split]]].
  - unfold startswith. intros H.
    destruct (prefix_head _ _ _ H) as [r [E _]].
    unfold _execute_command, startswith. rewrite H. rewrite E.
    rewrite (prefix_other_head "a" "r") by discriminate. reflexivity.
  - unfold startswith. intros H.
    destruct (prefix_head _ _ _ H) as [r [E _]].
    unfold _execute_command, startswith. rewrite H. rewrite E.
    rewrite (prefix_other_head "a" "d"), (prefix_other_head "r" "d")
      by discriminate.
    reflexivity.
  - unfold startswith. intros H.
    destruct (prefix_head _ _ _ H) as [r1 [E1 H1]].
    destruct (prefix_head _ _ _ H1) as [r2 [E2 H2]].
    destruct (prefix_head _ _ _ H2) as [r3 [E3 _]].
    unfold _execute_command, startswith. rewrite H. rewrite E1, E2, E3.
    rewrite (prefix_other_head "a" "r"), (prefix_other_head "d" "r")
      by discriminate.
    rewrite !prefix_same_head, (prefix_other_head "m" "p") by discriminate.
    reflexivity.
  - unfold startswith. intros H.
    destruct (prefix_head _ _ _ H) as [r [E _]].
    unfold _execute_command, startswith. rewrite H. rewrite E.
    rewrite (prefix_other_head "a" "t"), !(prefix_other_head "r" "t"),
            (prefix_other_head "d" "t") by discriminate.
    reflexivity.
  - intros word name ip H Hs. rewrite (Hadd H). unfold _handle_add.
    now rewrite Hs.
Qed.

Lemma commands_are_matched_by_prefix_address :
  _execute_command env_up "address hub 10.0.0.5" orphan_world =
  (add_server env_up "hub" "10.0.0.5" orphan_world, None).
Proof.
  destruct (commands_are_matched_by_prefix env_up "address hub 10.0.0.5"
              orphan_world) as [_ [_ [_ [_ [_ H]]]]].
  apply (H "address" "hub" "10.0.0.5"); reflexivity.
Defined.

(** ** [real_time_query] *)

Lemma query_one_eq (env : Env) (w : World) (name ip : string) :
  query_one env w (name, ip) =
  print (query_line name (status_of env (io w) ip)) (next_io w).
Proof.
  unfold query_one, ask_status, query_line.
  destruct (status_of env (io w) ip) as [online|err]; [reflexivity|].
  now destruct (contains "timed out" err).
Qed.

Lemma query_loop (env : Env) (rows : list (string * string)) :
  forall w,
    let w' := fold_left (query_one env) rows w in
    out w' = out w ++ query_lines env (io w) rows /\
    io w' = (io w + List.length rows)%nat.
Proof.
  induction rows as [|[name ip] rest IH]; intros w; cbv zeta.
  - simpl. split; [now rewrite app_nil_r | lia].
  - cbn [fold_left query_lines List.length]. rewrite query_one_eq.
    destruct (IH (print (query_line name (status_of env (io w) ip)) (next_io w)))
      as [Ho Hi].
    simpl in Ho, Hi. split.
    + rewrite Ho, <- app_assoc. reflexivity.
    + rewrite Hi. lia.
Qed.

(** X15.  [real_time_query] asks every registered server once, in the
    order of registration, and prints one line for each, the count or the
    failure; a server that fails does not stop the round.  It stores
    nothing: the database is as before. *)
Theorem real_time_query_asks_every_server (env : Env) (w : World) :
  let rows := load_servers w in
  let w' := real_time_query env w in
  db w' = db w /\
  io w' = (io w + List.length rows)%nat /\
  out w' = out w ++ match rows with
                    | [] => [NowNoServers]
                    | _ => NowStart :: query_lines env (io w) rows
                    end.
Proof.
  cbv zeta. split; [apply real_time_query_only_prints|].
  unfold real_time_query. destruct (load_servers w) as [|s rest].
  - split; [simpl; lia | reflexivity].
  - destruct (query_loop env (s :: rest) (print NowStart w)) as [Ho Hi].
    split; [exact Hi|]. rewrite Ho. simpl. rewrite <- app_assoc. reflexivity.
Qed.

(** ** A negative number of days *)

Lemma window_of_negative_days (name : string) (now days : Z) (d : database) :
  days < 0 -> window name now days d = [].
Proof.
  intros H. unfold window, datetime_now_minus_days.
  replace (days <? 0) with true by (symmetry; now apply Z.ltb_lt).
  now apply filter_none.
Qed.

(** So is the window of a number of days that reaches back before julian
    day 0, such as three million. *)
Lemma window_before_julian_day_0 (name : string) (now days : Z) (d : database) :
  now - days * seconds_per_day < julian_origin -> window name now days d = [].
Proof.
  intros H. unfold window, datetime_now_minus_days. cbv zeta.
  replace (now - days * seconds_per_day <? julian_origin) with true
    by (symmetry; now apply Z.ltb_lt).
  destruct (days <? 0), (5373485 <=? days); now apply filter_none.
Qed.

Lemma report_loop_negative (env : Env) (days : Z) (rows : list (string * string)) :
  days < 0 ->
  forall w,
    out (fold_left (report_one env days) rows w) =
    out w ++ flat_map empty_block rows.
Proof.
  intros Hd. induction rows as [|[name ip] rest IH]; intros w.
  - simpl. now rewrite app_nil_r.
  - cbn [fold_left flat_map]. rewrite IH, out_report_one.
    destruct (aggregate_of_empty_window name (sql_now env (io w)) days (db w)
                (window_of_negative_days name _ days (db w) Hd)) as [-> _].
    rewrite <- app_assoc. reflexivity.
Qed.

Lemma plot_one_negative (env : Env) (days : Z) (w : World)
    (lines : list (list (Z * Z))) (name : string) :
  days < 0 ->
  plot_one env days (w, lines) name = (print (TrendNoData name) (next_io w), lines).
Proof.
  intros Hd. unfold plot_one, ask_now, select_trend.
  change (db (next_io w)) with (db w).
  now rewrite (window_of_negative_days name _ days (db w) Hd).
Qed.

Lemma plot_loop_negative (env : Env) (days : Z) (names : list string) :
  days < 0 ->
  forall w lines,
    let acc := fold_left (plot_one env days) names (w, lines) in
    out (fst acc) = out w ++ map TrendNoData names /\ snd acc = lines.
Proof.
  intros Hd. induction names as [|n rest IH]; intros w lines; cbv zeta.
  - simpl. split; [now rewrite app_nil_r | reflexivity].
  - cbn [fold_left map]. rewrite (plot_one_negative env days w lines n Hd).
    destruct (IH (print (TrendNoData n) (next_io w)) lines) as [Ho Hl].
    split; [|exact Hl]. rewrite Ho. simpl. rewrite <- app_assoc. reflexivity.
Qed.

(** X16.  With a negative number of days the window of the queries is
    empty, whatever the store holds: [generate_report] prints every server
    without peak, average or day, and [plot_trend] reports every name as
    without data and still hands a figure to [plt.savefig], which has no
    line; it is written, and said to be, unless [plt.savefig] raises. *)
Theorem negative_days_select_nothing (env : Env) (days : Z)
    (names : list string) (w : World) :
  days < 0 ->
  let saved := savefig_at env names days w in
  let r := plot_trend env names days w in
  out (generate_report env days w) =
    out w ++ ReportStart :: ReportTitle :: flat_map empty_block (load_servers w) /\
  out (fst r) =
    out w ++ map TrendNoData names ++
    saved_notice saved (trend_filename names days) /\
  files (fst r) =
    files w ++
    saved_figure saved (mk_artifact (trend_filename names days) [] names) /\
  snd r = raised_by saved.
Proof.
  intros Hd. cbv zeta. split.
  - unfold generate_report. rewrite (report_loop_negative env days _ Hd).
    simpl. rewrite <- !app_assoc. reflexivity.
  - unfold plot_trend, savefig_at, ask_savefig.
    destruct (plot_loop_negative env days names Hd w []) as [Ho Hl].
    destruct (plot_loop_frame env days names (w, [])) as [_ [Hf [_ Hi]]].
    destruct (fold_left (plot_one env days) names (w, [])) as [w1 lines].
    simpl in Ho, Hl, Hf, Hi. subst lines. rewrite Hi.
    destruct (savefig_of env (io w + List.length names)
                (trend_filename names days));
      simpl; rewrite Ho, Hf, ?app_nil_r, <- ?app_assoc; now repeat split.
Qed.

Lemma negative_days_select_nothing_in_orphan_world :
  let saved := savefig_at env_up ["lobby"] (-3) orphan_world in
  let r := plot_trend env_up ["lobby"] (-3) orphan_world in
  out (generate_report env_up (-3) orphan_world) =
    out orphan_world ++
    ReportStart :: ReportTitle :: flat_map empty_block (load_servers orphan_world) /\
  out (fst r) =
    out orphan_world ++ map TrendNoData ["lobby"] ++
    saved_notice saved (trend_filename ["lobby"] (-3)) /\
  files (fst r) =
    files orphan_world ++
    saved_figure saved (mk_artifact (trend_filename ["lobby"] (-3)) [] ["lobby"]) /\
  snd r = raised_by saved.
Proof.
  apply (negative_days_select_nothing env_up (-3) ["lobby"] orphan_world). lia.
Defined.

End Dispatch.

(* ====================================================================== *)
(** * The detector's guard and the figure of [plot_trend] *)
(* ====================================================================== *)

Section Figure.

Import PyStr Statistics DBAccess MCMonitor Scheduler Statements Examples.
Import Integrity Display Cases.

Local Open Scope Z_scope.

(** X17.  The test of [detect_anomalies] never raises: on fewer than three
    rows it passes the server over, and on three or more the mean and the
    standard deviation of the older rows are defined and it reaches a
    verdict.  A server passed over is not mentioned, and the query hands
    the test six rows at most. *)
Theorem detector_never_raises (data : list Z) (w : World) (name ip : string) :
  (exists v, check_samples data = Some v /\
             (v = Skip <-> (List.length data < 3)%nat)) /\
  ((List.length (select_recent name (db w)) < 3)%nat ->
   detect_one w (name, ip) = w) /\
  (List.length (select_recent name (db w)) <= 6)%nat.
Proof.
  split; [|split].
  - destruct (List.length data <? 3)%nat eqn:E.
    + exists Skip. unfold check_samples. rewrite E.
      apply Nat.ltb_lt in E. now repeat split.
    + apply Nat.ltb_ge in E. destruct data as [|c b]; [simpl in E; lia|].
      assert (Hb : (2 <= List.length b)%nat) by (simpl in E; lia).
      destruct (mean_defined b) as [avg Hm];
        [intros ->; simpl in Hb; lia|].
      destruct (stdev_defined b Hb) as [s [Hv _]].
      rewrite (check_samples_eq c b avg (Statistics.Float s) Hb Hm Hv).
      destruct (Statistics.ltb _ (Statistics.Int c));
        [|destruct (Statistics.ltb (Statistics.Int c) _)];
        eexists; (split; [reflexivity|]); (split; [discriminate|]);
        intros H; simpl in H; lia.
  - intros H. unfold detect_one, check_samples.
    apply Nat.ltb_lt in H. now rewrite H.
  - apply select_recent_length.
Qed.

(** ** The lines and the legend of the figure *)

Lemma plot_loop (env : Env) (days : Z) (names : list string) :
  forall w lines,
    let acc := fold_left (plot_one env days) names (w, lines) in
    snd acc = lines ++ filter has_data (trend_rows env (io w) days (db w) names) /\
    db (fst acc) = db w.
Proof.
  induction names as [|n rest IH]; intros w lines; cbv zeta.
  - simpl. split; [now rewrite app_nil_r | reflexivity].
  - cbn [fold_left trend_rows filter].
    unfold plot_one at 2 4. unfold ask_now.
    change (db (next_io w)) with (db w).
    destruct (select_trend n (sql_now env (io w)) days (db w)) as [|p r] eqn:E.
    + simpl has_data. cbv iota.
      destruct (IH (print (TrendNoData n) (next_io w)) lines) as [Hl Hd].
      simpl in Hl, Hd. now split.
    + simpl has_data. cbv iota.
      destruct (IH (next_io w) (lines ++ [p :: r])) as [Hl Hd].
      simpl in Hl, Hd. split; [|exact Hd].
      rewrite Hl, <- app_assoc. reflexivity.
Qed.

(** X18.  The figure that [plot_trend] hands to [plt.savefig], and that
    is in the working directory when the call has written it, has one line
    for every name whose query returned rows, in the order of the names,
    and the legend labels the lines by position with the names as given: a
    name without data has no line but keeps its label, so that the lines
    after it carry the labels of the names before them.  With two names of
    which the first has no data, the only line, the second server's, is
    labelled with the first name. *)
Theorem legend_labels_by_position (env : Env) (names : list string) (days : Z)
    (w : World) :
  let rows := trend_rows env (io w) days (db w) names in
  let figure := mk_artifact (trend_filename names days) (filter has_data rows) names in
  files (fst (plot_trend env names days w)) =
    files w ++ saved_figure (savefig_at env names days w) figure /\
  legend figure = combine (filter has_data rows) names /\
  (forall a b data,
     names = [a; b] -> rows = [[]; data] -> has_data data = true ->
     legend figure = [(data, a)]).
Proof.
  cbv zeta. split; [|split].
  - unfold plot_trend, savefig_at, ask_savefig.
    destruct (plot_loop env days names w []) as [Hl _].
    destruct (plot_loop_frame env days names (w, [])) as [_ [Hf [_ Hi]]].
    destruct (fold_left (plot_one env days) names (w, [])) as [w1 lines1].
    simpl in Hl, Hf, Hi. rewrite Hi.
    destruct (savefig_of env (io w + List.length names)
                (trend_filename names days));
      simpl; rewrite Hf, ?app_nil_r; [|reflexivity..].
    now rewrite Hl.
  - reflexivity.
  - intros a b data -> -> Hdata. unfold legend. simpl. now rewrite Hdata.
Qed.

Lemma legend_labels_by_position_in_two_world :
  let rows := trend_rows env_up (io two_world) 7 (db two_world) ["lobby"; "creative"] in
  let figure := mk_artifact (trend_filename ["lobby"; "creative"] 7)
                  (filter has_data rows) ["lobby"; "creative"] in
  rows = [[]; [(16, 3); (21, 4)]] /\
  files (fst (plot_trend env_up ["lobby"; "creative"] 7 two_world)) =
    files two_world ++
    saved_figure (savefig_at env_up ["lobby"; "creative"] 7 two_world) figure /\
  legend figure = [([(16, 3); (21, 4)], "lobby")].
Proof.
  destruct (legend_labels_by_position env_up ["lobby"; "creative"] 7 two_world)
    as [Hf [_ H]].
  split; [reflexivity|]. split; [exact Hf|].
  apply (H "lobby" "creative" [(16, 3); (21, 4)]); reflexivity.
Defined.

(** ** The name of the file *)

Lemma concat_cons2 (sep x y : string) (rest : list string) :
  String.concat sep (x :: y :: rest) =
  (x ++ sep ++ String.concat sep (y :: rest))%string.
Proof. reflexivity. Qed.

Lemma string_app_assoc (a b c : string) :
  ((a ++ b) ++ c)%string = (a ++ b ++ c)%string.
Proof. induction a as [|x a IH]; simpl; [reflexivity|]. now rewrite IH. Qed.

(** X19.  The file name of a figure does not tell its names apart: they
    are joined by [_], which a name may hold, so that the figure for the
    names [x] and [y] and the figure for the one name [x_y], over the same
    days, are written to the same file. *)
Theorem trend_filename_collision (x y : string) (rest : list string) (days : Z) :
  trend_filename (x :: y :: rest) days =
  trend_filename ((x ++ "_" ++ y)%string :: rest) days.
Proof.
  unfold trend_filename, join. do 3 f_equal.
  destruct rest as [|z rest].
  - reflexivity.
  - rewrite !concat_cons2, !string_app_assoc. reflexivity.
Qed.

End Figure.

(* ====================================================================== *)
(** * The values of the report *)
(* ====================================================================== *)

Section ReportValues.

Import PyStr Statistics DBAccess MCMonitor Scheduler Statements Examples.
Import Integrity Display Cases.

Local Open Scope Z_scope.

(** [MAX] is one of the values and none is greater. *)
Lemma fold_max_spec (r : list Z) :
  forall x,
    In (fold_left Z.max r x) (x :: r) /\
    Forall (fun y => y <= fold_left Z.max r x) (x :: r).
Proof.
  induction r as [|y r IH]; intros x; simpl.
  - split; [now left | constructor; [lia | constructor]].
  - destruct (IH (Z.max x y)) as [Hin Hall].
    inversion Hall as [|? ? Hm Hr]; subst. split.
    + destruct Hin as [E|Hin]; [|now right; right].
      destruct (Z.max_spec x y) as [[_ E']|[_ E']]; rewrite E' in *;
        [right; now left | now left].
    + constructor; [lia|]. constructor; [lia | exact Hr].
Qed.

(** X20.  When the counts of the window are not negative and one of them
    is positive, the report of the server shows numbers: the peak is the
    greatest count of the window, and the average, a double, is positive;
    when the sum of the counts and their number are below [2^53], it is the
    double nearest to the exact average, which it misses by [2^-53] of it at
    most. *)
Theorem report_shows_positive_counts (env : Env) (days : Z) (w : World)
    (name ip : string) :
  let rows := window name (sql_now env (io w)) days (db w) in
  let counts := map stat_online rows in
  let exact :=
    (inject_Z (sumZ counts) / inject_Z (Z.of_nat (List.length counts)))%Q in
  Forall (fun x => 0 <= x) counts ->
  Exists (fun x => 0 < x) counts ->
  exists peak avg,
    out (report_one env days w (name, ip)) =
      out w ++
      [ReportServer name ip; ReportPeak (Val peak); ReportAvg (Val avg);
       ReportDays (count_distinct (map (fun r => day_of (stat_timestamp r)) rows))] /\
    In peak counts /\
    Forall (fun x => x <= peak) counts /\
    (0 < avg)%Q /\
    (sumZ counts < 2 ^ 53 -> Z.of_nat (List.length counts) < 2 ^ 53 ->
     avg = Float64.round exact /\
     (exact - exact * (1 # 2 ^ 53) <= avg <= exact + exact * (1 # 2 ^ 53))%Q).
Proof.
  cbv zeta. intros Hall Hex.
  rewrite out_report_one. unfold select_aggregate.
  set (rows := window name (sql_now env (io w)) days (db w)) in *.
  set (counts := map stat_online rows) in *.
  destruct (sql_avg_positive counts Hall Hex) as [avg [Havg [Hpos Hnear]]].
  cbv zeta in Hnear.
  destruct counts as [|x r] eqn:Ec; [inversion Hex|].
  destruct (fold_max_spec r x) as [Hin Hmax].
  exists (fold_left Z.max r x), avg.
  split; [|split; [exact Hin | split; [exact Hmax | split; [exact Hpos | exact Hnear]]]].
  rewrite Havg. unfold sql_max, peak_shown, avg_shown.
  assert (Hpeak : (fold_left Z.max r x =? 0) = false).
  { apply Z.eqb_neq. intros E.
    apply Exists_exists in Hex. destruct Hex as [y [Hy Hy0]].
    rewrite Forall_forall in Hmax. specialize (Hmax y Hy). lia. }
  assert (Hq : Qeq_bool avg 0 = false).
  { destruct (Qeq_bool avg 0) eqn:E; [|reflexivity].
    apply Qeq_bool_iff in E. rewrite E in Hpos. discriminate Hpos. }
  rewrite Hpeak, Hq. reflexivity.
Qed.

Lemma report_shows_positive_counts_of_lobby :
  let rows := window "lobby" (sql_now env_up (io orphan_world)) 1 (db orphan_world) in
  let counts := map stat_online rows in
  let exact :=
    (inject_Z (sumZ counts) / inject_Z (Z.of_nat (List.length counts)))%Q in
  exists peak avg,
    out (report_one env_up 1 orphan_world ("lobby", "10.0.0.1")) =
      out orphan_world ++
      [ReportServer "lobby" "10.0.0.1"; ReportPeak (Val peak); ReportAvg (Val avg);
       ReportDays (count_distinct (map (fun r => day_of (stat_timestamp r)) rows))] /\
    In peak counts /\
    Forall (fun x => x <= peak) counts /\
    (0 < avg)%Q /\
    (sumZ counts < 2 ^ 53 -> Z.of_nat (List.length counts) < 2 ^ 53 ->
     avg = Float64.round exact /\
     (exact - exact * (1 # 2 ^ 53) <= avg <= exact + exact * (1 # 2 ^ 53))%Q).
Proof.
  apply (report_shows_positive_counts env_up 1 orphan_world "lobby" "10.0.0.1").
  - repeat constructor; discriminate.
  - left. reflexivity.
Defined.

(** A third of a player: the average of the counts 1, 0 and 0 is the double
    nearest to 1/3, and three times it is not 1. *)
Lemma average_of_a_third :
  sql_avg [1; 0; 0] = Some (6004799503160661 # 18014398509481984)%Q /\
  ~ ((6004799503160661 # 18014398509481984) * 3 == 1)%Q.
Proof. split; [vm_compute; reflexivity | discriminate]. Qed.

End ReportValues.

(* ====================================================================== *)
(** * [_process_input] round by round *)
(* ====================================================================== *)

Section Rounds.

Import PyStr Statistics DBAccess MCMonitor Scheduler Statements Examples.
Import Integrity Display Cases InputLoop.

Local Open Scope Z_scope.

(** ** No method reads the input handler *)

Section Handler.

Variable i : WindowsInput.t.

Lemma fold_set_input {B} (f : World -> B -> World) (l : list B) :
  (forall w b, f (set_input i w) b = set_input i (f w b)) ->
  forall w, fold_left f l (set_input i w) = set_input i (fold_left f l w).
Proof.
  intros Hf. induction l as [|b l IH]; intros w; simpl; [reflexivity|].
  now rewrite Hf, IH.
Qed.

Lemma generate_report_set_input (env : Env) (days : Z) (w : World) :
  generate_report env days (set_input i w) = set_input i (generate_report env days w).
Proof.
  unfold generate_report.
  change (load_servers (set_input i w)) with (load_servers w).
  change (print ReportTitle (print ReportStart (set_input i w)))
    with (set_input i (print ReportTitle (print ReportStart w))).
  apply fold_set_input. intros w' [name ip].
  unfold report_one, ask_now.
  change (db (next_io (set_input i w'))) with (db (next_io w')).
  change (io (set_input i w')) with (io w').
  now destruct (select_aggregate name (sql_now env (io w')) days (db (next_io w')))
    as [[peak avg] ndays].
Qed.

Lemma real_time_query_set_input (env : Env) (w : World) :
  real_time_query env (set_input i w) = set_input i (real_time_query env w).
Proof.
  unfold real_time_query.
  change (load_servers (set_input i w)) with (load_servers w).
  destruct (load_servers w) as [|s l]; [reflexivity|].
  change (print NowStart (set_input i w)) with (set_input i (print NowStart w)).
  apply fold_set_input. intros w' [name ip].
  unfold query_one, ask_status.
  change (io (set_input i w')) with (io w').
  destruct (status_of env (io w') ip) as [online|err]; [reflexivity|].
  now destruct (contains "timed out" err).
Qed.

Lemma list_servers_set_input (w : World) :
  _list_servers (set_input i w) = set_input i (_list_servers w).
Proof.
  unfold _list_servers.
  change (load_servers (set_input i w)) with (load_servers w).
  destruct (load_servers w) as [|s l]; [reflexivity|].
  change (print ListTitle (set_input i w)) with (set_input i (print ListTitle w)).
  apply fold_set_input. reflexivity.
Qed.

Lemma add_server_set_input (env : Env) (name ip : string) (w : World) :
  add_server env name ip (set_input i w) = set_input i (add_server env name ip w).
Proof.
  unfold add_server, ask_status.
  change (io (set_input i w)) with (io w).
  destruct (status_of env (io w) ip) as [online|err].
  - change (db (next_io (set_input i w))) with (db (next_io w)).
    now destruct (insert_server name ip (db (next_io w))).
  - now destruct (contains "timed out" err).
Qed.

Lemma remove_server_set_input (name : string) (w : World) :
  remove_server name (set_input i w) = set_input i (remove_server name w).
Proof.
  unfold remove_server. change (db (set_input i w)) with (db w).
  destruct (delete_server name (db w)) as [d n]. now destruct (0 <? n)%nat.
Qed.

Lemma delete_server_data_set_input (name : string) (w : World) :
  delete_server_data name (set_input i w) = set_input i (delete_server_data name w).
Proof.
  unfold delete_server_data, _get_server_id.
  change (db (set_input i w)) with (db w).
  destruct (select_id name (db w)) as [k|]; [|reflexivity].
  destruct (k =? 0); [reflexivity|].
  now destruct (delete_stats_of k (db w)) as [d n].
Qed.

Lemma plot_trend_set_input (env : Env) (names : list string) (days : Z) (w : World) :
  plot_trend env names days (set_input i w) =
  (set_input i (fst (plot_trend env names days w)),
   snd (plot_trend env names days w)).
Proof.
  unfold plot_trend, ask_savefig.
  assert (H : forall l w0 lines,
            fold_left (plot_one env days) l (set_input i w0, lines) =
            (set_input i (fst (fold_left (plot_one env days) l (w0, lines))),
             snd (fold_left (plot_one env days) l (w0, lines)))).
  { induction l as [|n l IH]; intros w0 lines; [reflexivity|].
    cbn [fold_left].
    assert (E : plot_one env days (set_input i w0, lines) n =
                (set_input i (fst (plot_one env days (w0, lines) n)),
                 snd (plot_one env days (w0, lines) n))).
    { unfold plot_one, ask_now.
      change (db (next_io (set_input i w0))) with (db (next_io w0)).
      change (io (set_input i w0)) with (io w0).
      now destruct (select_trend n (sql_now env (io w0)) days (db (next_io w0))). }
    rewrite E, IH. now destruct (plot_one env days (w0, lines) n). }
  rewrite H. destruct (fold_left (plot_one env days) names (w, [])) as [w1 lines].
  cbn [fst snd]. change (io (set_input i w1)) with (io w1).
  now destruct (savefig_of env (io w1) (trend_filename names days)).
Qed.

(** Executing a command and replacing the input handler commute. *)
Lemma execute_command_set_input (env : Env) (cmd : string) (w : World) :
  _execute_command env cmd (set_input i w) =
  (set_input i (fst (_execute_command env cmd w)),
   snd (_execute_command env cmd w)).
Proof.
  unfold _execute_command.
  repeat match goal with
         | |- context [if ?b then _ else _] => destruct b
         end; cbn [fst snd]; try reflexivity.
  - now rewrite real_time_query_set_input.
  - now rewrite list_servers_set_input.
  - unfold _handle_add. destruct (split cmd) as [|t [|name [|ip [|x r]]]];
      try reflexivity. now rewrite add_server_set_input.
  - unfold _handle_remove. destruct (split cmd) as [|t [|name [|x r]]];
      try reflexivity. now rewrite remove_server_set_input.
  - unfold _handle_delete. destruct (split cmd) as [|t [|name [|x r]]];
      try reflexivity. now rewrite delete_server_data_set_input.
  - unfold _handle_report.
    destruct (match split cmd with _ :: d :: _ => int d | _ => Some 1 end);
      [|reflexivity].
    now rewrite generate_report_set_input.
  - unfold _handle_trend. destruct (split cmd) as [|t [|d [|n r]]];
      try reflexivity.
    destruct (int d) as [days|]; [|reflexivity].
    change (load_servers (set_input i w)) with (load_servers w).
    destruct (filter _ (n :: r)); [|reflexivity].
    rewrite plot_trend_set_input.
    now destruct (plot_trend env (n :: r) days w) as [w1 [[|err]|]].
Qed.

(** So do the [except] clause and replacing the input handler. *)
Lemma turn_set_input (env : Env) (cmd : string) (w : World) :
  print Prompt
    (caught (_execute_command env cmd (print (ExecCommand cmd) (set_input i w)))) =
  set_input i (turn env w cmd).
Proof.
  unfold turn.
  change (print (ExecCommand cmd) (set_input i w))
    with (set_input i (print (ExecCommand cmd) w)).
  rewrite execute_command_set_input.
  now destruct (_execute_command env cmd (print (ExecCommand cmd) w))
    as [w1 [err|]].
Qed.

Lemma drain_set_input (env : Env) (q : list string) :
  forall w,
    drain env q (set_input i w) =
    (set_input i (fst (drain env q w)), snd (drain env q w)).
Proof.
  induction q as [|c q IH]; intros w; cbn [drain]; [reflexivity|].
  destruct (String.eqb c ""); [reflexivity|].
  rewrite turn_set_input. apply IH.
Qed.

End Handler.

Lemma rounds_of_queue (env : Env) (q : list string) :
  forall (b : list ascii) (w : World) (fuel : nat),
    input_handler w = WindowsInput.mk b q ->
    (List.length q < fuel)%nat ->
    rounds env fuel w = Some (_process_input env w).
Proof.
  induction q as [|c q IH]; intros b w fuel Hi Hfuel.
  - destruct fuel as [|fuel]; [simpl in Hfuel; lia|].
    unfold _process_input. simpl. unfold WindowsInput.get_cmd.
    rewrite Hi. reflexivity.
  - destruct fuel as [|fuel]; [simpl in Hfuel; lia|].
    unfold _process_input. cbn [rounds]. unfold WindowsInput.get_cmd.
    rewrite Hi. cbn [WindowsInput.cmd_queue WindowsInput.buffer drain].
    destruct (String.eqb c ""); [reflexivity|].
    rewrite turn_set_input.
    rewrite (IH b (set_input (WindowsInput.mk b q) (turn env w c))
               fuel eq_refl) by (simpl in Hfuel; lia).
    unfold _process_input.
    cbn [input_handler set_input WindowsInput.cmd_queue WindowsInput.buffer].
    rewrite drain_set_input. fold (turn env w c).
    destruct (drain env q (turn env w c)) as [w1 rest].
    reflexivity.
Qed.

(** X21.  The loop of [_process_input] ends: with a queue of [n] commands
    it makes [n + 1] calls of [get_cmd] at most, and it leaves the monitor
    in the state that the drained queue gives, with no round left to
    make. *)
Theorem process_input_terminates (env : Env) (w : World) (fuel : nat) :
  (List.length (WindowsInput.cmd_queue (input_handler w)) < fuel)%nat ->
  rounds env fuel w = Some (_process_input env w) /\
  (Forall well_formed_command (WindowsInput.cmd_queue (input_handler w)) ->
   WindowsInput.get_cmd (input_handler (_process_input env w)) =
     (None, input_handler (_process_input env w))).
Proof.
  intros Hfuel. split.
  - apply (rounds_of_queue env (WindowsInput.cmd_queue (input_handler w))
             (WindowsInput.buffer (input_handler w))); [|exact Hfuel].
    now destruct (input_handler w).
  - intros Hwf. rewrite (process_input_eq env w Hwf). reflexivity.
Qed.

Lemma process_input_terminates_after_exit_and_list :
  let w := feed (keys exit_pass) (world entered) in
  rounds env_up 3 w = Some (_process_input env_up w) /\
  (Forall well_formed_command (WindowsInput.cmd_queue (input_handler w)) ->
   WindowsInput.get_cmd (input_handler (_process_input env_up w)) =
     (None, input_handler (_process_input env_up w))).
Proof.
  apply (process_input_terminates env_up (feed (keys exit_pass) (world entered)) 3).
  vm_compute. lia.
Defined.

End Rounds.

(* ====================================================================== *)
(** * The terminal only grows, and what stops the monitor *)
(* ====================================================================== *)

Ltac more_printed :=
  first [ eexists; simpl; rewrite <- ?app_assoc; reflexivity
        | exists nil; simpl; rewrite app_nil_r; reflexivity ].

Section Terminal.

Import PyStr Statistics DBAccess MCMonitor Scheduler Statements Examples.
Import Integrity Display Cases.

Local Open Scope Z_scope.

Lemma printed_more_refl (w : World) : printed_more w w.
Proof. exists []. now rewrite app_nil_r. Qed.

Lemma printed_more_trans (w1 w2 w3 : World) :
  printed_more w1 w2 -> printed_more w2 w3 -> printed_more w1 w3.
Proof.
  intros [m1 H1] [m2 H2]. exists (m1 ++ m2). now rewrite H2, H1, app_assoc.
Qed.

Lemma printed_more_loop {B} (f : World -> B -> World) (l : list B) :
  (forall w b, printed_more w (f w b)) ->
  forall w, printed_more w (fold_left f l w).
Proof.
  intros Hf. induction l as [|b l IH]; intros w; simpl;
    [apply printed_more_refl|].
  eapply printed_more_trans; [apply Hf | apply IH].
Qed.

Lemma printed_more_In (m : msg) (w w' : World) :
  printed_more w w' -> In m (out w) -> In m (out w').
Proof. intros [more ->] H. apply in_or_app. now left. Qed.

(** ** The methods *)

Lemma collect_data_prints_more (env : Env) (w : World) :
  printed_more w (collect_data env w).
Proof.
  unfold collect_data. destruct (load_servers w) as [|s l];
    [apply printed_more_refl|].
  apply printed_more_trans with (print CollectStart w); [more_printed|].
  apply printed_more_loop. intros w' [name ip].
  unfold collect_one, ask_status, ask_now.
  destruct (status_of env (io w') ip) as [online|err]; [|more_printed].
  destruct (fits_integer online); more_printed.
Qed.

Lemma generate_report_prints_more (env : Env) (days : Z) (w : World) :
  printed_more w (generate_report env days w).
Proof.
  unfold generate_report.
  apply printed_more_trans with (print ReportTitle (print ReportStart w));
    [more_printed|].
  apply printed_more_loop. intros w' [name ip].
  eexists. apply out_report_one.
Qed.

Lemma detect_anomalies_prints_more (w : World) :
  printed_more w (detect_anomalies w).
Proof.
  unfold detect_anomalies.
  apply printed_more_trans with (print AnomalyStart w); [more_printed|].
  apply printed_more_loop. intros w' [name ip].
  pose proof (detect_one_prints w' name ip) as H. cbv zeta in H.
  destruct (check_samples (select_recent name (db w'))) as [[| | |]|];
    try (rewrite H; apply printed_more_refl);
    destruct H as [avg [_ ->]]; more_printed.
Qed.

Lemma clean_old_data_prints_more (env : Env) (w : World) :
  printed_more w (clean_old_data env w).
Proof.
  unfold clean_old_data, ask_now. destruct (never_delete_data w); [more_printed|].
  destruct (delete_stats_before _ _) as [d n]. more_printed.
Qed.

Lemma plot_trend_prints_more (env : Env) (names : list string) (days : Z)
    (w : World) :
  printed_more w (fst (plot_trend env names days w)).
Proof.
  unfold plot_trend, ask_savefig.
  assert (H : forall l w0 lines,
            printed_more w0 (fst (fold_left (plot_one env days) l (w0, lines)))).
  { induction l as [|n l IH]; intros w0 lines; [apply printed_more_refl|].
    cbn [fold_left].
    destruct (plot_one env days (w0, lines) n) as [w1 lines1] eqn:E.
    eapply printed_more_trans; [|apply IH].
    unfold plot_one, ask_now in E.
    destruct (select_trend n (sql_now env (io w0)) days (db (next_io w0)));
      injection E as <- _; more_printed. }
  specialize (H names w []).
  destruct (fold_left (plot_one env days) names (w, [])) as [w1 lines].
  eapply printed_more_trans; [exact H|].
  destruct (savefig_of env (io w1) (trend_filename names days)); more_printed.
Qed.

Lemma add_server_prints_more (env : Env) (name ip : string) (w : World) :
  printed_more w (add_server env name ip w).
Proof.
  unfold add_server, ask_status.
  destruct (status_of env (io w) ip) as [online|err].
  - destruct (insert_server name ip (db (next_io w))); more_printed.
  - destruct (contains "timed out" err); more_printed.
Qed.

Lemma remove_server_prints_more (name : string) (w : World) :
  printed_more w (remove_server name w).
Proof.
  unfold remove_server. destruct (delete_server name (db w)) as [d n].
  destruct (0 <? n)%nat; more_printed.
Qed.

Lemma delete_server_data_prints_more (name : string) (w : World) :
  printed_more w (delete_server_data name w).
Proof.
  unfold delete_server_data, _get_server_id.
  destruct (select_id name (db w)) as [k|]; [|more_printed].
  destruct (k =? 0); [more_printed|].
  destruct (delete_stats_of k (db w)) as [d n]. more_printed.
Qed.

Lemma real_time_query_prints_more (env : Env) (w : World) :
  printed_more w (real_time_query env w).
Proof.
  unfold real_time_query. destruct (load_servers w) as [|s l]; [more_printed|].
  apply printed_more_trans with (print NowStart w); [more_printed|].
  apply printed_more_loop. intros w' [name ip].
  unfold query_one, ask_status.
  destruct (status_of env (io w') ip) as [online|err]; [more_printed|].
  destruct (contains "timed out" err); more_printed.
Qed.

Lemma list_servers_prints_more (w : World) : printed_more w (_list_servers w).
Proof.
  unfold _list_servers. destruct (load_servers w) as [|s l]; [more_printed|].
  apply printed_more_trans with (print ListTitle w); [more_printed|].
  apply printed_more_loop. intros w' b. more_printed.
Qed.

Lemma execute_command_prints_more (env : Env) (cmd : string) (w : World) :
  printed_more w (fst (_execute_command env cmd w)).
Proof.
  unfold _execute_command.
  repeat match goal with
         | |- context [if ?b then _ else _] => destruct b
         end; cbn [fst]; try more_printed.
  - apply real_time_query_prints_more.
  - apply list_servers_prints_more.
  - unfold _handle_add. destruct (split cmd) as [|t [|name [|ip [|x r]]]];
      try more_printed. apply add_server_prints_more.
  - unfold _handle_remove. destruct (split cmd) as [|t [|name [|x r]]];
      try more_printed. apply remove_server_prints_more.
  - unfold _handle_delete. destruct (split cmd) as [|t [|name [|x r]]];
      try more_printed. apply delete_server_data_prints_more.
  - unfold _handle_report.
    destruct (match split cmd with _ :: d :: _ => int d | _ => Some 1 end);
      [|more_printed].
    apply generate_report_prints_more.
  - unfold _handle_trend. destruct (split cmd) as [|t [|d [|n r]]];
      try more_printed.
    destruct (int d) as [days|]; [|more_printed].
    destruct (filter _ (n :: r)); [|more_printed].
    pose proof (plot_trend_prints_more env (n :: r) days w) as H.
    destruct (plot_trend env (n :: r) days w) as [w1 [[|err]|]];
      cbn [fst] in *; try exact H.
    eapply printed_more_trans; [exact H|]. more_printed.
Qed.

(** A turn of the loop of [_process_input] prints the command first. *)
Lemma turn_prints_command (env : Env) (w : World) (cmd : string) :
  printed_more (print (ExecCommand cmd) w) (turn env w cmd).
Proof.
  unfold turn.
  apply printed_more_trans
    with (fst (_execute_command env cmd (print (ExecCommand cmd) w)));
    [apply execute_command_prints_more|].
  destruct (_execute_command env cmd (print (ExecCommand cmd) w))
    as [w1 [err|]]; more_printed.
Qed.

Lemma turn_prints_more (env : Env) (w : World) (cmd : string) :
  printed_more w (turn env w cmd).
Proof.
  apply printed_more_trans with (print (ExecCommand cmd) w);
    [more_printed | apply turn_prints_command].
Qed.

Lemma turns_print_commands (env : Env) (q : list string) (cmd : string) :
  In cmd q ->
  forall w, In (ExecCommand cmd) (out (fold_left (turn env) q w)).
Proof.
  induction q as [|c q IH]; intros Hin w; [contradiction|].
  cbn [fold_left]. destruct Hin as [->|Hin]; [|now apply IH].
  apply (printed_more_In _ (turn env w cmd)).
  - apply printed_more_loop. intros w' b. apply turn_prints_more.
  - apply (printed_more_In _ (print (ExecCommand cmd) w));
      [apply turn_prints_command|].
    simpl. apply in_or_app. right. now left.
Qed.

Lemma feed_prints_more (ks : list ascii) (w : World) : printed_more w (feed ks w).
Proof.
  unfold feed. destruct (WindowsInput.on_keys ks (input_handler w)) as [i es].
  apply printed_more_trans with (fold_left (fun w e => print (Echo e) w) es w);
    [|more_printed].
  apply printed_more_loop. intros w' e. more_printed.
Qed.

Lemma scheduled_prints_more (env : Env) (inp : TickInput) (s : Loop) (w : World) :
  printed_more w (scheduled env inp s w).
Proof.
  unfold scheduled.
  set (w2 := if Qle_bool _ _ then collect_data env w else w).
  set (w3 := if report_due _ then generate_report env 1 w2 else w2).
  set (w4 := if 7 <=? _ then clean_old_data env w3 else w3).
  apply printed_more_trans with w4; [apply printed_more_trans with w3;
                                     [apply printed_more_trans with w2|]|].
  - subst w2. destruct (Qle_bool _ _);
      [apply collect_data_prints_more | apply printed_more_refl].
  - subst w3. destruct (report_due _);
      [apply generate_report_prints_more | apply printed_more_refl].
  - subst w4. destruct (7 <=? _);
      [apply clean_old_data_prints_more | apply printed_more_refl].
  - destruct (minute _ =? 0);
      [apply detect_anomalies_prints_more | apply printed_more_refl].
Qed.

(** ** One pass and the loop *)

(** A pass prints more; it leaves the queue empty; and if it clears the
    flag, it has printed that it executes [exit]. *)
Lemma tick_stops_on_exit (env : Env) (inp : TickInput) (s : Loop) :
  WindowsInput.cmd_queue (input_handler (world s)) = [] ->
  running (world s) = true ->
  let w' := world (fst (tick env inp s)) in
  printed_more (world s) w' /\
  WindowsInput.cmd_queue (input_handler w') = [] /\
  (running w' = false -> In (ExecCommand "exit") (out w')).
Proof.
  intros Hq Hrun. cbv zeta.
  assert (Hwf : Forall well_formed_command
                  (WindowsInput.cmd_queue (input_handler (world s))))
    by (rewrite Hq; constructor).
  destruct (tick_touches_lowercase_only env inp s Hwf) as [_ Hempty].
  split; [|split; [exact Hempty|]];
    destruct (tick_eq env inp s) as [-> _];
    destruct (feed_frame (keys inp) (world s)) as [_ [_ [Hr [_ Hin]]]];
    assert (Hq0 : Forall well_formed_command
                    (WindowsInput.cmd_queue (input_handler (feed (keys inp) (world s)))))
      by (rewrite Hin; now apply on_keys_well_formed);
    rewrite (process_input_eq env _ Hq0).
  - eapply printed_more_trans; [apply feed_prints_more|].
    eapply printed_more_trans; [|apply scheduled_prints_more].
    match goal with
    | |- printed_more _ (set_input _ ?x) => apply printed_more_trans with x
    end; [|more_printed].
    apply printed_more_loop. intros w' b. apply turn_prints_more.
  - rewrite (running_control _ _ (control_scheduled env inp s _)).
    simpl. rewrite running_turns, Hr, Hrun. simpl.
    intros Hexit. apply negb_false_iff, mem_true_iff in Hexit.
    apply (printed_more_In _ _ _ (scheduled_prints_more env inp s _)).
    simpl. now apply turns_print_commands.
Qed.

Lemma loop_stops_on_exit (env : Env) (inputs : list TickInput) :
  forall s,
    WindowsInput.cmd_queue (input_handler (world s)) = [] ->
    running (world s) = true ->
    let r := loop env inputs s in
    printed_more (world s) (world (fst r)) /\
    (running (world (fst r)) = false ->
     In (ExecCommand "exit") (out (world (fst r)))) /\
    (running (world (fst r)) = true -> map fst (snd r) = inputs).
Proof.
  induction inputs as [|inp rest IH]; intros s Hq Hrun; cbv zeta.
  - simpl. split; [apply printed_more_refl|]. split; [congruence|reflexivity].
  - cbn [loop]. rewrite Hrun.
    destruct (tick_stops_on_exit env inp s Hq Hrun) as [Hmore [Hq1 Hexit]].
    destruct (tick env inp s) as [s1 acts]. cbn [fst] in Hmore, Hq1, Hexit.
    destruct (running (world s1)) eqn:Hrun1.
    + destruct (IH s1 Hq1 Hrun1) as [Hmore' [Hexit' Hall]].
      destruct (loop env rest s1) as [s2 trace]. cbn [fst snd] in *.
      split; [eapply printed_more_trans; eassumption|].
      split; [exact Hexit'|]. intros H. simpl. f_equal. now apply Hall.
    + assert (E : loop env rest s1 = (s1, [])).
      { destruct rest; simpl; [reflexivity|]. now rewrite Hrun1. }
      rewrite E. cbn [fst snd].
      split; [exact Hmore|]. split; [intros _; now apply Hexit|].
      rewrite Hrun1. discriminate.
Qed.

(** X22.  A run prints the banner first and takes nothing back.  When the
    loop is left with the flag cleared (no [KeyboardInterrupt] is raised),
    [exit] was among the commands executed, and the notice that the monitor has stopped is the last
    thing printed; as long as no [exit] is executed, every pass is made. *)
Theorem monitor_stops_only_on_exit (env : Env) (time0 : Q) (now0 : Z)
    (inputs : list TickInput) (store : database) (never_delete : bool) :
  let r := run env time0 now0 inputs (init store never_delete) in
  let w' := world (fst r) in
  (exists more, out w' = banner ++ more) /\
  (running w' = false ->
   exists before, out w' = before ++ [Stopped] /\
                  In (ExecCommand "exit") before) /\
  (running w' = true -> map fst (snd r) = inputs).
Proof.
  cbv zeta. unfold run.
  destruct (loop_stops_on_exit env inputs
              (start time0 now0 (init store never_delete)) eq_refl eq_refl)
    as [[more Hmore] [Hexit Hall]].
  destruct (loop env inputs (start time0 now0 (init store never_delete)))
    as [s trace].
  cbn [fst snd] in *.
  destruct (running (world s)) eqn:Hrun; cbn [fst snd world running].
  - split; [exists more; exact Hmore|].
    split; [congruence | intros _; now apply Hall].
  - split; [exists (more ++ [Stopped]); simpl; rewrite Hmore;
            now rewrite <- app_assoc|].
    split; [|simpl; congruence]. intros _.
    exists (out (world s)). split; [reflexivity | now apply Hexit].
Qed.

End Terminal.
